(** * rosbag-viewer: the bag ingestion pipeline of [python-service]

    A shallow embedding of [rosbag_parser.py] (class [ROS2BagParser]),
    [database.py] (class [Database]) and the job bookkeeping of [main.py].

    Conventions.
    - Python [bytes] are lists of [byte]; offsets and unsigned fields are [N].
    - A Python exception is a value [Raise e]; [try: ... except Exception]
      is [try_except].
    - An IEEE-754 binary64 read by [struct] is kept as its 64-bit pattern
      ([float64 := N]); [float_of_bits] interprets it as a primitive float.
    - Python floats computed from integers (seconds, frequencies, progress
      fractions) are exact rationals in lowest terms: rounding is not
      modelled.
    - OpenCV and float formatting are parameters ([Externals]).
    - The sqlite store of a bag is a pair of row lists; the PostgreSQL
      gateway is a record of tables whose operations always succeed.
    - Effects are state passing over [World]; a raised exception keeps the
      changes made before it. *)

From Stdlib Require Import NArith ZArith QArith Lia.
From Stdlib Require Import Strings.String Strings.Ascii Strings.Byte.
From Stdlib Require Import Floats.
From stdpp Require Import base option list gmap sorting pretty.

Close Scope Q_scope.
Close Scope float_scope.
Open Scope N_scope.
Open Scope list_scope.

(** ** Exceptions *)

Inductive exn : Type :=
  | StructError          (* struct.error *)
  | ValueError           (* numpy reshape / frombuffer *)
  | TypeError            (* arithmetic on None *)
  | IndexError           (* img.shape[1] *)
  | UnicodeDecodeError   (* bytes.decode('utf-8') *)
  | Cv2Error             (* cv2.error *)
  | ZeroDivisionError
  | FileNotFoundError    (* ROS2BagParser.connect *)
  | HTTPException (status_code : N).

Inductive result (A : Type) : Type :=
  | Ok (a : A)
  | Raise (e : exn).
Arguments Ok {A} a.
Arguments Raise {A} e.

#[global] Instance result_ret : MRet result := @Ok.
#[global] Instance result_bind : MBind result := fun A B f r =>
  match r with
  | Ok a => f a
  | Raise e => Raise e
  end.

(** [try: return body  except Exception: return None] *)
Definition try_except {A : Type} (body : result (option A)) : option A :=
  match body with
  | Ok r => r
  | Raise _ => None
  end.

(** ** Bytes, slices and [struct.unpack_from] *)

Abbreviation bytes := (list byte).

Definition len {A : Type} (l : list A) : N := N.of_nat (length l).

(** [data[a:b]] for non-negative [a], [b]: both ends are clamped. *)
Definition slice (data : bytes) (a b : N) : bytes :=
  let a' := N.min a (len data) in
  let b' := N.min b (len data) in
  take (N.to_nat (b' - a')) (drop (N.to_nat a') data).

(** [data[a:]] *)
Definition slice_from (data : bytes) (a : N) : bytes :=
  drop (N.to_nat (N.min a (len data))) data.

Fixpoint le_decode (bs : bytes) : N :=
  match bs with
  | [] => 0
  | b :: r => Byte.to_N b + 256 * le_decode r
  end.

Definition byte_of_N (n : N) : byte :=
  match Byte.of_N (n mod 256) with
  | Some b => b
  | None => x00
  end.

Fixpoint le_encode (width : nat) (v : N) : bytes :=
  match width with
  | O => []
  | S k => byte_of_N v :: le_encode k (v / 256)
  end.

(** The [size] bytes at [offset]; [struct.error] when the buffer has fewer. *)
Definition unpack_from (size : N) (data : bytes) (offset : N) : result bytes :=
  if offset + size <=? len data
  then Ok (take (N.to_nat size) (drop (N.to_nat offset) data))
  else Raise StructError.

(** [struct.unpack_from('<I', data, offset)[0]] *)
Definition unpack_from_I (data : bytes) (offset : N) : result N :=
  bs ← unpack_from 4 data offset; mret (le_decode bs).

(** [struct.unpack_from('<B', data, offset)[0]] *)
Definition unpack_from_B (data : bytes) (offset : N) : result N :=
  bs ← unpack_from 1 data offset; mret (le_decode bs).

Abbreviation float64 := N (only parsing).

Fixpoint chunks8 (n : nat) (bs : bytes) : list float64 :=
  match n with
  | O => []
  | S k => le_decode (take 8 bs) :: chunks8 k (drop 8 bs)
  end.

(** [struct.unpack_from('<ddd', data, offset)] *)
Definition unpack_from_ddd (data : bytes) (offset : N)
  : result (float64 * float64 * float64) :=
  bs ← unpack_from 24 data offset;
  match chunks8 3 bs with
  | [a; b; c] => mret (a, b, c)
  | _ => Raise StructError
  end.

(** [struct.unpack_from('<dddd', data, offset)] *)
Definition unpack_from_dddd (data : bytes) (offset : N)
  : result (float64 * float64 * float64 * float64) :=
  bs ← unpack_from 32 data offset;
  match chunks8 4 bs with
  | [a; b; c; d] => mret (a, b, c, d)
  | _ => Raise StructError
  end.

(** [struct.pack('<I', v)] and [struct.pack('<d', v)], used to lay out
    synthetic payloads. *)
Definition pack_I (v : N) : bytes := le_encode 4 v.
Definition pack_d (v : float64) : bytes := le_encode 8 v.

(** The binary64 value denoted by a bit pattern. *)
Definition float_of_bits (w : float64) : float :=
  let s := N.testbit w 63 in
  let e := (w / 2 ^ 52) mod 2 ^ 11 in
  let m := w mod 2 ^ 52 in
  SF2Prim
    (if e =? 0 then
       match m with
       | N0 => S754_zero s
       | Npos p => S754_finite s p (-1074)
       end
     else if e =? 2047 then
       match m with
       | N0 => S754_infinity s
       | Npos _ => S754_nan
       end
     else
       match m + 2 ^ 52 with
       | N0 => S754_zero s
       | Npos p => S754_finite s p (Z.of_N e - 1075)
       end).

(** The bit pattern [struct.pack('<d', f)] writes for a float that is not
    a NaN. *)
Definition bits_of_float (f : float) : float64 :=
  let sign (s : bool) := if s then 2 ^ 63 else 0 in
  match Prim2SF f with
  | S754_zero s => sign s
  | S754_infinity s => sign s + 2047 * 2 ^ 52
  | S754_nan => 2047 * 2 ^ 52 + 2 ^ 51
  | S754_finite s m e =>
      if (Npos m <? 2 ^ 52)
      then sign s + Npos m
      else sign s + Z.to_N (e + 1075) * 2 ^ 52 + (Npos m - 2 ^ 52)
  end.

(** ** MessageCodec: stamped pose *)

Record Pose : Type := mkPose {
  pose_x : float64; pose_y : float64; pose_z : float64;
  pose_qx : float64; pose_qy : float64; pose_qz : float64; pose_qw : float64
}.

Definition deserialize_pose_body (data : bytes) : result (option Pose) :=
  let offset := 4 in                       (* Skip CDR header *)
  let offset := offset + 8 in              (* stamp *)
  frame_id_len ← unpack_from_I data offset;
  let offset := offset + (4 + frame_id_len) in
  '(x, y, z) ← unpack_from_ddd data offset;
  let offset := offset + 24 in
  '(qx, qy, qz, qw) ← unpack_from_dddd data offset;
  mret (Some (mkPose x y z qx qy qz qw)).

Definition deserialize_pose_message (data : bytes) : option Pose :=
  try_except (deserialize_pose_body data).

(** A pose payload laid out field by field. *)
Definition pose_payload (preamble stamp frame_id : bytes) (p : Pose) : bytes :=
  preamble ++ stamp ++ pack_I (len frame_id) ++ frame_id
    ++ pack_d (pose_x p) ++ pack_d (pose_y p) ++ pack_d (pose_z p)
    ++ pack_d (pose_qx p) ++ pack_d (pose_qy p) ++ pack_d (pose_qz p)
    ++ pack_d (pose_qw p).

Definition pose_in_range (p : Pose) : Prop :=
  pose_x p < 2 ^ 64 /\ pose_y p < 2 ^ 64 /\ pose_z p < 2 ^ 64 /\
  pose_qx p < 2 ^ 64 /\ pose_qy p < 2 ^ 64 /\ pose_qz p < 2 ^ 64 /\
  pose_qw p < 2 ^ 64.

Definition pose_floats (p : Pose) : list float :=
  map float_of_bits
    [pose_x p; pose_y p; pose_z p; pose_qx p; pose_qy p; pose_qz p; pose_qw p].

Definition pose_123 : Pose :=
  mkPose (bits_of_float 1.0) (bits_of_float 2.0) (bits_of_float 3.0)
         (bits_of_float 0.0) (bits_of_float 0.0) (bits_of_float 0.0)
         (bits_of_float 1.0).

Definition test_frame_id : bytes := [x6d; x61; x70; x00].     (* b'map\0' *)

Definition pose_123_payload : bytes :=
  pose_payload [x00; x01; x00; x00] (repeat x00 8) test_frame_id pose_123.


(** ** MessageCodec: inertial sample *)

Record Vec3 : Type := mkVec3 { v_x : float64; v_y : float64; v_z : float64 }.

Record Imu : Type := mkImu {
  angular_velocity : Vec3;
  linear_acceleration : Vec3
}.

Definition deserialize_imu_body (data : bytes) : result (option Imu) :=
  let offset := 4 in                       (* Skip CDR header *)
  let offset := offset + 8 in              (* stamp *)
  frame_id_len ← unpack_from_I data offset;
  let offset := offset + (4 + frame_id_len) in
  let offset := offset + 32 in             (* orientation, 4 doubles *)
  let offset := offset + 72 in             (* orientation covariance *)
  '(ang_x, ang_y, ang_z) ← unpack_from_ddd data offset;
  let offset := offset + 24 in
  let offset := offset + 72 in             (* angular velocity covariance *)
  '(lin_x, lin_y, lin_z) ← unpack_from_ddd data offset;
  mret (Some (mkImu (mkVec3 ang_x ang_y ang_z) (mkVec3 lin_x lin_y lin_z))).

Definition deserialize_imu_message (data : bytes) : option Imu :=
  try_except (deserialize_imu_body data).

(** ** Strings

    A Python [str] is represented by its UTF-8 encoding, as a [string];
    [bytes.decode('utf-8')] checks that the bytes are well-formed UTF-8.
    The source only searches such strings for ASCII literals, which gives
    the same answer on code points and on their UTF-8 encoding. *)

Definition in_range (lo hi b : N) : bool := (lo <=? b) && (b <=? hi).

(** The range allowed for the second byte after lead byte [b0]. *)
Definition second_ok (b0 b1 : N) : bool :=
  if b0 =? 224 then in_range 160 191 b1            (* E0: no overlong *)
  else if b0 =? 237 then in_range 128 159 b1       (* ED: no surrogates *)
  else if b0 =? 240 then in_range 144 191 b1       (* F0: no overlong *)
  else if b0 =? 244 then in_range 128 143 b1       (* F4: <= U+10FFFF *)
  else in_range 128 191 b1.

Fixpoint utf8_valid (bs : list N) : bool :=
  match bs with
  | [] => true
  | b0 :: r0 =>
      if b0 <? 128 then utf8_valid r0
      else if in_range 194 223 b0 then
        match r0 with
        | b1 :: r1 => in_range 128 191 b1 && utf8_valid r1
        | _ => false
        end
      else if in_range 224 239 b0 then
        match r0 with
        | b1 :: b2 :: r2 =>
            second_ok b0 b1 && in_range 128 191 b2 && utf8_valid r2
        | _ => false
        end
      else if in_range 240 244 b0 then
        match r0 with
        | b1 :: b2 :: b3 :: r3 =>
            second_ok b0 b1 && in_range 128 191 b2 && in_range 128 191 b3
              && utf8_valid r3
        | _ => false
        end
      else false
  end.

(** [bs.decode('utf-8')] *)
Definition decode_utf8 (bs : bytes) : result string :=
  if utf8_valid (map Byte.to_N bs)
  then Ok (string_of_list_byte bs)
  else Raise UnicodeDecodeError.

(** [needle in hay] *)
Fixpoint contains (needle hay : string) : bool :=
  String.prefix needle hay ||
  match hay with
  | EmptyString => false
  | String _ t => contains needle t
  end.

(** ** numpy arrays and the image codec capability *)

Inductive dtype : Type := uint8 | uint16.

Record ndarray : Type := mkArray {
  arr_shape : list N;
  arr_elems : list N
}.

Fixpoint chunks16 (bs : list N) : list N :=
  match bs with
  | lo :: hi :: r => (lo + 256 * hi) :: chunks16 r
  | _ => []
  end.

(** [np.frombuffer(buf, dtype=dt)] *)
Definition frombuffer (buf : bytes) (dt : dtype) : result (list N) :=
  match dt with
  | uint8 => Ok (map Byte.to_N buf)
  | uint16 =>
      if len buf mod 2 =? 0
      then Ok (chunks16 (map Byte.to_N buf))
      else Raise ValueError
  end.

(** [a.reshape(shape)] *)
Definition reshape (elems : list N) (shape : list N) : result ndarray :=
  if foldr N.mul 1 shape =? len elems
  then Ok (mkArray shape elems)
  else Raise ValueError.

(** [img.shape[i]] *)
Definition shape_at (img : ndarray) (i : nat) : result N :=
  match arr_shape img !! i with
  | Some d => Ok d
  | None => Raise IndexError
  end.

(** What the source takes from OpenCV and from float formatting. *)
Class Externals : Type := {
  (** [cv2.imdecode(np.frombuffer(blob, np.uint8), cv2.IMREAD_COLOR)]:
      an image, [None], or [cv2.error]. *)
  cv2_imdecode : bytes -> result (option ndarray);
  (** [cv2.imwrite(path, img, [cv2.IMWRITE_JPEG_QUALITY, q])]: its boolean
      result, or [cv2.error]. *)
  cv2_imwrite : string -> ndarray -> result bool;
  (** [f"{timestamp_ns / 1e9:.6f}"] *)
  format_6f : Z -> string
}.

(** ** MessageCodec: images *)

Inductive encoding_class : Type :=
  | Color8        (* 'bgr8' in encoding or 'rgb8' in encoding *)
  | Mono8         (* 'mono8' in encoding *)
  | Depth16       (* '16UC1' in encoding *)
  | Unsupported.

Definition classify_encoding (encoding : string) : encoding_class :=
  if contains "bgr8" encoding || contains "rgb8" encoding then Color8
  else if contains "mono8" encoding then Mono8
  else if contains "16UC1" encoding then Depth16
  else Unsupported.

Record RawImageHeader : Type := mkRawHeader {
  rh_height : N;
  rh_width : N;
  rh_encoding : string;
  rh_is_bigendian : N;
  rh_step : N;
  rh_data_len : N;
  rh_data_offset : N
}.

(** The fields of a raw image up to the pixel bytes, as the source reads
    them one after the other. *)
Definition parse_raw_image_header (data : bytes) : result RawImageHeader :=
  let offset := 4 in                       (* Skip CDR header *)
  let offset := offset + 8 in              (* Skip stamp *)
  frame_id_len ← unpack_from_I data offset;
  let offset := offset + (4 + frame_id_len) in
  height ← unpack_from_I data offset;
  let offset := offset + 4 in
  width ← unpack_from_I data offset;
  let offset := offset + 4 in
  encoding_len ← unpack_from_I data offset;
  let offset := offset + 4 in
  encoding ← decode_utf8 (slice data offset (offset + encoding_len));
  let offset := offset + encoding_len in
  is_bigendian ← unpack_from_B data offset;
  let offset := offset + 1 in
  step ← unpack_from_I data offset;
  let offset := offset + 4 in
  data_len ← unpack_from_I data offset;
  let offset := offset + 4 in
  mret (mkRawHeader height width encoding is_bigendian step data_len offset).

Definition Decoded : Type := ndarray * N * N.      (* (img, width, height) *)

Definition deserialize_raw_image_body (data : bytes) : result (option Decoded) :=
  h ← parse_raw_image_header data;
  let height := rh_height h in
  let width := rh_width h in
  let offset := rh_data_offset h in
  let image_data := slice data offset (offset + rh_data_len h) in
  match classify_encoding (rh_encoding h) with
  | Color8 =>
      a ← frombuffer image_data uint8;
      img ← reshape a [height; width; 3];
      mret (Some (img, width, height))
  | Mono8 =>
      a ← frombuffer image_data uint8;
      img ← reshape a [height; width];
      mret (Some (img, width, height))
  | Depth16 =>
      a ← frombuffer image_data uint16;
      img ← reshape a [height; width];
      (* (img / 256).astype(np.uint8) *)
      let img := mkArray (arr_shape img) (map (fun v => v / 256) (arr_elems img)) in
      mret (Some (img, width, height))
  | Unsupported => mret None
  end.

Section Codec.
Context `{Externals}.

Definition deserialize_compressed_image_body (data : bytes)
  : result (option Decoded) :=
  let offset := 4 in
  format_len ← unpack_from_I data offset;
  let offset := offset + (4 + format_len) in
  let compressed_data := slice_from data offset in
  r ← cv2_imdecode compressed_data;
  match r with
  | Some img =>
      w ← shape_at img 1;
      h ← shape_at img 0;
      mret (Some (img, w, h))
  | None => mret None
  end.

Definition deserialize_image_message (data : bytes) (message_type : string)
  : option Decoded :=
  try_except
    (if contains "CompressedImage" message_type
     then deserialize_compressed_image_body data
     else deserialize_raw_image_body data).

End Codec.

(** A raw image payload laid out field by field. *)
Definition raw_image_payload (frame_id : bytes) (height width : N)
    (encoding : string) (step data_len : N) (pixels : bytes) : bytes :=
  [x00; x01; x00; x00] ++ repeat x00 8
    ++ pack_I (len frame_id) ++ frame_id
    ++ pack_I height ++ pack_I width
    ++ pack_I (len (list_byte_of_string encoding)) ++ list_byte_of_string encoding
    ++ [x00] ++ pack_I step ++ pack_I data_len ++ pixels.


(** ** Numbers computed by the pipeline *)

(** A Python number that is either the [int] literal or a [float]. *)
Inductive pynum : Type :=
  | PyInt (z : Z)
  | PyFloat (q : Q).

(** [a / b] where the divisor is a non-zero constant or was just tested *)
Definition truediv (a b : Q) : Q := Qred (a / b).

(** [a / b] on two integers *)
Definition int_truediv (a b : Z) : result Q :=
  if (b =? 0)%Z then Raise ZeroDivisionError
  else Ok (truediv (inject_Z a) (inject_Z b)).

(** [ns / 1e9] *)
Definition ns_to_s (ns : Z) : Q := truediv (inject_Z ns) (inject_Z 1000000000).

Definition Qpos_b (q : Q) : bool := (0 <? Qnum q)%Z.     (* q > 0 *)

(** ** BagStore: the relational store of a bag *)

Record TopicRow : Type := mkTopicRow {
  t_id : Z;
  t_name : string;
  t_type : string;
  t_serialization_format : string
}.

Record MessageRow : Type := mkMessageRow {
  m_topic_id : Z;
  m_timestamp : Z;          (* integer nanoseconds *)
  m_data : bytes
}.

Record BagStore : Type := mkBagStore {
  st_topics : list TopicRow;
  st_messages : list MessageRow
}.

(** [SELECT ... FROM messages WHERE topic_id = ?] *)
Definition rows_of_topic (store : BagStore) (topic_id : Z) : list MessageRow :=
  filter (fun m => m_topic_id m = topic_id) (st_messages store).

(** [... ORDER BY timestamp] *)
Definition by_timestamp (a b : MessageRow) : Prop := (m_timestamp a <= m_timestamp b)%Z.

#[global] Instance by_timestamp_dec a b : Decision (by_timestamp a b) :=
  decide (m_timestamp a <= m_timestamp b)%Z.

Definition fetch_messages (store : BagStore) (topic_id : Z) : list MessageRow :=
  merge_sort by_timestamp (rows_of_topic store topic_id).

(** [MIN(timestamp)], [MAX(timestamp)]: [None] (SQL NULL) on no rows. *)
Definition sql_min (l : list Z) : option Z :=
  match l with
  | [] => None
  | x :: r => Some (foldr Z.min x r)
  end.

Definition sql_max (l : list Z) : option Z :=
  match l with
  | [] => None
  | x :: r => Some (foldr Z.max x r)
  end.

Record Metadata : Type := mkMetadata {
  md_topics : list TopicRow;
  md_message_count : nat;
  md_start_time : Q;
  md_end_time : Q;
  md_duration : Q
}.

(** [x if x else 0] for an optional integer *)
Definition or_zero (x : option Z) : Z := default 0%Z x.

Definition get_metadata (store : BagStore) : Metadata :=
  let topics := st_topics store in
  let stamps := map m_timestamp (st_messages store) in
  let start_time_ns := or_zero (sql_min stamps) in
  let end_time_ns := or_zero (sql_max stamps) in
  let duration := ns_to_s (end_time_ns - start_time_ns) in
  mkMetadata topics (length (st_messages store))
             (ns_to_s start_time_ns) (ns_to_s end_time_ns) duration.

Record TopicInfo : Type := mkTopicInfo {
  ti_topic_id : Z;
  ti_name : string;
  ti_type : string;
  ti_message_count : nat;
  ti_frequency : pynum
}.

(** [last_time - first_time] on the values sqlite returns *)
Definition sub_optional (last_time first_time : option Z) : result Z :=
  match last_time, first_time with
  | Some l, Some f => Ok (l - f)%Z
  | _, _ => Raise TypeError
  end.

Definition get_topic_info (store : BagStore) (topic_name : string)
  : result (option TopicInfo) :=
  match find (fun t => String.eqb (t_name t) topic_name) (st_topics store) with
  | None => mret None
  | Some topic =>
      let rows := rows_of_topic store (t_id topic) in
      let count := length rows in
      let first_time := sql_min (map m_timestamp rows) in
      let last_time := sql_max (map m_timestamp rows) in
      delta ← sub_optional last_time first_time;
      let duration := ns_to_s delta in
      let frequency :=
        if Qpos_b duration
        then PyFloat (truediv (inject_Z (Z.of_nat count)) duration)
        else PyInt 0 in
      mret (Some (mkTopicInfo (t_id topic) (t_name topic) (t_type topic)
                              count frequency))
  end.

(** ** Persistence gateway ([database.py]) *)

Record TopicRecord : Type := mkTopicRecord {
  tr_id : Z;
  tr_bag_id : Z;
  tr_name : string;
  tr_message_type : string;
  tr_message_count : nat;
  tr_frequency : pynum;
  tr_cover_image_path : option string
}.

Record FrameData : Type := mkFrame {
  fd_topic_id : option Z;       (* None until the topic is created *)
  fd_timestamp : Q;
  fd_sequence_number : nat;
  fd_file_path : string;
  fd_width : N;
  fd_height : N
}.

Record PoseRow : Type := mkPoseRow {
  pr_bag_id : Z; pr_timestamp : Q; pr_pose : Pose
}.

Record ImuRow : Type := mkImuRow {
  ir_bag_id : Z; ir_timestamp : Q; ir_imu : Imu
}.

Record Gateway : Type := mkGateway {
  g_bags : gmap Z bool;               (* bags.id -> bags.processed *)
  g_topics : list TopicRecord;
  g_next_topic_id : Z;                (* the serial of topics.id *)
  g_frames : list FrameData;
  g_pose_data : list PoseRow;
  g_imu_data : list ImuRow
}.

Definition create_topic (bag_id : Z) (name message_type : string)
    (message_count : nat) (frequency : pynum) (cover_image_path : option string)
    (g : Gateway) : Z * Gateway :=
  let topic_id := g_next_topic_id g in
  (topic_id,
   mkGateway (g_bags g)
     (g_topics g ++ [mkTopicRecord topic_id bag_id name message_type
                       message_count frequency cover_image_path])
     (topic_id + 1)%Z (g_frames g) (g_pose_data g) (g_imu_data g)).

(** The three bulk inserts return at once on an empty batch. *)
Definition bulk_insert_frames (frames : list FrameData) (g : Gateway) : Gateway :=
  match frames with
  | [] => g
  | _ => mkGateway (g_bags g) (g_topics g) (g_next_topic_id g)
           (g_frames g ++ frames) (g_pose_data g) (g_imu_data g)
  end.

Definition bulk_insert_pose_data (pose_data : list PoseRow) (g : Gateway) : Gateway :=
  match pose_data with
  | [] => g
  | _ => mkGateway (g_bags g) (g_topics g) (g_next_topic_id g)
           (g_frames g) (g_pose_data g ++ pose_data) (g_imu_data g)
  end.

Definition bulk_insert_imu_data (imu_data : list ImuRow) (g : Gateway) : Gateway :=
  match imu_data with
  | [] => g
  | _ => mkGateway (g_bags g) (g_topics g) (g_next_topic_id g)
           (g_frames g) (g_pose_data g) (g_imu_data g ++ imu_data)
  end.

(** [UPDATE bags SET processed = %s WHERE id = %s] *)
Definition update_bag_processed (bag_id : Z) (processed : bool) (g : Gateway) : Gateway :=
  mkGateway (alter (fun _ => processed) bag_id (g_bags g)) (g_topics g)
    (g_next_topic_id g) (g_frames g) (g_pose_data g) (g_imu_data g).

Definition get_bag (bag_id : Z) (g : Gateway) : option bool := g_bags g !! bag_id.

(** ** The world the pipeline runs in *)

Record ProcessingStatus : Type := mkStatus {
  ps_bag_id : Z;
  ps_status : string;          (* 'pending', 'processing', 'completed', 'failed' *)
  ps_progress : Q;             (* 0-100 *)
  ps_message : option string
}.

(** [main.processing_jobs] *)
Abbreviation Jobs := (gmap Z ProcessingStatus).

(** Where a progress value was reported from. *)
Inductive report_site : Type :=
  | SubProgress        (* process_camera_topic, every tenth message *)
  | TopicCompleted.    (* process_all, after a topic *)

Record World : Type := mkWorld {
  w_gateway : Gateway;
  w_files : list (string * ndarray);        (* successful cv2.imwrite calls, in order *)
  w_jobs : Jobs;
  w_reports : list (report_site * Q);       (* calls of progress_callback *)
  w_conn_open : bool                        (* the sqlite connection *)
}.

Definition with_gateway (f : Gateway -> Gateway) (w : World) : World :=
  mkWorld (f (w_gateway w)) (w_files w) (w_jobs w) (w_reports w) (w_conn_open w).
Definition with_files (f : list (string * ndarray) -> list (string * ndarray))
    (w : World) : World :=
  mkWorld (w_gateway w) (f (w_files w)) (w_jobs w) (w_reports w) (w_conn_open w).
Definition with_jobs (f : Jobs -> Jobs) (w : World) : World :=
  mkWorld (w_gateway w) (w_files w) (f (w_jobs w)) (w_reports w) (w_conn_open w).
Definition with_reports (f : list (report_site * Q) -> list (report_site * Q))
    (w : World) : World :=
  mkWorld (w_gateway w) (w_files w) (w_jobs w) (f (w_reports w)) (w_conn_open w).
Definition with_conn (b : bool) (w : World) : World :=
  mkWorld (w_gateway w) (w_files w) (w_jobs w) (w_reports w) b.

(** Computations that change the world and may raise; the changes made
    before an exception stay. *)
Definition M (A : Type) : Type := World -> result A * World.

#[global] Instance M_ret : MRet M := fun A a w => (Ok a, w).
#[global] Instance M_bind : MBind M := fun A B f m w =>
  match m w with
  | (Ok a, w') => f a w'
  | (Raise e, w') => (Raise e, w')
  end.

Definition lift {A : Type} (r : result A) : M A := fun w => (r, w).
Definition modify (f : World -> World) : M unit := fun w => (Ok tt, f w).

(** [try: body  finally: fin] *)
Definition try_finally {A : Type} (body : M A) (fin : World -> World) : M A :=
  fun w => let '(r, w') := body w in (r, fin w').

(** A progress observer acts on the job table only. *)
Definition Callback : Type := Q -> Jobs -> Jobs.

(** [if progress_callback: progress_callback(v)] *)
Definition report (progress_callback : option Callback) (site : report_site) (v : Q)
  : M unit :=
  match progress_callback with
  | None => mret tt
  | Some cb =>
      modify (fun w => with_jobs (cb v) (with_reports (fun l => l ++ [(site, v)]) w))
  end.

(** ** TopicProcessor *)

(** [settings.upload_dir] *)
Definition upload_dir : string := "/home/luukas/bagtest".

(** [topic_name.replace('/', '_')] *)
Fixpoint replace_slash (s : string) : string :=
  match s with
  | EmptyString => EmptyString
  | String c t =>
      String (if Ascii.eqb c "/" then "_"%char else c) (replace_slash t)
  end.

Section TopicProcessor.
Context `{Externals}.

(** [str(filepath.relative_to(Path(settings.upload_dir)))] for the frame
    of the message stamped [timestamp_ns] *)
Definition relative_path (bag_id : Z) (topic_name : string) (timestamp_ns : Z)
  : string :=
  pretty bag_id +:+ "/frames/" +:+ replace_slash topic_name +:+ "/"
    +:+ format_6f timestamp_ns +:+ ".jpg".

(** [cv2.imwrite(str(filepath), img, ...)]; its result is not looked at. *)
Definition imwrite (filepath : string) (img : ndarray) : M unit :=
  fun w =>
    match cv2_imwrite filepath img with
    | Ok true => (Ok tt, with_files (fun fs => fs ++ [(filepath, img)]) w)
    | Ok false => (Ok tt, w)
    | Raise e => (Raise e, w)
    end.

(** [if progress_callback and idx % 10 == 0:
      progress_callback(idx / total_messages)] *)
Definition report_sub_progress (progress_callback : option Callback)
    (idx total_messages : nat) : M unit :=
  if bool_decide (is_Some progress_callback) && (idx mod 10 =? 0)%nat
  then v ← lift (int_truediv (Z.of_nat idx) (Z.of_nat total_messages));
       report progress_callback SubProgress v
  else mret tt.

(** The body of [for idx, row in enumerate(messages)], from index [idx]
    on; [frames_data] and [cover_image_path] are the loop's variables. *)
Fixpoint camera_loop (bag_id : Z) (topic_name message_type : string)
    (progress_callback : option Callback) (total_messages : nat)
    (idx : nat) (messages : list MessageRow)
    (frames_data : list FrameData) (cover_image_path : option string)
  : M (list FrameData * option string) :=
  match messages with
  | [] => mret (frames_data, cover_image_path)
  | row :: rest =>
      let timestamp_ns := m_timestamp row in
      let timestamp_s := ns_to_s timestamp_ns in
      match deserialize_image_message (m_data row) message_type with
      | None =>                                            (* continue *)
          camera_loop bag_id topic_name message_type progress_callback
            total_messages (S idx) rest frames_data cover_image_path
      | Some (img, width, height) =>
          let rel := relative_path bag_id topic_name timestamp_ns in
          _ ← imwrite (upload_dir +:+ "/" +:+ rel) img;
          let frames_data :=
            frames_data ++ [mkFrame None timestamp_s idx rel width height] in
          let cover_image_path :=
            if (idx =? 0)%nat then Some rel else cover_image_path in
          _ ← report_sub_progress progress_callback idx total_messages;
          camera_loop bag_id topic_name message_type progress_callback
            total_messages (S idx) rest frames_data cover_image_path
      end
  end.

Definition set_topic_id (topic_db_id : Z) (f : FrameData) : FrameData :=
  mkFrame (Some topic_db_id) (fd_timestamp f) (fd_sequence_number f)
          (fd_file_path f) (fd_width f) (fd_height f).

(** [db.create_topic(...)] as a step of the pipeline *)
Definition db_create_topic (bag_id : Z) (topic_name : string) (ti : TopicInfo)
    (cover_image_path : option string) : M Z :=
  fun w =>
    let '(topic_db_id, g) :=
      create_topic bag_id topic_name (ti_type ti) (ti_message_count ti)
        (ti_frequency ti) cover_image_path (w_gateway w) in
    (Ok topic_db_id, with_gateway (fun _ => g) w).

Definition process_camera_topic (store : BagStore) (bag_id : Z)
    (topic_name : string) (progress_callback : option Callback)
  : M (option Z) :=
  topic_info ← lift (get_topic_info store topic_name);
  match topic_info with
  | None => mret None
  | Some ti =>
      let messages := fetch_messages store (ti_topic_id ti) in
      let total_messages := length messages in
      '(frames_data, cover_image_path) ←
        camera_loop bag_id topic_name (ti_type ti) progress_callback
          total_messages 0 messages [] None;
      topic_db_id ← db_create_topic bag_id topic_name ti cover_image_path;
      let frames_data := map (set_topic_id topic_db_id) frames_data in
      _ ← modify (with_gateway (bulk_insert_frames frames_data));
      mret (Some topic_db_id)
  end.

(** [for row in cursor.fetchall(): ... if pose: pose_data.append(pose)] *)
Definition pose_rows (bag_id : Z) (messages : list MessageRow) : list PoseRow :=
  omap (fun row =>
          pose ← deserialize_pose_message (m_data row);
          Some (mkPoseRow bag_id (ns_to_s (m_timestamp row)) pose))
       messages.

Definition process_pose_topic (store : BagStore) (bag_id : Z)
    (topic_name : string) : M (option Z) :=
  topic_info ← lift (get_topic_info store topic_name);
  match topic_info with
  | None => mret None
  | Some ti =>
      let pose_data := pose_rows bag_id (fetch_messages store (ti_topic_id ti)) in
      _ ← modify (with_gateway (bulk_insert_pose_data pose_data));
      topic_db_id ← db_create_topic bag_id topic_name ti None;
      mret (Some topic_db_id)
  end.

Definition imu_rows (bag_id : Z) (messages : list MessageRow) : list ImuRow :=
  omap (fun row =>
          imu ← deserialize_imu_message (m_data row);
          Some (mkImuRow bag_id (ns_to_s (m_timestamp row)) imu))
       messages.

Definition process_imu_topic (store : BagStore) (bag_id : Z)
    (topic_name : string) : M (option Z) :=
  topic_info ← lift (get_topic_info store topic_name);
  match topic_info with
  | None => mret None
  | Some ti =>
      let imu_data := imu_rows bag_id (fetch_messages store (ti_topic_id ti)) in
      _ ← modify (with_gateway (bulk_insert_imu_data imu_data));
      topic_db_id ← db_create_topic bag_id topic_name ti None;
      mret (Some topic_db_id)
  end.

(** ** IngestionPipeline *)

Inductive topic_kind : Type := Camera | PoseTopic | ImuTopic.

Definition process_topic (kind : topic_kind) (store : BagStore) (bag_id : Z)
    (progress_callback : option Callback) (topic : string) : M (option Z) :=
  match kind with
  | Camera => process_camera_topic store bag_id topic progress_callback
  | PoseTopic => process_pose_topic store bag_id topic
  | ImuTopic => process_imu_topic store bag_id topic
  end.

Definition camera_topics : list string :=
  [ "/camera/camera/color/image_raw";
    "/camera/camera/depth/image_rect_raw";
    "/camera/camera/infra1/image_rect_raw";
    "/camera/camera/infra2/image_rect_raw" ].
Definition pose_topics : list string := [ "/camera/pose" ].
Definition imu_topics : list string := [ "/camera/camera/imu" ].

Definition total_topics : nat :=
  length camera_topics + length pose_topics + length imu_topics.

(** The job table is a module-level dictionary that the request handlers
    share with the pipeline. [process_all] has no statement between two
    topics, and [process_bag_background] never awaits, so the server runs
    no handler there: the run of the source is the one with [quiet]. The
    parameter lets a property of the pipeline be stated for every content
    of the job table, given the number of topics processed so far. *)
Definition Interference : Type := nat -> Jobs -> Jobs.
Definition quiet : Interference := fun _ jobs => jobs.

(** One of the three [for topic in ..._topics] loops of [process_all];
    [processed] is the counter they share. *)
Fixpoint topic_loop (kind : topic_kind) (store : BagStore) (bag_id : Z)
    (progress_callback : option Callback) (others : Interference)
    (present : list string) (topics : list string) (processed : nat) : M nat :=
  match topics with
  | [] => mret processed
  | topic :: rest =>
      if bool_decide (topic ∈ present) then
        _ ← process_topic kind store bag_id progress_callback topic;
        let processed := S processed in
        _ ← report progress_callback TopicCompleted
              (truediv (inject_Z (Z.of_nat processed))
                       (inject_Z (Z.of_nat total_topics)));
        _ ← modify (with_jobs (others processed));
        topic_loop kind store bag_id progress_callback others present rest processed
      else
        topic_loop kind store bag_id progress_callback others present rest processed
  end.

Record ROS2BagParser : Type := mkParser {
  bag_store : option BagStore;     (* the .db3 file under bag_path, if any *)
  bag_id : Z
}.

Definition connect (parser : ROS2BagParser) : M BagStore :=
  match bag_store parser with
  | None => lift (Raise FileNotFoundError)
  | Some store => fun w => (Ok store, with_conn true w)
  end.

Definition close (w : World) : World := with_conn false w.

Definition process_all (parser : ROS2BagParser)
    (progress_callback : option Callback) (others : Interference) : M unit :=
  store ← connect parser;
  try_finally
    (let metadata := get_metadata store in
     let present := map t_name (md_topics metadata) in
     processed ← topic_loop Camera store (bag_id parser) progress_callback
                   others present camera_topics 0;
     processed ← topic_loop PoseTopic store (bag_id parser) progress_callback
                   others present pose_topics processed;
     processed ← topic_loop ImuTopic store (bag_id parser) progress_callback
                   others present imu_topics processed;
     modify (with_gateway (update_bag_processed (bag_id parser) true)))
    close.

(** ** Job bookkeeping ([main.py]) *)

(** The closure [update_progress] of [process_bag_background] *)
Definition update_progress (bag_id : Z) : Callback := fun progress jobs =>
  match jobs !! bag_id with
  | Some st =>
      <[bag_id := mkStatus (ps_bag_id st) (ps_status st)
                    (Qred (progress * inject_Z 100)) (ps_message st)]> jobs
  | None => jobs
  end.

Definition exn_name (e : exn) : string :=
  match e with
  | StructError => "struct.error"
  | ValueError => "ValueError"
  | TypeError => "TypeError"
  | IndexError => "IndexError"
  | UnicodeDecodeError => "UnicodeDecodeError"
  | Cv2Error => "cv2.error"
  | ZeroDivisionError => "ZeroDivisionError"
  | FileNotFoundError => "FileNotFoundError"
  | HTTPException _ => "HTTPException"
  end.

Definition status_processing (bag_id : Z) : ProcessingStatus :=
  mkStatus bag_id "processing" (inject_Z 0) (Some "Starting bag processing...").
Definition status_completed (bag_id : Z) : ProcessingStatus :=
  mkStatus bag_id "completed" (inject_Z 100)
           (Some "Bag processing completed successfully").
(** The text and traceback of the exception are stood for by its name. *)
Definition status_failed (bag_id : Z) (e : exn) : ProcessingStatus :=
  mkStatus bag_id "failed" (inject_Z 0)
           (Some ("Error processing bag: " +:+ exn_name e)).
Definition status_cancelled (bag_id : Z) : ProcessingStatus :=
  mkStatus bag_id "failed" (inject_Z 0) (Some "Processing cancelled by user").

Definition process_bag_background (bag_id : Z) (bag : option BagStore)
    (others : Interference) (w : World) : World :=
  let w := with_jobs (insert bag_id (status_processing bag_id)) w in
  let parser := mkParser bag bag_id in
  match process_all parser (Some (update_progress bag_id)) others w with
  | (Ok _, w') => with_jobs (insert bag_id (status_completed bag_id)) w'
  | (Raise e, w') => with_jobs (insert bag_id (status_failed bag_id e)) w'
  end.

(** [POST /api/bags/{bag_id}/cancel] *)
Definition cancel_processing (bag_id : Z) (jobs : Jobs) : result string * Jobs :=
  match jobs !! bag_id with
  | None => (Raise (HTTPException 404), jobs)
  | Some _ => (Ok "Processing cancelled", <[bag_id := status_cancelled bag_id]> jobs)
  end.

(** [GET /api/bags/status/{bag_id}] *)
Definition get_processing_status (bag_id : Z) (w : World) : result ProcessingStatus :=
  match get_bag bag_id (w_gateway w) with
  | None => Raise (HTTPException 404)
  | Some processed =>
      match w_jobs w !! bag_id with
      | Some st => Ok st
      | None =>
          if processed
          then Ok (mkStatus bag_id "completed" (inject_Z 100)
                            (Some "Bag processing completed"))
          else Ok (mkStatus bag_id "pending" (inject_Z 0)
                            (Some "Bag processing not yet started"))
      end
  end.

End TopicProcessor.

(** ** Concrete bags used to run the definitions *)

Definition six_digits (x : Z) : string :=
  match pretty (1000000 + x)%Z with
  | String _ t => t
  | EmptyString => EmptyString
  end.

(** An image codec that recognises nothing and refuses to write an empty
    raster, and a formatter that is exact on whole microseconds. *)
Definition test_externals : Externals := {|
  cv2_imdecode := fun blob =>
    match blob with
    | [] => Raise Cv2Error
    | _ => Ok None
    end;
  cv2_imwrite := fun _ img =>
    match arr_elems img with
    | [] => Raise Cv2Error
    | _ => Ok true
    end;
  format_6f := fun ns =>
    pretty (ns / 1000000000)%Z +:+ "." +:+ six_digits ((ns mod 1000000000) / 1000)%Z
|}.

Definition image_type : string := "sensor_msgs/msg/Image".
Definition pose_type : string := "geometry_msgs/msg/PoseStamped".
Definition color_topic : string := "/camera/camera/color/image_raw".
Definition depth_topic : string := "/camera/camera/depth/image_rect_raw".

(** A 1x1 [mono8] image, a payload cut after the CDR header, and a 0x0
    [mono8] image. *)
Definition good_image : bytes := raw_image_payload test_frame_id 1 1 "mono8" 1 1 [x2a].
Definition cut_payload : bytes := [x00; x01; x00; x00].
Definition empty_image : bytes := raw_image_payload test_frame_id 0 0 "mono8" 0 0 [].

Definition second (k : Z) : Z := (k * 1000000000)%Z.

Definition color_row : TopicRow := mkTopicRow 1 color_topic image_type "cdr".
Definition depth_row : TopicRow := mkTopicRow 2 depth_topic image_type "cdr".
Definition pose_row : TopicRow := mkTopicRow 3 "/camera/pose" pose_type "cdr".

(** Five camera messages, the one at index 3 does not decode. *)
Definition bag_five : BagStore :=
  mkBagStore [color_row]
    [ mkMessageRow 1 (second 1) good_image;
      mkMessageRow 1 (second 2) good_image;
      mkMessageRow 1 (second 3) good_image;
      mkMessageRow 1 (second 4) cut_payload;
      mkMessageRow 1 (second 5) good_image ].

(** Two camera messages, the first does not decode. *)
Definition bag_first_cut : BagStore :=
  mkBagStore [color_row]
    [ mkMessageRow 1 (second 1) cut_payload;
      mkMessageRow 1 (second 2) good_image ].

(** A pose topic that was declared and never published on. *)
Definition bag_silent_pose : BagStore :=
  mkBagStore [color_row; pose_row] [ mkMessageRow 1 (second 1) good_image ].

(** One camera topic and one pose topic. *)
Definition bag_camera_pose : BagStore :=
  mkBagStore [color_row; pose_row]
    [ mkMessageRow 1 (second 1) good_image;
      mkMessageRow 3 (second 1) pose_123_payload;
      mkMessageRow 1 (second 2) good_image;
      mkMessageRow 3 (second 2) cut_payload;
      mkMessageRow 3 (second 3) pose_123_payload ].

(** Two camera topics. *)
Definition bag_two_cameras : BagStore :=
  mkBagStore [color_row; depth_row]
    [ mkMessageRow 1 (second 1) good_image;
      mkMessageRow 2 (second 1) good_image;
      mkMessageRow 2 (second 2) good_image ].

(** A camera topic whose second raster is empty, so that writing it
    raises. *)
Definition bag_write_error : BagStore :=
  mkBagStore [color_row]
    [ mkMessageRow 1 (second 1) good_image;
      mkMessageRow 1 (second 2) empty_image ].

(** 100 messages over exactly 10 seconds. *)
Definition bag_hundred : BagStore :=
  mkBagStore [pose_row]
    (map (fun k => mkMessageRow 3 (Z.of_nat k * 10000000000 / 99)%Z cut_payload)
         (seq 0 100)).

Definition empty_gateway (bag_id : Z) : Gateway :=
  mkGateway {[ bag_id := false ]} [] 1 [] [] [].

Definition fresh_world (bag_id : Z) : World :=
  mkWorld (empty_gateway bag_id) [] ∅ [] false.


(** ** What the camera loop computes, without its effects *)

Section LoopResult.
Context `{Externals}.

(** The raw indices, counted from [idx], of the messages that decode. *)
Fixpoint decoded_indices (message_type : string) (idx : nat)
    (messages : list MessageRow) : list nat :=
  match messages with
  | [] => []
  | row :: rest =>
      match deserialize_image_message (m_data row) message_type with
      | None => decoded_indices message_type (S idx) rest
      | Some _ => idx :: decoded_indices message_type (S idx) rest
      end
  end.

(** The frame records of the messages that decode. *)
Fixpoint frames_from (bag_id : Z) (topic_name message_type : string) (idx : nat)
    (messages : list MessageRow) : list FrameData :=
  match messages with
  | [] => []
  | row :: rest =>
      match deserialize_image_message (m_data row) message_type with
      | None => frames_from bag_id topic_name message_type (S idx) rest
      | Some (_, width, height) =>
          mkFrame None (ns_to_s (m_timestamp row)) idx
                  (relative_path bag_id topic_name (m_timestamp row)) width height
            :: frames_from bag_id topic_name message_type (S idx) rest
      end
  end.

(** The cover path after the loop: the frame of the message at raw index 0,
    if that message decodes. *)
Definition cover_from (bag_id : Z) (topic_name message_type : string) (idx : nat)
    (messages : list MessageRow) (cover : option string) : option string :=
  match idx, messages with
  | O, row :: _ =>
      match deserialize_image_message (m_data row) message_type with
      | None => cover
      | Some _ => Some (relative_path bag_id topic_name (m_timestamp row))
      end
  | _, _ => cover
  end.

End LoopResult.

(** A step that leaves the persistence gateway and the store connection
    as they were. *)
Definition keeps_gateway (w w' : World) : Prop :=
  w_gateway w' = w_gateway w /\ w_conn_open w' = w_conn_open w.

(** ** Progress reports *)

(** The values reported after a topic, in order. *)
Definition completions (reports : list (report_site * Q)) : list Q :=
  omap (fun p => match p.1 with
                 | TopicCompleted => Some p.2
                 | SubProgress => None
                 end) reports.

(** [processed / total_topics] *)
Definition fraction (processed : nat) : Q :=
  truediv (inject_Z (Z.of_nat processed)) (inject_Z (Z.of_nat total_topics)).

(** The claim on progress values, word for word: a value reported at or
    after a later position is never below a topic-completion value. *)
Definition never_below_completed (reports : list (report_site * Q)) : Prop :=
  forall (i j : nat) (v v' : Q) (site : report_site),
    (i < j)%nat ->
    reports !! i = Some (TopicCompleted, v) ->
    reports !! j = Some (site, v') ->
    (v <= v')%Q.

(** A value reported from inside a camera topic, in [0, 1). *)
Definition sub_report_ok (p : report_site * Q) : Prop :=
  p.1 = SubProgress /\ (0 <= p.2)%Q /\ (p.2 < 1)%Q.

(** The values a run of one topic loop reports: sub-progress values in
    [0, 1), and after the k-th topic it completes the value
    (processed + k) / total_topics. *)
Definition loop_reports_ok (cb : option Callback) (processed : nat)
    (new : list (report_site * Q)) (count : nat) : Prop :=
  completions new = match cb with
                    | Some _ => map fraction (seq (S processed) count)
                    | None => []
                    end /\
  Forall (fun p => p.1 = SubProgress -> (0 <= p.2)%Q /\ (p.2 < 1)%Q) new.

(** ** Where the decoders' cursors end *)

(** The frame-identifier length a payload declares at offset 12. *)
Definition frame_id_len_of (data : bytes) : N := le_decode (take 4 (drop 12 data)).

(** The offset just past the last field the pose decoder reads. *)
Definition pose_end (data : bytes) : N := 4 + 8 + (4 + frame_id_len_of data) + 24 + 32.

(** The offset just past the last field the inertial decoder reads. *)
Definition imu_end (data : bytes) : N :=
  4 + 8 + (4 + frame_id_len_of data) + 32 + 72 + 24 + 72 + 24.

(** The encoding length a raw image declares after height and width. *)
Definition encoding_len_of (data : bytes) : N :=
  le_decode (take 4 (drop (N.to_nat (4 + 8 + (4 + frame_id_len_of data) + 4 + 4)) data)).

(** The offset just past the last fixed-width field of a raw image, where
    its pixel bytes start. *)
Definition raw_image_end (data : bytes) : N :=
  4 + 8 + (4 + frame_id_len_of data) + 4 + 4 + 4 + encoding_len_of data + 1 + 4 + 4.

(** A raw image that declares 100 pixel bytes and carries 3. *)
Definition overlong_image : bytes :=
  raw_image_payload test_frame_id 1 1 "rgb8" 3 100 [x07; x09; x01].

(** A raw image in an encoding the decoder does not know. *)
Definition yuv_image : bytes :=
  raw_image_payload test_frame_id 1 1 "yuv422" 2 2 [x07; x09].

(** ** More payloads laid out field by field *)

(** An inertial payload: preamble, stamp, frame identifier, orientation and
    its covariance, angular velocity and its covariance, linear
    acceleration, and whatever follows. *)
Definition imu_payload (preamble stamp frame_id orientation orientation_cov : bytes)
    (ang : Vec3) (ang_cov : bytes) (lin : Vec3) (trailer : bytes) : bytes :=
  preamble ++ stamp ++ pack_I (len frame_id) ++ frame_id
    ++ orientation ++ orientation_cov
    ++ (pack_d (v_x ang) ++ pack_d (v_y ang) ++ pack_d (v_z ang))
    ++ ang_cov
    ++ (pack_d (v_x lin) ++ pack_d (v_y lin) ++ pack_d (v_z lin))
    ++ trailer.

Definition vec3_in_range (v : Vec3) : Prop :=
  v_x v < 2 ^ 64 /\ v_y v < 2 ^ 64 /\ v_z v < 2 ^ 64.

(** A compressed image payload: preamble, format tag, compressed blob. *)
Definition compressed_image_payload (preamble format blob : bytes) : bytes :=
  preamble ++ pack_I (len format) ++ format ++ blob.

(** What the compressed decoder returns for the codec's answer on a blob. *)
Definition decoded_of_codec (answer : result (option ndarray)) : option Decoded :=
  match answer with
  | Ok (Some img) =>
      match arr_shape img !! 1%nat, arr_shape img !! 0%nat with
      | Some w, Some h => Some (img, w, h)
      | _, _ => None
      end
  | _ => None
  end.

(** An image codec that decodes every non-empty blob to a 2x3 colour
    raster, and a writer that always succeeds. *)
Definition blob_externals : Externals := {|
  cv2_imdecode := fun blob =>
    match blob with
    | [] => Raise Cv2Error
    | _ => Ok (Some (mkArray [2; 3; 3] (repeat 0 18)))
    end;
  cv2_imwrite := fun _ _ => Ok true;
  format_6f := fun ns => pretty ns
|}.

Definition compressed_type : string := "sensor_msgs/msg/CompressedImage".
Definition jpeg_tag : bytes := [x6a; x70; x65; x67; x00].     (* b'jpeg\0' *)

(** ** The catalog, and what a run may do to the gateway *)

(** The topic names [process_all] goes through, in its order. *)
Definition catalog : list string := camera_topics ++ pose_topics ++ imu_topics.

(** Every table of rows of [g'] starts with the rows of [g]. *)
Definition rows_grow (g g' : Gateway) : Prop :=
  g_topics g `prefix_of` g_topics g' /\
  g_frames g `prefix_of` g_frames g' /\
  g_pose_data g `prefix_of` g_pose_data g' /\
  g_imu_data g `prefix_of` g_imu_data g'.

(** [str(filepath)] for a frame's relative path *)
Definition abs_path (rel : string) : string := upload_dir +:+ "/" +:+ rel.

(** The job table after a series of progress updates for [bag_id]. *)
Definition after_updates (bag_id : Z) (values : list Q) (jobs : Jobs) : Jobs :=
  foldl (fun j v => update_progress bag_id v j) jobs values.

Definition imu_type : string := "sensor_msgs/msg/Imu".
Definition imu_topic_row : TopicRow := mkTopicRow 4 "/camera/camera/imu" imu_type "cdr".
Definition lidar_row : TopicRow := mkTopicRow 5 "/lidar/points" "sensor_msgs/msg/PointCloud2" "cdr".

Definition imu_sample_payload : bytes :=
  imu_payload [x00; x01; x00; x00] (repeat x00 8) test_frame_id
    (repeat x00 32) (repeat x00 72)
    (mkVec3 (bits_of_float 1.0) (bits_of_float 2.0) (bits_of_float 3.0))
    (repeat x00 72)
    (mkVec3 0 0 (bits_of_float 9.5)) (repeat x00 72).

(** A camera, a pose and an inertial topic, and a topic outside the catalog. *)
Definition bag_full : BagStore :=
  mkBagStore [lidar_row; pose_row; imu_topic_row; color_row]
    [ mkMessageRow 4 (second 2) imu_sample_payload;
      mkMessageRow 1 (second 1) good_image;
      mkMessageRow 5 (second 1) cut_payload;
      mkMessageRow 3 (second 1) pose_123_payload;
      mkMessageRow 4 (second 1) cut_payload;
      mkMessageRow 4 (second 3) imu_sample_payload ].

(** ** The store's tables, read row by row *)

(** [topic] is the first row of the topics table whose name is
    [topic_name]. *)
Definition first_topic_named (store : BagStore) (topic_name : string)
    (topic : TopicRow) : Prop :=
  exists before after,
    st_topics store = before ++ topic :: after /\
    Forall (fun t => t_name t <> topic_name) before /\
    t_name topic = topic_name.

(** [messages] holds the rows [rows], each as often, by non-decreasing
    timestamp. *)
Definition in_timestamp_order (rows messages : list MessageRow) : Prop :=
  messages ≡ₚ rows /\
  StronglySorted (fun a b => (m_timestamp a <= m_timestamp b)%Z) messages.

(** The smallest and the largest of a list of timestamps. *)
Definition least (lo : Z) (l : list Z) : Prop :=
  lo ∈ l /\ Forall (fun t => (lo <= t)%Z) l.
Definition greatest (hi : Z) (l : list Z) : Prop :=
  hi ∈ l /\ Forall (fun t => (t <= hi)%Z) l.

(** [needle] occurs in [hay]. *)
Definition has_substring (needle hay : string) : Prop :=
  exists pre post, hay = pre +:+ needle +:+ post.

(** The encoding names the raw image decoder looks for. *)
Definition encoding_names : list string := ["bgr8"; "rgb8"; "mono8"; "16UC1"].

(** A 1x1 raw image whose encoding is none of these names and contains
    one of them. *)
Definition xrgb8_image : bytes :=
  raw_image_payload test_frame_id 1 1 "xrgb8" 3 3 [x07; x09; x01].

(** The image files on disk after the writes of a log: a later write to a
    path replaces the file an earlier one left there. *)
Definition files_on_disk (log : list (string * ndarray)) : gmap string ndarray :=
  foldl (fun disk entry => <[entry.1 := entry.2]> disk) ∅ log.

(** Two camera messages stamped within the same microsecond. *)
Definition bag_same_microsecond : BagStore :=
  mkBagStore [color_row]
    [ mkMessageRow 1 1000000000 good_image;
      mkMessageRow 1 1000000100
        (raw_image_payload test_frame_id 1 1 "mono8" 1 1 [x07]) ].

(** * Properties *)

(** ** The exception monad *)

Lemma bind_Ok {A B : Type} (f : A -> result B) (a : A) : (Ok a ≫= f) = f a.
Proof. reflexivity. Qed.

Ltac step_ok := rewrite bind_Ok; cbv beta.

(** ** Little-endian fields *)

Lemma len_app {A : Type} (l k : list A) : len (l ++ k) = len l + len k.
Proof. unfold len. rewrite length_app. lia. Qed.

Lemma byte_of_N_to_N (n : N) : Byte.to_N (byte_of_N n) = n mod 256.
Proof.
  unfold byte_of_N.
  destruct (Byte.of_N (n mod 256)) as [b|] eqn:E.
  - by apply Byte.to_of_N.
  - apply Byte.of_N_None_iff in E.
    pose proof (N.mod_upper_bound n 256). lia.
Qed.

Lemma length_le_encode (width : nat) (v : N) : length (le_encode width v) = width.
Proof. revert v. induction width as [|k IH]; intros v; simpl; [done | by rewrite IH]. Qed.

Lemma le_decode_encode (width : nat) (v : N) :
  v < 256 ^ N.of_nat width -> le_decode (le_encode width v) = v.
Proof.
  revert v. induction width as [|k IH]; intros v Hv.
  - simpl in *. lia.
  - cbn [le_encode le_decode]. rewrite byte_of_N_to_N, IH.
    + pose proof (N.div_mod v 256). lia.
    + rewrite Nat2N.inj_succ, N.pow_succ_r' in Hv.
      apply N.Div0.div_lt_upper_bound. lia.
Qed.

Lemma le_decode_bound (bs : bytes) : le_decode bs < 256 ^ len bs.
Proof.
  induction bs as [|b r IH].
  - simpl. lia.
  - cbn [le_decode]. unfold len in *. cbn [length].
    rewrite Nat2N.inj_succ, N.pow_succ_r'.
    pose proof (Byte.to_N_bounded b). lia.
Qed.

(** Reading [size] bytes where exactly those bytes were laid out. *)
Lemma unpack_from_app (pre bs post : bytes) (size offset : N) :
  len pre = offset -> len bs = size ->
  unpack_from size (pre ++ bs ++ post) offset = Ok bs.
Proof.
  intros Hpre Hbs. unfold unpack_from.
  rewrite !len_app, Hpre, Hbs.
  destruct (N.leb_spec (offset + size) (offset + (size + len post))) as [_|]; [|lia].
  f_equal. unfold len in *.
  rewrite drop_app_length' by lia.
  by rewrite take_app_length' by lia.
Qed.

Lemma unpack_from_short (size : N) (data : bytes) (offset : N) :
  len data < offset + size -> unpack_from size data offset = Raise StructError.
Proof.
  intros Hlt. unfold unpack_from.
  destruct (N.leb_spec (offset + size) (len data)); [lia | done].
Qed.

Lemma unpack_from_I_app (pre post : bytes) (v offset : N) :
  len pre = offset -> v < 2 ^ 32 ->
  unpack_from_I (pre ++ pack_I v ++ post) offset = Ok v.
Proof.
  intros Hpre Hv. unfold unpack_from_I.
  rewrite (unpack_from_app pre (pack_I v) post 4 offset); [|done|].
  - step_ok. unfold pack_I. by rewrite le_decode_encode.
  - unfold len, pack_I. by rewrite length_le_encode.
Qed.

Lemma chunks8_pack_d (v : float64) (rest : bytes) (k : nat) :
  v < 2 ^ 64 ->
  chunks8 (S k) (pack_d v ++ rest) = v :: chunks8 k rest.
Proof.
  intros Hv. cbn [chunks8]. unfold pack_d.
  rewrite take_app_length', drop_app_length' by (by rewrite length_le_encode).
  f_equal. apply le_decode_encode. exact Hv.
Qed.

(** ** Stamped pose: decoding what was laid out *)

Lemma deserialize_pose_body_payload (preamble stamp frame_id : bytes) (p : Pose) :
  length preamble = 4%nat -> length stamp = 8%nat ->
  len frame_id < 2 ^ 32 -> pose_in_range p ->
  deserialize_pose_body (pose_payload preamble stamp frame_id p) = Ok (Some p).
Proof.
  intros Hpre Hstamp Hfid (Hx & Hy & Hz & Hqx & Hqy & Hqz & Hqw).
  destruct p as [x y z qx qy qz qw]. cbn [pose_x pose_y pose_z pose_qx pose_qy pose_qz pose_qw] in *.
  unfold deserialize_pose_body, pose_payload.
  cbn [pose_x pose_y pose_z pose_qx pose_qy pose_qz pose_qw].
  assert (Hlen12 : len (preamble ++ stamp) = 4 + 8).
  { unfold len. rewrite length_app, Hpre, Hstamp. done. }
  (* the frame-identifier length *)
  rewrite (app_assoc preamble stamp).
  rewrite unpack_from_I_app by done. step_ok.
  (* position *)
  pose (pos := pack_d x ++ pack_d y ++ pack_d z).
  pose (quat := pack_d qx ++ pack_d qy ++ pack_d qz ++ pack_d qw).
  pose (head := (preamble ++ stamp) ++ pack_I (len frame_id) ++ frame_id).
  assert (Hhead : len head = 4 + 8 + (4 + len frame_id)).
  { unfold head, len, pack_I.
    rewrite !length_app, length_le_encode, Hpre, Hstamp. lia. }
  assert (Hpos : len pos = 24).
  { unfold pos, len, pack_d. by rewrite !length_app, !length_le_encode. }
  assert (Hquat : len quat = 32).
  { unfold quat, len, pack_d. by rewrite !length_app, !length_le_encode. }
  replace ((preamble ++ stamp) ++ pack_I (len frame_id) ++ frame_id
             ++ pack_d x ++ pack_d y ++ pack_d z
             ++ pack_d qx ++ pack_d qy ++ pack_d qz ++ pack_d qw)
    with (head ++ pos ++ quat)
    by (unfold head, pos, quat; by rewrite <- !app_assoc).
  unfold unpack_from_ddd.
  assert (Hc3 : chunks8 3 pos = [x; y; z]).
  { unfold pos. rewrite chunks8_pack_d, chunks8_pack_d by done.
    by rewrite <- (app_nil_r (pack_d z)), chunks8_pack_d. }
  assert (Hc4 : chunks8 4 quat = [qx; qy; qz; qw]).
  { unfold quat. rewrite chunks8_pack_d, chunks8_pack_d, chunks8_pack_d by done.
    by rewrite <- (app_nil_r (pack_d qw)), chunks8_pack_d. }
  rewrite (unpack_from_app head pos quat 24) by done. step_ok.
  rewrite Hc3. step_ok.
  (* orientation *)
  unfold unpack_from_dddd.
  replace (head ++ pos ++ quat) with ((head ++ pos) ++ quat ++ [])
    by (by rewrite app_nil_r, <- app_assoc).
  rewrite (unpack_from_app (head ++ pos) quat [] 32);
    [| rewrite len_app, Hhead, Hpos; lia | done].
  step_ok. by rewrite Hc4.
Qed.

(** C7. A pose payload laid out as a 4-byte preamble, an 8-byte timestamp,
    a length-prefixed frame identifier and seven little-endian 8-byte
    floating-point values decodes to exactly those seven bit patterns; the
    payload built for position (1.0, 2.0, 3.0) and quaternion
    (0.0, 0.0, 0.0, 1.0) decodes to these floats. *)
Theorem pose_decode_roundtrip :
  (forall (preamble stamp frame_id : bytes) (p : Pose),
     length preamble = 4%nat -> length stamp = 8%nat ->
     len frame_id < 2 ^ 32 -> pose_in_range p ->
     deserialize_pose_message (pose_payload preamble stamp frame_id p) = Some p)
  /\ pose_floats <$> deserialize_pose_message pose_123_payload
     = Some [1.0; 2.0; 3.0; 0.0; 0.0; 0.0; 1.0]%float.
Proof.
  split.
  - intros preamble stamp frame_id p Hpre Hstamp Hfid Hp.
    unfold deserialize_pose_message.
    by rewrite deserialize_pose_body_payload.
  - vm_compute. reflexivity.
Qed.

Lemma pose_decode_roundtrip_witness :
  deserialize_pose_message
    (pose_payload [x00; x01; x00; x00] (repeat x00 8) test_frame_id pose_123)
  = Some pose_123.
Proof.
  apply (proj1 pose_decode_roundtrip).
  - reflexivity.
  - reflexivity.
  - vm_compute. reflexivity.
  - vm_compute. repeat split.
Defined.

(** ** Truncated payloads *)

Lemma unpack_from_I_drop (data : bytes) (offset : N) :
  offset + 4 <= len data ->
  unpack_from_I data offset = Ok (le_decode (take 4 (drop (N.to_nat offset) data))).
Proof.
  intros Hle. unfold unpack_from_I, unpack_from.
  by destruct (N.leb_spec (offset + 4) (len data)); [|lia].
Qed.

Lemma unpack_from_ddd_ok (data : bytes) (offset : N) :
  offset + 24 <= len data -> exists v, unpack_from_ddd data offset = Ok v.
Proof.
  intros Hle. unfold unpack_from_ddd, unpack_from.
  destruct (N.leb_spec (offset + 24) (len data)); [|lia].
  step_ok. cbn [chunks8]. eauto.
Qed.

Lemma unpack_from_ddd_short (data : bytes) (offset : N) :
  len data < offset + 24 -> unpack_from_ddd data offset = Raise StructError.
Proof. intros Hlt. unfold unpack_from_ddd. by rewrite unpack_from_short. Qed.

Lemma unpack_from_dddd_ok (data : bytes) (offset : N) :
  offset + 32 <= len data -> exists v, unpack_from_dddd data offset = Ok v.
Proof.
  intros Hle. unfold unpack_from_dddd, unpack_from.
  destruct (N.leb_spec (offset + 32) (len data)); [|lia].
  step_ok. cbn [chunks8]. eauto.
Qed.

Lemma unpack_from_dddd_short (data : bytes) (offset : N) :
  len data < offset + 32 -> unpack_from_dddd data offset = Raise StructError.
Proof. intros Hlt. unfold unpack_from_dddd. by rewrite unpack_from_short. Qed.

Lemma unpack_from_I_short (data : bytes) (offset : N) :
  len data < offset + 4 -> unpack_from_I data offset = Raise StructError.
Proof. intros Hlt. unfold unpack_from_I. by rewrite unpack_from_short. Qed.

Lemma pose_none_iff (data : bytes) :
  deserialize_pose_message data = None <-> len data < pose_end data.
Proof.
  unfold deserialize_pose_message, deserialize_pose_body, pose_end, frame_id_len_of.
  destruct (N.lt_ge_cases (len data) (4 + 8 + 4)) as [Hshort|Hhdr].
  { rewrite unpack_from_I_short by lia. split; [intros _; lia | done]. }
  rewrite unpack_from_I_drop by lia. step_ok.
  change (N.to_nat (4 + 8)) with 12%nat.
  set (n := le_decode (take 4 (drop 12 data))).
  destruct (N.lt_ge_cases (len data) (4 + 8 + (4 + n) + 24)) as [Hs1|Hpos].
  { rewrite unpack_from_ddd_short by lia. split; [intros _; lia | done]. }
  destruct (unpack_from_ddd_ok data (4 + 8 + (4 + n))) as [[[x y] z] ->]; [lia|].
  step_ok.
  destruct (N.lt_ge_cases (len data) (4 + 8 + (4 + n) + 24 + 32)) as [Hs2|Hquat].
  { rewrite unpack_from_dddd_short by lia. split; [intros _; lia | done]. }
  destruct (unpack_from_dddd_ok data (4 + 8 + (4 + n) + 24)) as [[[[qx qy] qz] qw] ->];
    [lia|].
  step_ok. cbn. split; [done | lia].
Qed.

Lemma imu_none_iff (data : bytes) :
  deserialize_imu_message data = None <-> len data < imu_end data.
Proof.
  unfold deserialize_imu_message, deserialize_imu_body, imu_end, frame_id_len_of.
  destruct (N.lt_ge_cases (len data) (4 + 8 + 4)) as [Hshort|Hhdr].
  { rewrite unpack_from_I_short by lia. split; [intros _; lia | done]. }
  rewrite unpack_from_I_drop by lia. step_ok.
  change (N.to_nat (4 + 8)) with 12%nat.
  set (n := le_decode (take 4 (drop 12 data))).
  destruct (N.lt_ge_cases (len data) (4 + 8 + (4 + n) + 32 + 72 + 24)) as [Hs1|Hang].
  { rewrite (unpack_from_ddd_short data (4 + 8 + (4 + n) + 32 + 72)) by lia.
    split; [intros _; lia | done]. }
  destruct (unpack_from_ddd_ok data (4 + 8 + (4 + n) + 32 + 72)) as [[[x y] z] ->]; [lia|].
  step_ok.
  destruct (N.lt_ge_cases (len data) (4 + 8 + (4 + n) + 32 + 72 + 24 + 72 + 24))
    as [Hs2|Hlin].
  { rewrite (unpack_from_ddd_short data (4 + 8 + (4 + n) + 32 + 72 + 24 + 72)) by lia.
    split; [intros _; lia | done]. }
  destruct (unpack_from_ddd_ok data (4 + 8 + (4 + n) + 32 + 72 + 24 + 72))
    as [[[lx ly] lz] ->]; [lia|].
  step_ok. cbn. split; [done | lia].
Qed.

Lemma unpack_from_I_inv (data : bytes) (offset v : N) :
  unpack_from_I data offset = Ok v ->
  offset + 4 <= len data /\ v = le_decode (take 4 (drop (N.to_nat offset) data)).
Proof.
  unfold unpack_from_I, unpack_from.
  destruct (N.leb_spec (offset + 4) (len data)); [|done].
  step_ok. by intros [= <-].
Qed.

Lemma unpack_from_B_inv (data : bytes) (offset v : N) :
  unpack_from_B data offset = Ok v -> offset + 1 <= len data.
Proof.
  unfold unpack_from_B, unpack_from.
  by destruct (N.leb_spec (offset + 1) (len data)).
Qed.

(** A raw image header that was read: every fixed-width field lay inside
    the buffer, and the pixel bytes start right after the last one. *)
Lemma parse_raw_image_header_end (data : bytes) (h : RawImageHeader) :
  parse_raw_image_header data = Ok h ->
  raw_image_end data <= len data /\ rh_data_offset h = raw_image_end data.
Proof.
  unfold parse_raw_image_header, raw_image_end, encoding_len_of, frame_id_len_of.
  destruct (unpack_from_I data (4 + 8)) as [fid|] eqn:Hfid; [|done].
  apply unpack_from_I_inv in Hfid as [_ Hfid].
  change (N.to_nat (4 + 8)) with 12%nat in Hfid. rewrite <- Hfid. step_ok.
  destruct (unpack_from_I data (4 + 8 + (4 + fid))) as [height|]; [|done]. step_ok.
  destruct (unpack_from_I data (4 + 8 + (4 + fid) + 4)) as [width|]; [|done]. step_ok.
  destruct (unpack_from_I data (4 + 8 + (4 + fid) + 4 + 4)) as [enc|] eqn:Henc; [|done].
  apply unpack_from_I_inv in Henc as [_ Henc]. rewrite <- Henc. step_ok.
  destruct (decode_utf8 _) as [encoding|]; [|done]. step_ok.
  destruct (unpack_from_B data _) as [big|] eqn:Hbig; [|done]. step_ok.
  destruct (unpack_from_I data (4 + 8 + (4 + fid) + 4 + 4 + 4 + enc + 1))
    as [step|]; [|done]. step_ok.
  destruct (unpack_from_I data (4 + 8 + (4 + fid) + 4 + 4 + 4 + enc + 1 + 4))
    as [data_len|] eqn:Hlen; [|done].
  apply unpack_from_I_inv in Hlen as [Hle _]. step_ok.
  intros [= <-]. cbn [rh_data_offset]. split; [lia | done].
Qed.

Lemma raw_image_none_short `{Externals} (data : bytes) (message_type : string) :
  contains "CompressedImage" message_type = false ->
  len data < raw_image_end data ->
  deserialize_image_message data message_type = None.
Proof.
  intros Hraw Hshort. unfold deserialize_image_message. rewrite Hraw.
  unfold deserialize_raw_image_body.
  destruct (parse_raw_image_header data) as [h|e] eqn:Hparse; [|done].
  apply parse_raw_image_header_end in Hparse as [Hle _]. lia.
Qed.

Lemma image_none_short `{Externals} (data : bytes) (message_type : string) :
  len data < 8 -> deserialize_image_message data message_type = None.
Proof.
  intros Hshort. unfold deserialize_image_message.
  destruct (contains "CompressedImage" message_type).
  - unfold deserialize_compressed_image_body.
    by rewrite unpack_from_I_short by lia.
  - unfold deserialize_raw_image_body, parse_raw_image_header.
    by rewrite unpack_from_I_short by lia.
Qed.

(** A message that does not decode leaves the camera loop's variables and
    the world as they were: the loop goes on with the next message. *)
Lemma camera_loop_skip `{Externals} (bag_id : Z) (topic_name message_type : string)
    (cb : option Callback) (total idx : nat) (row : MessageRow)
    (rest : list MessageRow) (frames : list FrameData) (cover : option string) :
  deserialize_image_message (m_data row) message_type = None ->
  camera_loop bag_id topic_name message_type cb total idx (row :: rest) frames cover
  = camera_loop bag_id topic_name message_type cb total (S idx) rest frames cover.
Proof. intros Hnone. cbn [camera_loop]. by rewrite Hnone. Qed.

Lemma pose_rows_skip (bag_id : Z) (row : MessageRow) (rest : list MessageRow) :
  deserialize_pose_message (m_data row) = None ->
  pose_rows bag_id (row :: rest) = pose_rows bag_id rest.
Proof. intros Hnone. unfold pose_rows. cbn [omap list_omap]. by rewrite Hnone. Qed.

Lemma imu_rows_skip (bag_id : Z) (row : MessageRow) (rest : list MessageRow) :
  deserialize_imu_message (m_data row) = None ->
  imu_rows bag_id (row :: rest) = imu_rows bag_id rest.
Proof. intros Hnone. unfold imu_rows. cbn [omap list_omap]. by rewrite Hnone. Qed.

(** C6, as the code has it. A payload shorter than 8 bytes makes every
    decoder return the failure value [None]; so does a raw image one of
    whose fixed-width fields would pass the end of the buffer; the pose and
    the inertial decoder return [None] exactly when one of their reads would
    pass the end of the buffer; a message whose decoder returned [None] is
    skipped by its topic's loop, which goes on with the next message. *)
Theorem short_payload_fails `{Externals} (data : bytes) (message_type : string) :
  (len data < 8 ->
     deserialize_image_message data message_type = None /\
     deserialize_pose_message data = None /\
     deserialize_imu_message data = None)
  /\ (contains "CompressedImage" message_type = false ->
      len data < raw_image_end data ->
      deserialize_image_message data message_type = None)
  /\ (deserialize_pose_message data = None <-> len data < pose_end data)
  /\ (deserialize_imu_message data = None <-> len data < imu_end data)
  /\ (forall bag_id topic_name cb total idx row rest frames cover,
        m_data row = data ->
        deserialize_image_message data message_type = None ->
        camera_loop bag_id topic_name message_type cb total idx (row :: rest) frames cover
        = camera_loop bag_id topic_name message_type cb total (S idx) rest frames cover)
  /\ (forall bag_id row rest,
        m_data row = data ->
        (deserialize_pose_message data = None ->
           pose_rows bag_id (row :: rest) = pose_rows bag_id rest) /\
        (deserialize_imu_message data = None ->
           imu_rows bag_id (row :: rest) = imu_rows bag_id rest)).
Proof.
  split; [|split; [|split; [|split; [|split]]]].
  - intros Hshort. split; [by apply image_none_short|]. split.
    + apply pose_none_iff. unfold pose_end. lia.
    + apply imu_none_iff. unfold imu_end. lia.
  - apply raw_image_none_short.
  - apply pose_none_iff.
  - apply imu_none_iff.
  - intros bag_id topic_name cb total idx row rest frames cover <- Hnone.
    by apply camera_loop_skip.
  - intros bag_id row rest <-. split.
    + apply pose_rows_skip.
    + apply imu_rows_skip.
Qed.

Lemma short_payload_fails_witness :
  deserialize_image_message (H:=test_externals) cut_payload image_type = None /\
  deserialize_pose_message cut_payload = None /\
  deserialize_imu_message cut_payload = None.
Proof.
  apply (proj1 (short_payload_fails (H:=test_externals) cut_payload image_type)).
  vm_compute. reflexivity.
Defined.

(** C6, as stated, fails for raw images: the pixel bytes are taken with a
    slice, which is clamped to the buffer. This payload declares more pixel
    bytes than it carries, and decodes. *)
Lemma overlong_pixel_length_decodes :
  (exists h, parse_raw_image_header overlong_image = Ok h /\
             len overlong_image < rh_data_offset h + rh_data_len h)
  /\ deserialize_image_message (H:=test_externals) overlong_image image_type
     = Some (mkArray [1; 1; 3] [7; 9; 1], 1, 1).
Proof.
  split.
  - eexists. split; [vm_compute; reflexivity|]. vm_compute. reflexivity.
  - vm_compute. reflexivity.
Qed.

(** ** Unsupported encodings *)

Lemma prefix_has (needle hay : string) :
  String.prefix needle hay = true -> exists post, hay = needle +:+ post.
Proof.
  revert hay. induction needle as [|c n IH]; intros hay Hp.
  - by exists hay.
  - destruct hay as [|d h]; [done|]. cbn [String.prefix] in Hp.
    destruct (Ascii.ascii_dec c d) as [->|]; [|done].
    destruct (IH h Hp) as [post ->]. by exists post.
Qed.

Lemma prefix_app (needle post : string) :
  String.prefix needle (needle +:+ post) = true.
Proof.
  induction needle as [|c n IH]; [by destruct post|].
  change (String c n +:+ post) with (String c (n +:+ post)).
  cbn [String.prefix]. destruct (Ascii.ascii_dec c c); [exact IH | done].
Qed.

Lemma contains_unfold (needle hay : string) :
  contains needle hay
  = String.prefix needle hay ||
    match hay with
    | EmptyString => false
    | String _ t => contains needle t
    end.
Proof. by destruct hay. Qed.

(** [needle in hay] holds exactly when [needle] occurs in [hay]. *)
Lemma contains_has_substring (needle hay : string) :
  contains needle hay = true <-> has_substring needle hay.
Proof.
  split.
  - induction hay as [|c h IH]; rewrite contains_unfold; intros Hc.
    + rewrite orb_false_r in Hc. apply prefix_has in Hc as [post Heq].
      by exists EmptyString, post.
    + apply orb_true_iff in Hc as [Hp|Hc].
      * apply prefix_has in Hp as [post Heq]. by exists EmptyString, post.
      * destruct (IH Hc) as (pre & post & Heq). exists (String c pre), post.
        change (String c pre +:+ needle +:+ post)
          with (String c (pre +:+ needle +:+ post)).
        by rewrite <- Heq.
  - intros (pre & post & ->). induction pre as [|c pre IH].
    + rewrite contains_unfold.
      change (EmptyString +:+ needle +:+ post) with (needle +:+ post).
      by rewrite prefix_app.
    + change (String c pre +:+ needle +:+ post)
        with (String c (pre +:+ needle +:+ post)).
      cbn [contains]. rewrite IH. apply orb_true_r.
Qed.

Lemma contains_false (needle hay : string) :
  ~ has_substring needle hay -> contains needle hay = false.
Proof.
  intros Hno. destruct (contains needle hay) eqn:Hc; [|done].
  by apply contains_has_substring in Hc.
Qed.

(** C9, as the code has it. A raw image whose encoding string contains none
    of the names [bgr8], [rgb8], [mono8] and [16UC1] makes the decoder
    return [None], never an exception; the camera loop skips the message
    and goes on with the next one. *)
Theorem unsupported_encoding_skipped `{Externals} (data : bytes) (message_type : string) :
  ~ has_substring "CompressedImage" message_type ->
  (forall h, parse_raw_image_header data = Ok h ->
             Forall (fun name => ~ has_substring name (rh_encoding h)) encoding_names) ->
  deserialize_image_message data message_type = None
  /\ forall bag_id topic_name cb total idx row rest frames cover,
       m_data row = data ->
       camera_loop bag_id topic_name message_type cb total idx (row :: rest) frames cover
       = camera_loop bag_id topic_name message_type cb total (S idx) rest frames cover.
Proof.
  intros Hraw Hnames.
  assert (Hnone : deserialize_image_message data message_type = None).
  { unfold deserialize_image_message. rewrite (contains_false _ _ Hraw).
    unfold deserialize_raw_image_body.
    destruct (parse_raw_image_header data) as [h|e] eqn:Hparse; [|done].
    step_ok. specialize (Hnames h eq_refl). unfold encoding_names in Hnames.
    inversion Hnames as [|? ? Hbgr Hnames1]; subst.
    inversion Hnames1 as [|? ? Hrgb Hnames2]; subst.
    inversion Hnames2 as [|? ? Hmono Hnames3]; subst.
    inversion Hnames3 as [|? ? Hdepth _]; subst.
    unfold classify_encoding.
    by rewrite (contains_false _ _ Hbgr), (contains_false _ _ Hrgb),
      (contains_false _ _ Hmono), (contains_false _ _ Hdepth). }
  split; [done|].
  intros bag_id topic_name cb total idx row rest frames cover <-.
  by apply camera_loop_skip.
Qed.

Lemma unsupported_encoding_skipped_witness :
  deserialize_image_message (H:=test_externals) yuv_image image_type = None.
Proof.
  apply (unsupported_encoding_skipped (H:=test_externals) yuv_image image_type).
  - intros Hsub. apply contains_has_substring in Hsub. by vm_compute in Hsub.
  - intros h Hparse. vm_compute in Hparse. injection Hparse as <-.
    cbn [rh_encoding]. unfold encoding_names.
    repeat constructor; intros Hsub; apply contains_has_substring in Hsub;
      by vm_compute in Hsub.
Defined.

(** C9, as stated, fails: [xrgb8] is none of the supported encodings, and a
    raw image in it decodes, as a 3-channel raster. *)
Lemma xrgb8_image_decodes :
  ~ In "xrgb8" encoding_names /\
  match parse_raw_image_header xrgb8_image with
  | Ok h => rh_encoding h = "xrgb8"
  | Raise _ => False
  end /\
  deserialize_image_message (H:=test_externals) xrgb8_image image_type
  = Some (mkArray [1; 1; 3] [7; 9; 1], 1, 1).
Proof.
  split; [|vm_compute; by split].
  cbn. intros [Heq|[Heq|[Heq|[Heq|[]]]]]; discriminate.
Qed.

(** ** The state-and-exception monad *)

Lemma M_bind_inv {A B : Type} (m : M A) (f : A -> M B) (w w' : World) (r : result B) :
  (m ≫= f) w = (r, w') ->
  (exists a w1, m w = (Ok a, w1) /\ f a w1 = (r, w')) \/
  (exists e, m w = (Raise e, w') /\ r = Raise e).
Proof.
  unfold mbind, M_bind. destruct (m w) as [[a|e] w1]; intros Heq.
  - left. eauto.
  - right. inversion Heq; subst. eauto.
Qed.

Lemma keeps_gateway_refl (w : World) : keeps_gateway w w.
Proof. by split. Qed.

Lemma keeps_gateway_trans (w1 w2 w3 : World) :
  keeps_gateway w1 w2 -> keeps_gateway w2 w3 -> keeps_gateway w1 w3.
Proof. intros [? ?] [? ?]. split; congruence. Qed.

#[local] Hint Resolve keeps_gateway_refl : core.

Lemma report_inv (cb : option Callback) (site : report_site) (v : Q)
    (w w' : World) (r : result unit) :
  report cb site v w = (r, w') ->
  r = Ok tt /\ keeps_gateway w w' /\
  w_reports w' = w_reports w ++ match cb with
                                 | Some _ => [(site, v)]
                                 | None => []
                                 end.
Proof.
  unfold report. destruct cb as [f|]; intros Heq; inversion Heq; subst; cbn.
  - done.
  - by rewrite app_nil_r.
Qed.

Lemma truediv_unit (a b : Z) :
  (0 <= a < b)%Z ->
  (0 <= truediv (inject_Z a) (inject_Z b))%Q /\
  (truediv (inject_Z a) (inject_Z b) < 1)%Q.
Proof.
  intros [Ha Hab]. unfold truediv. rewrite Qred_correct.
  assert (Hb : (0 < inject_Z b)%Q).
  { change 0%Q with (inject_Z 0). rewrite <- Zlt_Qlt. lia. }
  split.
  - apply Qle_shift_div_l; [done|]. rewrite Qmult_0_l.
    change 0%Q with (inject_Z 0). by rewrite <- Zle_Qle.
  - apply Qlt_shift_div_r; [done|]. rewrite Qmult_1_l.
    rewrite <- Zlt_Qlt. lia.
Qed.

Lemma report_sub_progress_inv (cb : option Callback) (idx total : nat)
    (w w' : World) (r : result unit) :
  report_sub_progress cb idx total w = (r, w') ->
  keeps_gateway w w' /\
  exists new, w_reports w' = w_reports w ++ new /\
    Forall (fun p => p.1 = SubProgress /\
                     ((idx < total)%nat -> (0 <= p.2)%Q /\ (p.2 < 1)%Q)) new.
Proof.
  unfold report_sub_progress.
  destruct (bool_decide (is_Some cb) && (idx mod 10 =? 0)%nat).
  - unfold mbind, M_bind, lift.
    destruct (int_truediv (Z.of_nat idx) (Z.of_nat total)) as [v|e] eqn:Hdiv.
    + intros Hrep. apply report_inv in Hrep as (_ & Hkeep & Hreports).
      split; [done|]. eexists. split; [exact Hreports|].
      destruct cb; [|constructor].
      constructor; [|constructor]. split; [done|]. intros Hlt. cbn.
      unfold int_truediv in Hdiv.
      destruct (Z.of_nat total =? 0)%Z; [done|]. inversion Hdiv; subst v.
      apply truediv_unit. lia.
    + intros Heq. inversion Heq; subst.
      split; [done|]. exists []. by rewrite app_nil_r.
  - intros Heq. inversion Heq; subst.
    split; [done|]. exists []. by rewrite app_nil_r.
Qed.

Section Pipeline.
Context `{Externals}.

Lemma imwrite_inv (filepath : string) (img : ndarray) (w w' : World) (r : result unit) :
  imwrite filepath img w = (r, w') ->
  keeps_gateway w w' /\ w_reports w' = w_reports w.
Proof.
  unfold imwrite. destruct (cv2_imwrite filepath img) as [[|]|e];
    intros Heq; inversion Heq; subst; done.
Qed.

(** The camera loop never touches the gateway; when it ends normally its
    variables hold the frames of the messages that decode and the cover of
    the message at raw index 0. *)
Lemma camera_loop_inv (bag_id : Z) (topic_name message_type : string)
    (cb : option Callback) (total : nat) (messages : list MessageRow) :
  forall (idx : nat) (frames : list FrameData) (cover : option string)
         (w w' : World) (r : result (list FrameData * option string)),
    camera_loop bag_id topic_name message_type cb total idx messages frames cover w
      = (r, w') ->
    keeps_gateway w w' /\
    match r with
    | Ok (frames', cover') =>
        frames' = frames ++ frames_from bag_id topic_name message_type idx messages /\
        cover' = cover_from bag_id topic_name message_type idx messages cover
    | Raise _ => True
    end.
Proof.
  induction messages as [|row rest IH]; intros idx frames cover w w' r Hrun.
  - cbn in Hrun. inversion Hrun; subst. split; [done|].
    cbn. rewrite app_nil_r. by destruct idx.
  - cbn [camera_loop] in Hrun. cbn [frames_from].
    assert (Hcover : forall c, cover_from bag_id topic_name message_type (S idx) rest c = c)
      by done.
    destruct (deserialize_image_message (m_data row) message_type)
      as [[[img width] height]|] eqn:Hdec.
    + apply M_bind_inv in Hrun as [([] & w1 & Hwrite & Hrun)|(e & Hwrite & ->)].
      2:{ apply imwrite_inv in Hwrite as [Hkeep _]. done. }
      apply imwrite_inv in Hwrite as [Hkeep1 _].
      apply M_bind_inv in Hrun as [([] & w2 & Hrep & Hrun)|(e & Hrep & ->)].
      2:{ apply report_sub_progress_inv in Hrep as [Hkeep2 _].
          split; [|done]. by eapply keeps_gateway_trans. }
      apply report_sub_progress_inv in Hrep as [Hkeep2 _].
      apply IH in Hrun as [Hkeep3 Hres].
      split; [eauto using keeps_gateway_trans|].
      destruct r as [[frames' cover']|]; [|done].
      destruct Hres as [-> ->]. rewrite Hcover. split.
      * by rewrite <- app_assoc.
      * unfold cover_from. rewrite Hdec. by destruct idx.
    + apply IH in Hrun as [Hkeep Hres]. split; [done|].
      destruct r as [[frames' cover']|]; [|done].
      destruct Hres as [-> ->]. rewrite Hcover. split; [done|].
      unfold cover_from. rewrite Hdec. by destruct idx.
Qed.

Lemma map_sequence_number_set_topic_id (tid : Z) (frames : list FrameData) :
  map fd_sequence_number (map (set_topic_id tid) frames) = map fd_sequence_number frames.
Proof. rewrite map_map. by apply map_ext. Qed.

Lemma frames_from_sequence_numbers (bag_id : Z) (topic_name message_type : string)
    (messages : list MessageRow) (idx : nat) :
  map fd_sequence_number (frames_from bag_id topic_name message_type idx messages)
  = decoded_indices message_type idx messages.
Proof.
  revert idx. induction messages as [|row rest IH]; intros idx; [done|].
  cbn [frames_from decoded_indices].
  destruct (deserialize_image_message (m_data row) message_type) as [[[img wd] ht]|].
  - cbn. by rewrite IH.
  - apply IH.
Qed.

Lemma decoded_indices_ge (message_type : string) (messages : list MessageRow) (idx : nat) :
  Forall (fun i => (idx <= i)%nat) (decoded_indices message_type idx messages).
Proof.
  revert idx. induction messages as [|row rest IH]; intros idx; [constructor|].
  cbn [decoded_indices].
  assert (Htail : Forall (fun i => (idx <= i)%nat)
                         (decoded_indices message_type (S idx) rest)).
  { eapply Forall_impl; [apply IH|]. cbn. lia. }
  destruct (deserialize_image_message (m_data row) message_type); [|done].
  by constructor.
Qed.

Lemma decoded_indices_increasing (message_type : string) (messages : list MessageRow)
    (idx : nat) :
  StronglySorted lt (decoded_indices message_type idx messages).
Proof.
  revert idx. induction messages as [|row rest IH]; intros idx; [constructor|].
  cbn [decoded_indices].
  destruct (deserialize_image_message (m_data row) message_type); [|apply IH].
  constructor; [apply IH|].
  eapply Forall_impl; [apply decoded_indices_ge|]. cbn. lia.
Qed.

Lemma decoded_indices_all (message_type : string) (messages : list MessageRow) (idx : nat) :
  Forall (fun row => is_Some (deserialize_image_message (m_data row) message_type))
         messages ->
  decoded_indices message_type idx messages = seq idx (length messages).
Proof.
  revert idx. induction messages as [|row rest IH]; intros idx Hall; [done|].
  apply Forall_cons in Hall as [[d Hd] Hall].
  cbn [decoded_indices length seq]. rewrite Hd. by rewrite IH.
Qed.

Lemma get_topic_info_inv (store : BagStore) (topic_name : string) (ti : TopicInfo) :
  get_topic_info store topic_name = Ok (Some ti) ->
  exists topic,
    find (fun t => String.eqb (t_name t) topic_name) (st_topics store) = Some topic /\
    ti_topic_id ti = t_id topic /\ ti_type ti = t_type topic /\
    ti_message_count ti = length (rows_of_topic store (t_id topic)).
Proof.
  unfold get_topic_info.
  destruct (find _ (st_topics store)) as [topic|]; [|done].
  destruct (sub_optional _ _) as [delta|e]; [|done].
  step_ok. intros Heq. inversion Heq; subst. cbn. eauto.
Qed.

Lemma length_fetch_messages (store : BagStore) (topic_id : Z) :
  length (fetch_messages store topic_id) = length (rows_of_topic store topic_id).
Proof.
  unfold fetch_messages. apply Permutation_length, merge_sort_Permutation.
Qed.

(** The three ways [process_camera_topic] can end. *)
Lemma process_camera_topic_inv (store : BagStore) (bag_id : Z) (topic_name : string)
    (cb : option Callback) (w : World) :
  match process_camera_topic store bag_id topic_name cb w with
  | (Raise _, w') => keeps_gateway w w'
  | (Ok None, w') => w' = w
  | (Ok (Some tid), w') =>
      exists ti,
        get_topic_info store topic_name = Ok (Some ti) /\
        tid = g_next_topic_id (w_gateway w) /\
        let messages := fetch_messages store (ti_topic_id ti) in
        let frames := frames_from bag_id topic_name (ti_type ti) 0 messages in
        let cover := cover_from bag_id topic_name (ti_type ti) 0 messages None in
        w_gateway w' =
          bulk_insert_frames (map (set_topic_id tid) frames)
            (create_topic bag_id topic_name (ti_type ti) (ti_message_count ti)
               (ti_frequency ti) cover (w_gateway w)).2
  end.
Proof.
  destruct (process_camera_topic store bag_id topic_name cb w) as [r w'] eqn:Hrun.
  unfold process_camera_topic in Hrun.
  apply M_bind_inv in Hrun as [(oti & w1 & Hinfo & Hrun)|(e & Hinfo & ->)].
  2:{ unfold lift in Hinfo. inversion Hinfo; subst. done. }
  unfold lift in Hinfo. inversion Hinfo; subst w1. clear Hinfo.
  destruct oti as [ti|]; [|by inversion Hrun; subst].
  apply M_bind_inv in Hrun as [([frames cover] & w1 & Hloop & Hrun)|(e & Hloop & ->)].
  2:{ by apply camera_loop_inv in Hloop as [Hkeep _]. }
  apply camera_loop_inv in Hloop as [[Hgw _] [-> ->]].
  cbn in Hrun. inversion Hrun; subst. cbn.
  exists ti. rewrite Hgw. done.
Qed.

Lemma g_frames_bulk_insert (frames : list FrameData) (g : Gateway) :
  g_frames (bulk_insert_frames frames g) = g_frames g ++ frames.
Proof. destruct frames; cbn; [by rewrite app_nil_r | done]. Qed.

Lemma g_topics_bulk_insert_frames (frames : list FrameData) (g : Gateway) :
  g_topics (bulk_insert_frames frames g) = g_topics g.
Proof. by destruct frames. Qed.

Lemma g_topics_bulk_insert_pose (rows : list PoseRow) (g : Gateway) :
  g_topics (bulk_insert_pose_data rows g) = g_topics g.
Proof. by destruct rows. Qed.

Lemma g_topics_bulk_insert_imu (rows : list ImuRow) (g : Gateway) :
  g_topics (bulk_insert_imu_data rows g) = g_topics g.
Proof. by destruct rows. Qed.

(** ** Sequence numbers *)

(** C1, as the code has it. The sequence number of an emitted frame is the
    0-based index of its message among the stored messages of the topic, in
    timestamp order: the emitted numbers are the raw indices of the messages
    that decode. They are strictly increasing, and they are 0,1,...,n-1 when
    all n messages decode. For five messages of which the one at index 3
    does not decode they are 0,1,2,4. *)
Theorem sequence_numbers_are_raw_indices (store : BagStore) (bag_id : Z)
    (topic_name : string) (cb : option Callback) (w w' : World) (tid : Z) :
  (process_camera_topic store bag_id topic_name cb w = (Ok (Some tid), w') ->
   exists ti new,
     get_topic_info store topic_name = Ok (Some ti) /\
     g_frames (w_gateway w') = g_frames (w_gateway w) ++ new /\
     let messages := fetch_messages store (ti_topic_id ti) in
     map fd_sequence_number new = decoded_indices (ti_type ti) 0 messages /\
     StronglySorted lt (map fd_sequence_number new) /\
     (Forall (fun row => is_Some (deserialize_image_message (m_data row) (ti_type ti)))
             messages ->
      map fd_sequence_number new = seq 0 (length messages)))
  /\ map fd_sequence_number
       (g_frames (w_gateway
          (process_camera_topic (H:=test_externals) bag_five 7 color_topic None
             (fresh_world 7)).2))
     = [0; 1; 2; 4]%nat.
Proof.
  split; [|vm_compute; reflexivity].
  intros Hrun.
  pose proof (process_camera_topic_inv store bag_id topic_name cb w) as Hinv.
  rewrite Hrun in Hinv. destruct Hinv as (ti & Hinfo & _ & Hgw).
  exists ti. eexists. split; [done|]. split.
  { rewrite Hgw, g_frames_bulk_insert. done. }
  cbn zeta.
  rewrite map_sequence_number_set_topic_id, frames_from_sequence_numbers.
  split; [done|]. split.
  - apply decoded_indices_increasing.
  - apply decoded_indices_all.
Qed.

End Pipeline.

Lemma sequence_numbers_are_raw_indices_witness :
  exists ti new,
    get_topic_info bag_five color_topic = Ok (Some ti) /\
    g_frames (w_gateway
      (process_camera_topic (H:=test_externals) bag_five 7 color_topic None
         (fresh_world 7)).2) = [] ++ new /\
    let messages := fetch_messages bag_five (ti_topic_id ti) in
    map fd_sequence_number new
      = decoded_indices (H:=test_externals) (ti_type ti) 0 messages /\
    StronglySorted lt (map fd_sequence_number new) /\
    (Forall (fun row => is_Some (deserialize_image_message (H:=test_externals)
                                   (m_data row) (ti_type ti))) messages ->
     map fd_sequence_number new = seq 0 (length messages)).
Proof.
  apply (proj1 (sequence_numbers_are_raw_indices (H:=test_externals) bag_five 7
                  color_topic None (fresh_world 7) _ 1%Z)).
  vm_compute. reflexivity.
Defined.

(** C1, as stated, fails: five messages, the one at index 3 does not decode,
    and the four emitted sequence numbers are 0,1,2,4. *)
Lemma five_messages_one_cut_sequence_numbers :
  let frames :=
    g_frames (w_gateway
      (process_camera_topic (H:=test_externals) bag_five 7 color_topic None
         (fresh_world 7)).2) in
  length frames = 4%nat /\
  map fd_sequence_number frames = [0; 1; 2; 4]%nat /\
  map fd_sequence_number frames <> seq 0 (length frames).
Proof.
  vm_compute. split; [reflexivity|]. split; [reflexivity|]. discriminate.
Qed.

(** ** Cover image *)

(** C3 at a topic whose first message does not decode and whose second one
    does: one frame is persisted, and the topic record has no cover. *)
Theorem cover_missing_when_first_message_cut :
  let run :=
    process_camera_topic (H:=test_externals) bag_first_cut 7 color_topic None
      (fresh_world 7) in
  run.1 = Ok (Some 1%Z) /\
  map fd_file_path (g_frames (w_gateway run.2))
    = ["7/frames/_camera_camera_color_image_raw/2.000000.jpg"] /\
  map tr_cover_image_path (g_topics (w_gateway run.2)) = [None].
Proof. vm_compute. repeat split. Qed.

(** ** Pose and inertial topics *)

Section Counts.
Context `{Externals}.

(** A pose or inertial topic that was processed: its batch was inserted,
    then its record was created from the topic's statistics. *)
Lemma process_sample_topic_inv {Row : Type}
    (insert_rows : list Row -> Gateway -> Gateway) (rows_of : list MessageRow -> list Row)
    (store : BagStore) (bag_id : Z) (topic_name : string) (w w' : World) (tid : Z) :
  (topic_info ← lift (get_topic_info store topic_name);
   match topic_info with
   | None => mret None
   | Some ti =>
       _ ← modify (with_gateway
                     (insert_rows (rows_of (fetch_messages store (ti_topic_id ti)))));
       topic_db_id ← db_create_topic bag_id topic_name ti None;
       mret (Some topic_db_id)
   end) w = (Ok (Some tid), w') ->
  exists ti,
    get_topic_info store topic_name = Ok (Some ti) /\
    w_gateway w' =
      (create_topic bag_id topic_name (ti_type ti) (ti_message_count ti)
         (ti_frequency ti) None
         (insert_rows (rows_of (fetch_messages store (ti_topic_id ti))) (w_gateway w))).2.
Proof.
  intros Hrun.
  apply M_bind_inv in Hrun as [(oti & w1 & Hinfo & Hrun)|(e & _ & [=])].
  unfold lift in Hinfo. inversion Hinfo; subst w1. clear Hinfo.
  destruct oti as [ti|]; [|by inversion Hrun].
  exists ti. split; [done|].
  cbn in Hrun. by inversion Hrun.
Qed.

End Counts.

(** ** Frequency *)

Lemma Qpos_b_ns_to_s (delta : Z) : Qpos_b (ns_to_s delta) = (0 <? delta)%Z.
Proof.
  unfold Qpos_b, ns_to_s, truediv.
  pose proof (Qred_correct (inject_Z delta / inject_Z 1000000000)) as Heq.
  unfold Qeq in Heq. cbn in Heq.
  destruct (Qred (inject_Z delta / inject_Z 1000000000)) as [n d]. cbn in *.
  destruct (Z.ltb_spec 0 n), (Z.ltb_spec 0 delta); try done; nia.
Qed.

(** A topic with at least one message: the frequency is the integer 0 when
    its first and last timestamps coincide, and count / seconds otherwise. *)
Lemma get_topic_info_frequency (store : BagStore) (topic_name : string)
    (topic : TopicRow) (first_time last_time : Z) :
  find (fun t => String.eqb (t_name t) topic_name) (st_topics store) = Some topic ->
  sql_min (map m_timestamp (rows_of_topic store (t_id topic))) = Some first_time ->
  sql_max (map m_timestamp (rows_of_topic store (t_id topic))) = Some last_time ->
  exists ti,
    get_topic_info store topic_name = Ok (Some ti) /\
    ti_frequency ti =
      if (first_time <? last_time)%Z
      then PyFloat (truediv (inject_Z (Z.of_nat (length (rows_of_topic store (t_id topic)))))
                            (ns_to_s (last_time - first_time)))
      else PyInt 0.
Proof.
  intros Hfind Hmin Hmax. unfold get_topic_info.
  rewrite Hfind, Hmin, Hmax. cbn [sub_optional]. step_ok.
  eexists. split; [reflexivity|]. cbn [ti_frequency].
  rewrite Qpos_b_ns_to_s.
  destruct (Z.ltb_spec 0 (last_time - first_time)), (Z.ltb_spec first_time last_time);
    try done; lia.
Qed.

(** C2 at a topic that is declared in the store and has no message rows:
    sqlite returns NULL for both timestamps, their difference raises, and
    the bag ends as failed. [get_metadata] on an empty store, which guards
    the same NULLs, returns a zero duration. On 100 messages over 10 seconds
    the frequency is 10. *)
Theorem topic_without_messages_raises :
  get_topic_info bag_silent_pose "/camera/pose" = Raise TypeError
  /\ ps_status <$>
       w_jobs (process_bag_background (H:=test_externals) 7 (Some bag_silent_pose)
                 quiet (fresh_world 7)) !! 7%Z
     = Some "failed"
  /\ md_duration (get_metadata (mkBagStore [pose_row] [])) = inject_Z 0
  /\ ti_frequency <$> try_except (get_topic_info bag_hundred "/camera/pose")
     = Some (PyFloat (inject_Z 10)).
Proof. vm_compute. repeat split. Qed.

(** ** Progress values *)

Lemma completions_app (l k : list (report_site * Q)) :
  completions (l ++ k) = completions l ++ completions k.
Proof. apply omap_app. Qed.

Lemma completions_sub (l : list (report_site * Q)) :
  Forall sub_report_ok l -> completions l = [].
Proof.
  induction 1 as [|[site v] l [Hsite _] _ IH]; [done|].
  cbn in Hsite. subst site. exact IH.
Qed.

Lemma fraction_lt (i j : nat) : (i < j)%nat -> (fraction i < fraction j)%Q.
Proof.
  intros Hlt. unfold fraction, truediv. rewrite !Qred_correct.
  apply Qmult_lt_compat_r; [done|]. rewrite <- Zlt_Qlt. lia.
Qed.

Lemma fractions_increasing (first count : nat) :
  StronglySorted Qlt (map fraction (seq first count)).
Proof.
  revert first. induction count as [|n IH]; intros first; [constructor|].
  cbn [seq map]. constructor; [apply IH|].
  apply Forall_map, Forall_forall. intros k Hk.
  apply list_elem_of_In, in_seq in Hk. apply fraction_lt. lia.
Qed.

Section Reports.
Context `{Externals}.

Lemma camera_loop_reports (bag_id : Z) (topic_name message_type : string)
    (cb : option Callback) (total : nat) (messages : list MessageRow) :
  forall (idx : nat) (frames : list FrameData) (cover : option string)
         (w w' : World) (r : result (list FrameData * option string)),
    (idx + length messages <= total)%nat ->
    camera_loop bag_id topic_name message_type cb total idx messages frames cover w
      = (r, w') ->
    exists new, w_reports w' = w_reports w ++ new /\ Forall sub_report_ok new.
Proof.
  induction messages as [|row rest IH]; intros idx frames cover w w' r Hbound Hrun.
  - cbn in Hrun. inversion Hrun; subst. exists []. by rewrite app_nil_r.
  - cbn [camera_loop] in Hrun. cbn [length] in Hbound.
    destruct (deserialize_image_message (m_data row) message_type)
      as [[[img width] height]|].
    2:{ eapply IH; [|exact Hrun]. lia. }
    apply M_bind_inv in Hrun as [([] & w1 & Hwrite & Hrun)|(e & Hwrite & ->)].
    2:{ apply imwrite_inv in Hwrite as [_ ->]. exists []. by rewrite app_nil_r. }
    apply imwrite_inv in Hwrite as [_ Hw1].
    assert (Hsub : forall l,
               Forall (fun p => p.1 = SubProgress /\
                                ((idx < total)%nat -> (0 <= p.2)%Q /\ (p.2 < 1)%Q)) l ->
               Forall sub_report_ok l).
    { intros l Hl. eapply Forall_impl; [exact Hl|]. intros p [Hsite Hunit].
      split; [done|]. apply Hunit. lia. }
    apply M_bind_inv in Hrun as [([] & w2 & Hrep & Hrun)|(e & Hrep & ->)].
    2:{ apply report_sub_progress_inv in Hrep as (_ & new & Hnew & Hall).
        exists new. rewrite Hnew, Hw1. auto. }
    apply report_sub_progress_inv in Hrep as (_ & new1 & Hnew1 & Hall1).
    apply IH in Hrun as (new2 & Hnew2 & Hall2); [|lia].
    exists (new1 ++ new2). rewrite Hnew2, Hnew1, Hw1, app_assoc.
    split; [done|]. apply Forall_app. auto.
Qed.

Lemma process_topic_reports (kind : topic_kind) (store : BagStore) (bag_id : Z)
    (cb : option Callback) (topic_name : string) (w w' : World) (r : result (option Z)) :
  process_topic kind store bag_id cb topic_name w = (r, w') ->
  exists new, w_reports w' = w_reports w ++ new /\ Forall sub_report_ok new.
Proof.
  assert (Hnone : forall v v' : World,
             w_reports v' = w_reports v ->
             exists new, w_reports v' = w_reports v ++ new /\ Forall sub_report_ok new).
  { intros v v' ->. exists []. by rewrite app_nil_r. }
  intros Hrun. destruct kind; cbn [process_topic] in Hrun.
  - unfold process_camera_topic in Hrun.
    apply M_bind_inv in Hrun as [(oti & w1 & Hinfo & Hrun)|(e & Hinfo & ->)].
    2:{ unfold lift in Hinfo. inversion Hinfo; subst. by apply Hnone. }
    unfold lift in Hinfo. inversion Hinfo; subst w1. clear Hinfo.
    destruct oti as [ti|]; [|inversion Hrun; subst; by apply Hnone].
    apply M_bind_inv in Hrun as [([frames cover] & w1 & Hloop & Hrun)|(e & Hloop & ->)].
    2:{ eapply camera_loop_reports; [|exact Hloop]. cbn. lia. }
    apply camera_loop_reports in Hloop as (new & Hnew & Hall); [|cbn; lia].
    cbn in Hrun. inversion Hrun; subst. cbn. eauto.
  - unfold process_pose_topic in Hrun.
    apply M_bind_inv in Hrun as [(oti & w1 & Hinfo & Hrun)|(e & Hinfo & ->)].
    2:{ unfold lift in Hinfo. inversion Hinfo; subst. by apply Hnone. }
    unfold lift in Hinfo. inversion Hinfo; subst w1. clear Hinfo.
    destruct oti as [ti|]; cbn in Hrun; inversion Hrun; subst; by apply Hnone.
  - unfold process_imu_topic in Hrun.
    apply M_bind_inv in Hrun as [(oti & w1 & Hinfo & Hrun)|(e & Hinfo & ->)].
    2:{ unfold lift in Hinfo. inversion Hinfo; subst. by apply Hnone. }
    unfold lift in Hinfo. inversion Hinfo; subst w1. clear Hinfo.
    destruct oti as [ti|]; cbn in Hrun; inversion Hrun; subst; by apply Hnone.
Qed.

Lemma topic_loop_reports (kind : topic_kind) (store : BagStore) (bag_id : Z)
    (cb : option Callback) (others : Interference) (present topics : list string) :
  forall (processed : nat) (w w' : World) (r : result nat),
    topic_loop kind store bag_id cb others present topics processed w = (r, w') ->
    exists new count,
      w_reports w' = w_reports w ++ new /\
      (count <= length topics)%nat /\
      loop_reports_ok cb processed new count /\
      (forall n, r = Ok n -> n = (processed + count)%nat).
Proof.
  induction topics as [|topic rest IH]; intros processed w w' r Hrun.
  - cbn in Hrun. inversion Hrun; subst. exists [], 0%nat.
    rewrite app_nil_r. repeat split; [done | by destruct cb | done |].
    intros n [= <-]. lia.
  - cbn [topic_loop] in Hrun. destruct (bool_decide (topic ∈ present)).
    2:{ apply IH in Hrun as (new & count & Hnew & Hle & Hok & Hn).
        exists new, count. cbn [length]. repeat split; [done | lia | apply Hok.. | done]. }
    apply M_bind_inv in Hrun as [(tid & w1 & Htopic & Hrun)|(e & Htopic & ->)].
    2:{ apply process_topic_reports in Htopic as (new & Hnew & Hall).
        exists new, 0%nat. cbn [length]. repeat split; [done | lia | | | done].
        - rewrite completions_sub by done. by destruct cb.
        - eapply Forall_impl; [exact Hall|]. by intros p (_ & ? & ?) _. }
    apply process_topic_reports in Htopic as (new1 & Hnew1 & Hall1).
    apply M_bind_inv in Hrun as [([] & w2 & Hrep & Hrun)|(e & Hrep & ->)].
    2:{ by apply report_inv in Hrep as ([=] & _). }
    apply report_inv in Hrep as (_ & _ & Hnew2).
    apply M_bind_inv in Hrun as [([] & w3 & Hoth & Hrun)|(e & [=] & _)].
    unfold modify in Hoth. inversion Hoth; subst w3. clear Hoth.
    apply IH in Hrun as (new3 & count & Hnew3 & Hle & [Hcompl Hsub] & Hn).
    cbn [with_jobs w_reports] in Hnew3.
    exists (new1 ++ match cb with
                    | Some _ => [(TopicCompleted, fraction (S processed))]
                    | None => []
                    end ++ new3), (S count).
    split; [by rewrite Hnew3, Hnew2, Hnew1, <- !app_assoc|].
    split; [cbn [length]; lia|]. split; [split|].
    + rewrite !completions_app, Hcompl, completions_sub by done.
      by destruct cb.
    + apply Forall_app. split.
      { eapply Forall_impl; [exact Hall1|]. by intros p (_ & ? & ?) _. }
      apply Forall_app. split; [|done].
      destruct cb; constructor; [|constructor]. by intros [=].
    + intros n Hr. rewrite (Hn n Hr). lia.
Qed.

Lemma loop_reports_ok_app (cb : option Callback) (processed count1 count2 : nat)
    (new1 new2 : list (report_site * Q)) :
  loop_reports_ok cb processed new1 count1 ->
  loop_reports_ok cb (processed + count1) new2 count2 ->
  loop_reports_ok cb processed (new1 ++ new2) (count1 + count2).
Proof.
  intros [Hc1 Hs1] [Hc2 Hs2]. split.
  - rewrite completions_app, Hc1, Hc2. destruct cb; [|done].
    by rewrite seq_app, map_app.
  - by apply Forall_app.
Qed.

Lemma process_all_reports (parser : ROS2BagParser) (cb : option Callback)
    (others : Interference) (w : World) :
  exists new count,
    w_reports (process_all parser cb others w).2 = w_reports w ++ new /\
    (count <= total_topics)%nat /\
    loop_reports_ok cb 0 new count.
Proof.
  assert (Hnil : loop_reports_ok cb 0 [] 0) by (split; [by destruct cb | done]).
  unfold process_all, connect.
  destruct (bag_store parser) as [store|].
  2:{ exists [], 0%nat. cbn. rewrite app_nil_r. repeat split; [lia | apply Hnil..]. }
  unfold mbind at 1, M_bind at 1. unfold try_finally.
  set (present := map t_name (md_topics (get_metadata store))).
  set (w0 := with_conn true w).
  match goal with
  | |- context [let '(r, w') := ?body w0 in _] =>
      destruct (body w0) as [r w3] eqn:Hbody
  end.
  cbn [snd close with_conn w_reports].
  change (w_reports w) with (w_reports w0).
  apply M_bind_inv in Hbody as [(n1 & w1 & Hcam & Hbody)|(e & Hcam & ->)].
  2:{ apply topic_loop_reports in Hcam as (new & count & Hnew & Hle & Hok & _).
      exists new, count. split; [done|]. split; [|done].
      cbn in Hle. unfold total_topics. cbn. lia. }
  apply topic_loop_reports in Hcam as (new1 & c1 & Hnew1 & Hle1 & Hok1 & Hn1).
  specialize (Hn1 n1 eq_refl). cbn in Hn1. subst n1.
  apply M_bind_inv in Hbody as [(n2 & w2 & Hpose & Hbody)|(e & Hpose & ->)].
  2:{ apply topic_loop_reports in Hpose as (new2 & c2 & Hnew2 & Hle2 & Hok2 & _).
      exists (new1 ++ new2), (c1 + c2)%nat. rewrite Hnew2, Hnew1, <- app_assoc.
      split; [done|]. split; [|by apply loop_reports_ok_app].
      cbn in Hle1, Hle2. unfold total_topics. cbn. lia. }
  apply topic_loop_reports in Hpose as (new2 & c2 & Hnew2 & Hle2 & Hok2 & Hn2).
  specialize (Hn2 n2 eq_refl). subst n2.
  assert (Hok12 : loop_reports_ok cb 0 (new1 ++ new2) (c1 + c2))
    by by apply loop_reports_ok_app.
  apply M_bind_inv in Hbody as [(n3 & w4 & Himu & Hbody)|(e & Himu & ->)].
  + apply topic_loop_reports in Himu as (new3 & c3 & Hnew3 & Hle3 & Hok3 & _).
    unfold modify in Hbody. inversion Hbody; subst. cbn [with_gateway w_reports].
    exists ((new1 ++ new2) ++ new3), (c1 + c2 + c3)%nat.
    rewrite Hnew3, Hnew2, Hnew1, <- !app_assoc.
    split; [done|]. split; [|rewrite !app_assoc; by apply loop_reports_ok_app].
    cbn in Hle1, Hle2, Hle3. unfold total_topics. cbn. lia.
  + apply topic_loop_reports in Himu as (new3 & c3 & Hnew3 & Hle3 & Hok3 & _).
    exists ((new1 ++ new2) ++ new3), (c1 + c2 + c3)%nat.
    rewrite Hnew3, Hnew2, Hnew1, <- !app_assoc.
    split; [done|]. split; [|rewrite !app_assoc; by apply loop_reports_ok_app].
    cbn in Hle1, Hle2, Hle3. unfold total_topics. cbn. lia.
Qed.

(** C5, as the code has it. The values reported after a topic never
    decrease: the k-th completed topic reports k / 6, so these values are
    strictly increasing. The values reported inside a camera topic lie in
    [0, 1). *)
Theorem completion_values_increase (parser : ROS2BagParser) (cb : option Callback)
    (others : Interference) (w : World) :
  exists new count,
    w_reports (process_all parser cb others w).2 = w_reports w ++ new /\
    (count <= total_topics)%nat /\
    completions new = match cb with
                      | Some _ => map fraction (seq 1 count)
                      | None => []
                      end /\
    StronglySorted Qlt (completions new) /\
    Forall (fun p => p.1 = SubProgress -> (0 <= p.2)%Q /\ (p.2 < 1)%Q) new.
Proof.
  destruct (process_all_reports parser cb others w)
    as (new & count & Hnew & Hle & Hcompl & Hsub).
  exists new, count. repeat split; [done.. | | done].
  rewrite Hcompl. destruct cb; [apply fractions_increasing | constructor].
Qed.

End Reports.

(** C5, as stated, fails: with two camera topics in the bag, the second
    topic's first message reports 0 after the first topic reported 1/6. *)
Lemma second_camera_topic_reports_zero :
  let reports :=
    w_reports (process_bag_background (H:=test_externals) 7 (Some bag_two_cameras)
                 quiet (fresh_world 7)) in
  reports = [ (SubProgress, inject_Z 0); (TopicCompleted, (1 # 6)%Q);
              (SubProgress, inject_Z 0); (TopicCompleted, (1 # 3)%Q) ]
  /\ ~ never_below_completed reports.
Proof.
  assert (Hrun : w_reports (process_bag_background (H:=test_externals) 7
                              (Some bag_two_cameras) quiet (fresh_world 7))
                 = [ (SubProgress, inject_Z 0); (TopicCompleted, (1 # 6)%Q);
                     (SubProgress, inject_Z 0); (TopicCompleted, (1 # 3)%Q) ])
    by (vm_compute; reflexivity).
  cbn zeta. rewrite Hrun. split; [done|].
  intros Hclaim.
  specialize (Hclaim 1%nat 2%nat (1 # 6)%Q (inject_Z 0) SubProgress).
  cbn in Hclaim. specialize (Hclaim ltac:(lia) eq_refl eq_refl).
  by vm_compute in Hclaim.
Qed.

(** ** Cancellation *)

(** Without other requests the hook of [topic_loop] changes nothing. *)
Lemma quiet_is_identity (processed : nat) (w : World) :
  with_jobs (quiet processed) w = w.
Proof. by destruct w. Qed.

(** Whatever the job table held while the pipeline ran,
    [process_bag_background] ends by overwriting the job's status. *)
Lemma background_final_status `{Externals} (bag_id : Z) (bag : option BagStore)
    (others : Interference) (w : World) :
  let st := w_jobs (process_bag_background bag_id bag others w) !! bag_id in
  st = Some (status_completed bag_id) \/ exists e, st = Some (status_failed bag_id e).
Proof.
  unfold process_bag_background.
  destruct (process_all _ _ _ _) as [[[]|e] w']; cbn.
  - left. apply lookup_insert_eq.
  - right. exists e. apply lookup_insert_eq.
Qed.

(** A cancel request for a registered job sets the cancelled status. *)
Lemma cancel_processing_sets_failed (bag_id : Z) (jobs : Jobs) :
  is_Some (jobs !! bag_id) ->
  (cancel_processing bag_id jobs).2 !! bag_id = Some (status_cancelled bag_id).
Proof.
  intros [st Hst]. unfold cancel_processing. rewrite Hst. cbn.
  apply lookup_insert_eq.
Qed.

(** A cancel request handled after the job completed replaces the
    completed status. *)
Lemma cancel_after_completion (bag_id : Z) (jobs : Jobs) :
  jobs !! bag_id = Some (status_completed bag_id) ->
  (cancel_processing bag_id jobs).2 !! bag_id = Some (status_cancelled bag_id).
Proof. intros Hst. apply cancel_processing_sets_failed. by rewrite Hst. Qed.



(** * Further properties of the codec *)

Lemma slice_app (pre bs post : bytes) (a b : N) :
  len pre = a -> a + len bs = b -> slice (pre ++ bs ++ post) a b = bs.
Proof.
  intros Ha Hb. unfold slice. rewrite !len_app.
  rewrite N.min_l, N.min_l by lia.
  unfold len in *.
  rewrite drop_app_length' by lia.
  by rewrite take_app_length' by lia.
Qed.

Lemma slice_from_app (pre rest : bytes) (a : N) :
  len pre = a -> slice_from (pre ++ rest) a = rest.
Proof.
  intros Ha. unfold slice_from. rewrite len_app, N.min_l by lia.
  unfold len in *. by rewrite drop_app_length' by lia.
Qed.

Lemma len_pack_I (v : N) : len (pack_I v) = 4.
Proof. unfold len, pack_I. by rewrite length_le_encode. Qed.

Lemma len_pack_d (v : N) : len (pack_d v) = 8.
Proof. unfold len, pack_d. by rewrite length_le_encode. Qed.

Lemma unpack_from_ddd_app (pre post : bytes) (a b c : N) (offset : N) :
  len pre = offset -> a < 2 ^ 64 -> b < 2 ^ 64 -> c < 2 ^ 64 ->
  unpack_from_ddd (pre ++ (pack_d a ++ pack_d b ++ pack_d c) ++ post) offset
  = Ok (a, b, c).
Proof.
  intros Hpre Ha Hb Hc. unfold unpack_from_ddd.
  rewrite (unpack_from_app pre _ post 24 offset); [|done|].
  - step_ok. rewrite chunks8_pack_d, chunks8_pack_d by done.
    by rewrite <- (app_nil_r (pack_d c)), chunks8_pack_d.
  - by rewrite !len_app, !len_pack_d.
Qed.

(** X1. An inertial payload laid out field by field decodes to its angular
    velocity and linear acceleration, bit for bit; the orientation, the
    covariance blocks and whatever follows the linear acceleration are
    skipped. *)
Theorem imu_decode_roundtrip (preamble stamp frame_id orientation orientation_cov : bytes)
    (ang : Vec3) (ang_cov : bytes) (lin : Vec3) (trailer : bytes) :
  len preamble = 4 -> len stamp = 8 -> len frame_id < 2 ^ 32 ->
  len orientation = 32 -> len orientation_cov = 72 -> len ang_cov = 72 ->
  vec3_in_range ang -> vec3_in_range lin ->
  deserialize_imu_message
    (imu_payload preamble stamp frame_id orientation orientation_cov
                 ang ang_cov lin trailer)
  = Some (mkImu ang lin).
Proof.
  intros Hpre Hstamp Hfid Hori Hcov Hacov (Hax & Hay & Haz) (Hlx & Hly & Hlz).
  destruct ang as [ax ay az], lin as [lx ly lz]. cbn [v_x v_y v_z] in *.
  unfold deserialize_imu_message, deserialize_imu_body, imu_payload.
  cbn [v_x v_y v_z].
  rewrite (app_assoc preamble stamp).
  rewrite unpack_from_I_app; [|by rewrite len_app, Hpre, Hstamp|done].
  step_ok.
  pose (head := (preamble ++ stamp) ++ pack_I (len frame_id) ++ frame_id
                  ++ orientation ++ orientation_cov).
  assert (Hhead : len head = 4 + 8 + (4 + len frame_id) + 32 + 72).
  { unfold head. rewrite !len_app, len_pack_I. lia. }
  pose (angb := pack_d ax ++ pack_d ay ++ pack_d az).
  pose (linb := pack_d lx ++ pack_d ly ++ pack_d lz).
  assert (Hang : unpack_from_ddd
                   (head ++ angb ++ ang_cov ++ linb ++ trailer)
                   (4 + 8 + (4 + len frame_id) + 32 + 72) = Ok (ax, ay, az)).
  { by apply unpack_from_ddd_app. }
  assert (Hlin : unpack_from_ddd
                   (head ++ angb ++ ang_cov ++ linb ++ trailer)
                   (4 + 8 + (4 + len frame_id) + 32 + 72 + 24 + 72) = Ok (lx, ly, lz)).
  { replace (head ++ angb ++ ang_cov ++ linb ++ trailer)
      with ((head ++ angb ++ ang_cov) ++ linb ++ trailer)
      by (by rewrite <- !app_assoc).
    apply unpack_from_ddd_app; [|done..].
    unfold angb. rewrite !len_app, !len_pack_d, Hhead. lia. }
  replace ((preamble ++ stamp) ++ pack_I (len frame_id) ++ frame_id
             ++ orientation ++ orientation_cov
             ++ (pack_d ax ++ pack_d ay ++ pack_d az) ++ ang_cov
             ++ (pack_d lx ++ pack_d ly ++ pack_d lz) ++ trailer)
    with (head ++ angb ++ ang_cov ++ linb ++ trailer)
    by (unfold head, angb, linb; by rewrite <- !app_assoc).
  rewrite Hang. step_ok. rewrite Hlin. by step_ok.
Qed.

Lemma imu_decode_roundtrip_witness :
  deserialize_imu_message
    (imu_payload [x00; x01; x00; x00] (repeat x00 8) test_frame_id
                 (repeat x00 32) (repeat x00 72)
                 (mkVec3 (bits_of_float 1.0) (bits_of_float 2.0) (bits_of_float 3.0))
                 (repeat x00 72)
                 (mkVec3 0 0 (bits_of_float 9.5)) (repeat xff 72))
  = Some (mkImu (mkVec3 (bits_of_float 1.0) (bits_of_float 2.0) (bits_of_float 3.0))
                (mkVec3 0 0 (bits_of_float 9.5))).
Proof.
  apply imu_decode_roundtrip; try reflexivity; vm_compute; repeat split.
Defined.

Lemma parse_raw_image_header_payload (frame_id : bytes) (height width : N)
    (encoding : string) (step : N) (pixels : bytes) :
  len frame_id < 2 ^ 32 -> height < 2 ^ 32 -> width < 2 ^ 32 ->
  len (list_byte_of_string encoding) < 2 ^ 32 ->
  utf8_valid (map Byte.to_N (list_byte_of_string encoding)) = true ->
  step < 2 ^ 32 -> len pixels < 2 ^ 32 ->
  let data := raw_image_payload frame_id height width encoding step (len pixels) pixels in
  exists offset,
    parse_raw_image_header data
      = Ok (mkRawHeader height width encoding 0 step (len pixels) offset) /\
    slice data offset (offset + len pixels) = pixels.
Proof.
  intros Hfid Hh Hw Henc Hutf Hstep Hpix. cbn zeta.
  unfold raw_image_payload, parse_raw_image_header.
  set (enc := list_byte_of_string encoding) in *.
  set (data := [x00; x01; x00; x00] ++ repeat x00 8 ++ pack_I (len frame_id)
                 ++ frame_id ++ pack_I height ++ pack_I width ++ pack_I (len enc)
                 ++ enc ++ [x00] ++ pack_I step ++ pack_I (len pixels) ++ pixels).
  pose (h0 := [x00; x01; x00; x00] ++ repeat x00 8).
  pose (h1 := h0 ++ pack_I (len frame_id) ++ frame_id).
  pose (h2 := h1 ++ pack_I height).
  pose (h3 := h2 ++ pack_I width).
  pose (h4 := h3 ++ pack_I (len enc)).
  pose (h5 := h4 ++ enc).
  pose (h6 := h5 ++ [x00]).
  pose (h7 := h6 ++ pack_I step).
  pose (h8 := h7 ++ pack_I (len pixels)).
  assert (H0 : len h0 = 4 + 8) by done.
  assert (H1 : len h1 = 4 + 8 + (4 + len frame_id)).
  { unfold h1. rewrite !len_app, len_pack_I, H0. lia. }
  assert (H2 : len h2 = 4 + 8 + (4 + len frame_id) + 4).
  { unfold h2. rewrite len_app, len_pack_I, H1. lia. }
  assert (H3 : len h3 = 4 + 8 + (4 + len frame_id) + 4 + 4).
  { unfold h3. rewrite len_app, len_pack_I, H2. lia. }
  assert (H4 : len h4 = 4 + 8 + (4 + len frame_id) + 4 + 4 + 4).
  { unfold h4. rewrite len_app, len_pack_I, H3. lia. }
  assert (H5 : len h5 = 4 + 8 + (4 + len frame_id) + 4 + 4 + 4 + len enc).
  { unfold h5. rewrite len_app, H4. lia. }
  assert (H6 : len h6 = 4 + 8 + (4 + len frame_id) + 4 + 4 + 4 + len enc + 1).
  { unfold h6. rewrite len_app, H5. change (len [x00]) with 1. lia. }
  assert (H7 : len h7 = 4 + 8 + (4 + len frame_id) + 4 + 4 + 4 + len enc + 1 + 4).
  { unfold h7. rewrite len_app, len_pack_I, H6. lia. }
  assert (H8 : len h8 = 4 + 8 + (4 + len frame_id) + 4 + 4 + 4 + len enc + 1 + 4 + 4).
  { unfold h8. rewrite len_app, len_pack_I, H7. lia. }
  assert (Hsplit : forall pre bs post,
             data = pre ++ bs ++ post -> forall v offset,
             bs = pack_I v -> len pre = offset -> v < 2 ^ 32 ->
             unpack_from_I data offset = Ok v).
  { intros pre bs post -> v offset -> Hlen Hv. by apply unpack_from_I_app. }
  rewrite (Hsplit h0 (pack_I (len frame_id))
             (frame_id ++ pack_I height ++ pack_I width ++ pack_I (len enc)
                ++ enc ++ [x00] ++ pack_I step ++ pack_I (len pixels) ++ pixels)
             ltac:(unfold data, h0; by rewrite <- !app_assoc)
             (len frame_id) (4 + 8) eq_refl H0 Hfid).
  step_ok.
  rewrite (Hsplit h1 (pack_I height)
             (pack_I width ++ pack_I (len enc)
                ++ enc ++ [x00] ++ pack_I step ++ pack_I (len pixels) ++ pixels)
             ltac:(unfold data, h1, h0; by rewrite <- !app_assoc)
             height _ eq_refl H1 Hh).
  step_ok.
  rewrite (Hsplit h2 (pack_I width)
             (pack_I (len enc)
                ++ enc ++ [x00] ++ pack_I step ++ pack_I (len pixels) ++ pixels)
             ltac:(unfold data, h2, h1, h0; by rewrite <- !app_assoc)
             width _ eq_refl H2 Hw).
  step_ok.
  rewrite (Hsplit h3 (pack_I (len enc))
             (enc ++ [x00] ++ pack_I step ++ pack_I (len pixels) ++ pixels)
             ltac:(unfold data, h3, h2, h1, h0; by rewrite <- !app_assoc)
             (len enc) _ eq_refl H3 Henc).
  step_ok.
  assert (Hslice : slice data (4 + 8 + (4 + len frame_id) + 4 + 4 + 4)
                     (4 + 8 + (4 + len frame_id) + 4 + 4 + 4 + len enc) = enc).
  { replace data
      with (h4 ++ enc ++ [x00] ++ pack_I step ++ pack_I (len pixels) ++ pixels)
      by (unfold data, h4, h3, h2, h1, h0; by rewrite <- !app_assoc).
    by apply slice_app. }
  rewrite Hslice. unfold decode_utf8. rewrite Hutf.
  change (string_of_list_byte enc)
    with (string_of_list_byte (list_byte_of_string encoding)).
  rewrite string_of_list_byte_of_string. step_ok.
  assert (Hbig : unpack_from_B data
                   (4 + 8 + (4 + len frame_id) + 4 + 4 + 4 + len enc) = Ok 0).
  { replace data
      with (h5 ++ [x00] ++ pack_I step ++ pack_I (len pixels) ++ pixels)
      by (unfold data, h5, h4, h3, h2, h1, h0; by rewrite <- !app_assoc).
    unfold unpack_from_B. by rewrite (unpack_from_app h5 [x00] _ 1). }
  rewrite Hbig. step_ok.
  rewrite (Hsplit h6 (pack_I step) (pack_I (len pixels) ++ pixels)
             ltac:(unfold data, h6, h5, h4, h3, h2, h1, h0; by rewrite <- !app_assoc)
             step _ eq_refl H6 Hstep).
  step_ok.
  rewrite (Hsplit h7 (pack_I (len pixels)) pixels
             ltac:(unfold data, h7, h6, h5, h4, h3, h2, h1, h0; by rewrite <- !app_assoc)
             (len pixels) _ eq_refl H7 Hpix).
  step_ok.
  eexists. split; [reflexivity|].
  replace data with (h8 ++ pixels ++ [])
    by (unfold data, h8, h7, h6, h5, h4, h3, h2, h1, h0;
        by rewrite app_nil_r, <- !app_assoc).
  by apply slice_app.
Qed.

Lemma len_map {A B : Type} (f : A -> B) (l : list A) : len (map f l) = len l.
Proof. unfold len. by rewrite length_map. Qed.

Lemma length_chunks16 (l : list N) : length (chunks16 l) = (length l / 2)%nat.
Proof.
  enough (Hboth : length (chunks16 l) = (length l / 2)%nat /\
                  forall x, length (chunks16 (x :: l)) = (length (x :: l) / 2)%nat)
    by apply Hboth.
  induction l as [|y l [IH1 IH2]].
  - by split.
  - split; [apply IH2|]. intros x. cbn [chunks16 length]. rewrite IH1.
    change (S (S (length l))) with (1 * 2 + length l)%nat.
    rewrite (Nat.div_add_l 1 2 (length l)) by lia. lia.
Qed.

Lemma len_chunks16 (l : list N) : len (chunks16 l) = len l / 2.
Proof.
  unfold len. rewrite length_chunks16.
  by rewrite Nat2N.inj_div.
Qed.

(** X2. A raw image payload laid out field by field, with a well-formed
    encoding string and a pixel length field equal to the bytes carried,
    decodes according to the class of its encoding: a colour or mono raster
    holding exactly the pixel bytes when height x width (x 3) is their
    number, a 16-bit raster divided by 256 when that number is even and
    twice height x width, and [None] otherwise. *)
Theorem raw_image_decode_roundtrip `{Externals} (frame_id : bytes) (height width : N)
    (encoding : string) (step : N) (pixels : bytes) (message_type : string) :
  contains "CompressedImage" message_type = false ->
  len frame_id < 2 ^ 32 -> height < 2 ^ 32 -> width < 2 ^ 32 ->
  len (list_byte_of_string encoding) < 2 ^ 32 ->
  utf8_valid (map Byte.to_N (list_byte_of_string encoding)) = true ->
  step < 2 ^ 32 -> len pixels < 2 ^ 32 ->
  deserialize_image_message
    (raw_image_payload frame_id height width encoding step (len pixels) pixels)
    message_type
  = match classify_encoding encoding with
    | Color8 =>
        if height * (width * 3) =? len pixels
        then Some (mkArray [height; width; 3] (map Byte.to_N pixels), width, height)
        else None
    | Mono8 =>
        if height * width =? len pixels
        then Some (mkArray [height; width] (map Byte.to_N pixels), width, height)
        else None
    | Depth16 =>
        if (len pixels mod 2 =? 0) && (height * width =? len pixels / 2)
        then Some (mkArray [height; width]
                           (map (fun v => v / 256) (chunks16 (map Byte.to_N pixels))),
                   width, height)
        else None
    | Unsupported => None
    end.
Proof.
  intros Hraw Hfid Hh Hw Henc Hutf Hstep Hpix.
  destruct (parse_raw_image_header_payload frame_id height width encoding step pixels)
    as (offset & Hparse & Hslice); [done..|].
  unfold deserialize_image_message. rewrite Hraw.
  unfold deserialize_raw_image_body. rewrite Hparse. step_ok.
  cbn [rh_height rh_width rh_encoding rh_data_offset rh_data_len].
  rewrite Hslice.
  destruct (classify_encoding encoding); unfold frombuffer, reshape.
  - step_ok. cbn [foldr]. rewrite len_map, N.mul_1_r.
    by destruct (height * (width * 3) =? len pixels).
  - step_ok. cbn [foldr]. rewrite len_map, N.mul_1_r.
    by destruct (height * width =? len pixels).
  - destruct (len pixels mod 2 =? 0); [|done]. step_ok.
    cbn [foldr]. rewrite len_chunks16, len_map, N.mul_1_r.
    by destruct (height * width =? len pixels / 2).
  - done.
Qed.

Lemma raw_image_decode_roundtrip_witness :
  deserialize_image_message (H:=test_externals)
    (raw_image_payload test_frame_id 1 2 "16UC1" 4 (len [x00; x01; xff; xff])
                       [x00; x01; xff; xff])
    image_type
  = Some (mkArray [1; 2] [1; 255], 2, 1).
Proof.
  rewrite (raw_image_decode_roundtrip (H:=test_externals) test_frame_id 1 2 "16UC1" 4
             [x00; x01; xff; xff] image_type);
    vm_compute; reflexivity.
Defined.

Lemma chunks16_bound (l : list N) :
  Forall (fun v => v < 256) l -> Forall (fun v => v < 65536) (chunks16 l).
Proof.
  enough (Hboth : (Forall (fun v => v < 256) l ->
                   Forall (fun v => v < 65536) (chunks16 l)) /\
                  forall x, x < 256 -> Forall (fun v => v < 256) l ->
                            Forall (fun v => v < 65536) (chunks16 (x :: l)))
    by apply Hboth.
  induction l as [|y l [IH1 IH2]].
  - split; [constructor|]. intros x _ _. constructor.
  - split.
    + intros Hall. apply Forall_cons in Hall as [Hy Hl]. by apply IH2.
    + intros x Hx Hall. apply Forall_cons in Hall as [Hy Hl].
      cbn [chunks16]. constructor; [lia|]. by apply IH1.
Qed.

Lemma bytes_bound (bs : bytes) : Forall (fun v => v < 256) (map Byte.to_N bs).
Proof.
  apply Forall_map, Forall_forall. intros b _. cbn.
  pose proof (Byte.to_N_bounded b). lia.
Qed.

(** X3. Every raster the raw-image decoder returns is well-formed: its
    shape is height x width or height x width x 3 for the height and width
    it returns, the number of its elements is the product of its shape, and
    every element fits in 8 bits. *)
Theorem raw_image_raster_well_formed `{Externals} (data : bytes) (message_type : string)
    (img : ndarray) (width height : N) :
  contains "CompressedImage" message_type = false ->
  deserialize_image_message data message_type = Some (img, width, height) ->
  (arr_shape img = [height; width] \/ arr_shape img = [height; width; 3]) /\
  foldr N.mul 1 (arr_shape img) = len (arr_elems img) /\
  Forall (fun v => v < 256) (arr_elems img).
Proof.
  intros Hraw. unfold deserialize_image_message. rewrite Hraw.
  unfold deserialize_raw_image_body.
  destruct (parse_raw_image_header data) as [h|e]; [|done]. step_ok.
  set (image_data := slice data _ _).
  destruct (classify_encoding (rh_encoding h)); unfold frombuffer, reshape.
  - step_ok.
    destruct (N.eqb_spec (foldr N.mul 1 [rh_height h; rh_width h; 3])
                         (len (map Byte.to_N image_data))) as [Heq|]; [|done].
    step_ok. cbn. intros [= <- <- <-]. cbn [arr_shape arr_elems].
    split; [by right|]. split; [done | apply bytes_bound].
  - step_ok.
    destruct (N.eqb_spec (foldr N.mul 1 [rh_height h; rh_width h])
                         (len (map Byte.to_N image_data))) as [Heq|]; [|done].
    step_ok. cbn. intros [= <- <- <-]. cbn [arr_shape arr_elems].
    split; [by left|]. split; [done | apply bytes_bound].
  - destruct (len image_data mod 2 =? 0); [|done]. step_ok.
    destruct (N.eqb_spec (foldr N.mul 1 [rh_height h; rh_width h])
                         (len (chunks16 (map Byte.to_N image_data)))) as [Heq|]; [|done].
    step_ok. cbn. intros [= <- <- <-]. cbn [arr_shape arr_elems].
    split; [by left|]. split; [by rewrite len_map|].
    apply Forall_map. eapply Forall_impl; [apply chunks16_bound, bytes_bound|].
    cbn. intros v Hv. apply N.Div0.div_lt_upper_bound. lia.
  - done.
Qed.

Lemma raw_image_raster_well_formed_witness :
  (arr_shape (mkArray [1; 1] [42]) = [1; 1] \/
   arr_shape (mkArray [1; 1] [42]) = [1; 1; 3]) /\
  foldr N.mul 1 (arr_shape (mkArray [1; 1] [42])) = len (arr_elems (mkArray [1; 1] [42])) /\
  Forall (fun v => v < 256) (arr_elems (mkArray [1; 1] [42])).
Proof.
  apply (raw_image_raster_well_formed (H:=test_externals) good_image image_type
           (mkArray [1; 1] [42]) 1 1).
  - vm_compute. reflexivity.
  - vm_compute. reflexivity.
Defined.

(** X4. For a compressed image payload (preamble, length-prefixed format
    tag, blob) the codec is handed exactly the blob, whatever the tag; the
    decoder returns the codec's raster with the width and height of its
    shape, and [None] when the codec returns nothing, raises, or returns a
    raster of fewer than two dimensions. *)
Theorem compressed_image_decodes_blob `{Externals} (preamble format blob : bytes)
    (message_type : string) :
  contains "CompressedImage" message_type = true ->
  len preamble = 4 -> len format < 2 ^ 32 ->
  deserialize_image_message (compressed_image_payload preamble format blob) message_type
  = decoded_of_codec (cv2_imdecode blob).
Proof.
  intros Hcomp Hpre Hfmt. unfold deserialize_image_message. rewrite Hcomp.
  unfold deserialize_compressed_image_body, compressed_image_payload.
  rewrite unpack_from_I_app by done. step_ok.
  replace (preamble ++ pack_I (len format) ++ format ++ blob)
    with ((preamble ++ pack_I (len format) ++ format) ++ blob)
    by (by rewrite <- !app_assoc).
  rewrite slice_from_app by (rewrite !len_app, len_pack_I; lia).
  unfold decoded_of_codec, shape_at.
  destruct (cv2_imdecode blob) as [[img|]|e]; [|done..]. step_ok.
  destruct (arr_shape img !! 1%nat) as [w|]; [|done]. step_ok.
  by destruct (arr_shape img !! 0%nat).
Qed.

Lemma compressed_image_decodes_blob_witness :
  deserialize_image_message (H:=blob_externals)
    (compressed_image_payload [x00; x01; x00; x00] jpeg_tag [xff; xd8; xff])
    compressed_type
  = Some (mkArray [2; 3; 3] (repeat 0 18), 3, 2).
Proof.
  rewrite (compressed_image_decodes_blob (H:=blob_externals) [x00; x01; x00; x00]
             jpeg_tag [xff; xd8; xff] compressed_type);
    vm_compute; reflexivity.
Defined.


(** * Further properties of the store queries *)

Lemma foldr_min_le_max (x : Z) (l : list Z) :
  (foldr Z.min x l <= foldr Z.max x l)%Z.
Proof. induction l as [|y l IH]; cbn [foldr]; lia. Qed.

Lemma sql_min_le_max (l : list Z) (lo hi : Z) :
  sql_min l = Some lo -> sql_max l = Some hi -> (lo <= hi)%Z.
Proof.
  destruct l as [|x l]; [done|]. cbn. intros [= <-] [= <-].
  apply foldr_min_le_max.
Qed.

Lemma ns_to_s_mono (a b : Z) : (a <= b)%Z -> (ns_to_s a <= ns_to_s b)%Q.
Proof.
  intros Hle. unfold ns_to_s, truediv. rewrite !Qred_correct.
  apply Qmult_le_compat_r; [by rewrite <- Zle_Qle | done].
Qed.

Lemma truediv_pos (a b : Q) : (0 < a)%Q -> (0 < b)%Q -> (0 < truediv a b)%Q.
Proof.
  intros Ha Hb. unfold truediv. rewrite Qred_correct.
  apply Qlt_shift_div_l; [done|]. by rewrite Qmult_0_l.
Qed.

Lemma Qpos_b_true (q : Q) : Qpos_b q = true -> (0 < q)%Q.
Proof.
  unfold Qpos_b, Qlt. cbn. intros Hpos%Z.ltb_lt. lia.
Qed.

Lemma find_name_eq (topic_name : string) (topics : list TopicRow) (topic : TopicRow) :
  find (fun t => String.eqb (t_name t) topic_name) topics = Some topic ->
  t_name topic = topic_name /\ topic ∈ topics.
Proof.
  intros Hfind. apply find_some in Hfind as [Hin Heq].
  split; [by apply String.eqb_eq | by apply list_elem_of_In].
Qed.


(** * Further properties of the topic processors *)

#[local] Instance by_timestamp_transitive : Transitive by_timestamp.
Proof. intros a b c. unfold by_timestamp. lia. Qed.

#[local] Instance by_timestamp_total : Total by_timestamp.
Proof. intros a b. unfold by_timestamp. lia. Qed.

Lemma fetch_messages_sorted (store : BagStore) (topic_id : Z) :
  StronglySorted by_timestamp (fetch_messages store topic_id).
Proof. unfold fetch_messages. apply StronglySorted_merge_sort; apply _. Qed.

(** Rows kept from a list sorted by timestamp, each stamped from its
    message, are sorted by their stamps. *)
Lemma omap_sorted {B : Type} (f : MessageRow -> option B) (key : B -> Q)
    (messages : list MessageRow) :
  (forall row y, f row = Some y -> key y = ns_to_s (m_timestamp row)) ->
  StronglySorted by_timestamp messages ->
  StronglySorted Qle (map key (omap f messages)).
Proof.
  intros Hkey. induction 1 as [|row rest Hsorted IH Hrow]; [constructor|].
  cbn [omap list_omap]. destruct (f row) as [y|] eqn:Hf; [|exact IH].
  cbn [map]. constructor; [exact IH|].
  apply Forall_map, Forall_forall. intros y' Hy'.
  apply list_elem_of_omap in Hy' as (row' & Hin & Hf'). cbn.
  rewrite (Hkey _ _ Hf), (Hkey _ _ Hf'). apply ns_to_s_mono.
  rewrite Forall_forall in Hrow. by apply Hrow.
Qed.

Lemma length_omap_le {A B : Type} (f : A -> option B) (l : list A) :
  (length (omap f l) <= length l)%nat.
Proof.
  induction l as [|x l IH]; [done|]. cbn [omap list_omap length].
  destruct (f x); cbn [length]; lia.
Qed.

Section Order.
Context `{Externals}.

(** [frames_from] as a selection of the messages that decode. *)
Lemma frames_from_stamps (bag_id : Z) (topic_name message_type : string)
    (messages : list MessageRow) (idx : nat) :
  map fd_timestamp (frames_from bag_id topic_name message_type idx messages)
  = map ns_to_s
      (omap (fun row => match deserialize_image_message (m_data row) message_type with
                        | Some _ => Some (m_timestamp row)
                        | None => None
                        end) messages).
Proof.
  revert idx. induction messages as [|row rest IH]; intros idx; [done|].
  cbn [frames_from omap list_omap].
  destruct (deserialize_image_message (m_data row) message_type) as [[[img wd] ht]|].
  - cbn [map fd_timestamp]. by rewrite IH.
  - apply IH.
Qed.

Lemma length_frames_from (bag_id : Z) (topic_name message_type : string)
    (messages : list MessageRow) (idx : nat) :
  (length (frames_from bag_id topic_name message_type idx messages)
   <= length messages)%nat.
Proof.
  revert idx. induction messages as [|row rest IH]; intros idx; [done|].
  cbn [frames_from length].
  destruct (deserialize_image_message (m_data row) message_type) as [[[img wd] ht]|].
  - cbn [length]. specialize (IH (S idx)). lia.
  - specialize (IH (S idx)). lia.
Qed.

Lemma head_frames_from_cover (bag_id : Z) (topic_name message_type : string)
    (messages : list MessageRow) :
  let cover := cover_from bag_id topic_name message_type 0 messages None in
  let frames := frames_from bag_id topic_name message_type 0 messages in
  cover = None \/ cover = fd_file_path <$> head frames.
Proof.
  cbn zeta. destruct messages as [|row rest]; [by left|].
  cbn [cover_from frames_from].
  destruct (deserialize_image_message (m_data row) message_type) as [[[img wd] ht]|];
    [by right | by left].
Qed.

(** X7. The frame rows a camera topic persists are in non-decreasing
    timestamp order. *)
Theorem frames_in_timestamp_order (store : BagStore) (bag_id : Z)
    (topic_name : string) (cb : option Callback) (w w' : World) (tid : Z) :
  process_camera_topic store bag_id topic_name cb w = (Ok (Some tid), w') ->
  exists new,
    g_frames (w_gateway w') = g_frames (w_gateway w) ++ new /\
    StronglySorted Qle (map fd_timestamp new).
Proof.
  intros Hrun.
  pose proof (process_camera_topic_inv store bag_id topic_name cb w) as Hinv.
  rewrite Hrun in Hinv. destruct Hinv as (ti & Hinfo & _ & Hgw).
  eexists. split; [by rewrite Hgw, g_frames_bulk_insert|].
  rewrite map_map.
  erewrite (map_ext _ fd_timestamp) by done.
  rewrite frames_from_stamps.
  apply (omap_sorted _ ns_to_s); [|apply fetch_messages_sorted].
  intros row y Hy.
  destruct (deserialize_image_message _ _); [|done]. by inversion Hy.
Qed.

(** X8. The frame rows a camera topic persists all carry the id of the
    topic record created with them; they are at most as many as the
    record's message count; and the record's cover, when it has one, is the
    file path of the first of these rows. *)
Theorem frames_reference_topic (store : BagStore) (bag_id : Z)
    (topic_name : string) (cb : option Callback) (w w' : World) (tid : Z) :
  process_camera_topic store bag_id topic_name cb w = (Ok (Some tid), w') ->
  exists record new,
    g_topics (w_gateway w') = g_topics (w_gateway w) ++ [record] /\
    tr_id record = tid /\
    g_frames (w_gateway w') = g_frames (w_gateway w) ++ new /\
    Forall (fun f => fd_topic_id f = Some tid) new /\
    (length new <= tr_message_count record)%nat /\
    (tr_cover_image_path record = None \/
     tr_cover_image_path record = fd_file_path <$> head new).
Proof.
  intros Hrun.
  pose proof (process_camera_topic_inv store bag_id topic_name cb w) as Hinv.
  rewrite Hrun in Hinv. destruct Hinv as (ti & Hinfo & -> & Hgw).
  apply get_topic_info_inv in Hinfo as (topic & _ & Htid & _ & Hcount).
  eexists. eexists.
  split; [by rewrite Hgw, g_topics_bulk_insert_frames|].
  split; [done|].
  split; [by rewrite Hgw, g_frames_bulk_insert|].
  split; [by apply Forall_map, Forall_true|].
  cbn [tr_message_count tr_cover_image_path]. split.
  - rewrite length_map, Hcount, <- length_fetch_messages, <- Htid.
    apply length_frames_from.
  - destruct (head_frames_from_cover bag_id topic_name (ti_type ti)
                (fetch_messages store (ti_topic_id ti))) as [->| ->]; [by left|].
    right. by destruct (frames_from _ _ _ _ _).
Qed.

End Order.

Lemma frames_in_timestamp_order_witness :
  exists new,
    g_frames (w_gateway
      (process_camera_topic (H:=test_externals) bag_five 7 color_topic None
         (fresh_world 7)).2) = [] ++ new /\
    StronglySorted Qle (map fd_timestamp new).
Proof.
  apply (frames_in_timestamp_order (H:=test_externals) bag_five 7 color_topic None
           (fresh_world 7) _ 1%Z).
  vm_compute. reflexivity.
Defined.

Lemma frames_reference_topic_witness :
  exists record new,
    g_topics (w_gateway
      (process_camera_topic (H:=test_externals) bag_five 7 color_topic None
         (fresh_world 7)).2) = [] ++ [record] /\
    tr_id record = 1%Z /\
    g_frames (w_gateway
      (process_camera_topic (H:=test_externals) bag_five 7 color_topic None
         (fresh_world 7)).2) = [] ++ new /\
    Forall (fun f => fd_topic_id f = Some 1%Z) new /\
    (length new <= tr_message_count record)%nat /\
    (tr_cover_image_path record = None \/
     tr_cover_image_path record = fd_file_path <$> head new).
Proof.
  apply (frames_reference_topic (H:=test_externals) bag_five 7 color_topic None
           (fresh_world 7)).
  vm_compute. reflexivity.
Defined.

Lemma g_pose_data_bulk_insert (rows : list PoseRow) (g : Gateway) :
  g_pose_data (bulk_insert_pose_data rows g) = g_pose_data g ++ rows.
Proof. destruct rows; cbn; [by rewrite app_nil_r | done]. Qed.

Lemma g_imu_data_bulk_insert (rows : list ImuRow) (g : Gateway) :
  g_imu_data (bulk_insert_imu_data rows g) = g_imu_data g ++ rows.
Proof. destruct rows; cbn; [by rewrite app_nil_r | done]. Qed.

(** * The persisted rows, stated on the store's tables *)

Lemma find_split (topic_name : string) (topics : list TopicRow) (topic : TopicRow) :
  find (fun t => String.eqb (t_name t) topic_name) topics = Some topic <->
  exists before after,
    topics = before ++ topic :: after /\
    Forall (fun t => t_name t <> topic_name) before /\
    t_name topic = topic_name.
Proof.
  split.
  - induction topics as [|t l IH]; [done|]. cbn [find].
    destruct (String.eqb_spec (t_name t) topic_name) as [Heq|Hne].
    + intros [= <-]. by exists [], l.
    + intros Hfind. destruct (IH Hfind) as (before & after & -> & Hall & Hname).
      exists (t :: before), after. split; [done|]. split; [by constructor | done].
  - intros (before & after & -> & Hall & Hname).
    induction Hall as [|t before Hne _ IH]; cbn [find app].
    + by destruct (String.eqb_spec (t_name topic) topic_name).
    + by destruct (String.eqb_spec (t_name t) topic_name).
Qed.

Lemma find_none_named (topic_name : string) (topics : list TopicRow) :
  Forall (fun t => t_name t <> topic_name) topics ->
  find (fun t => String.eqb (t_name t) topic_name) topics = None.
Proof.
  induction 1 as [|t l Hne _ IH]; [done|]. cbn [find].
  by destruct (String.eqb_spec (t_name t) topic_name).
Qed.

(** The topic [get_topic_info] reports on is the first one of that name,
    and its count is the number of message rows that carry the topic's id. *)
Lemma get_topic_info_first (store : BagStore) (topic_name : string) (ti : TopicInfo) :
  get_topic_info store topic_name = Ok (Some ti) ->
  exists topic,
    first_topic_named store topic_name topic /\
    ti_topic_id ti = t_id topic /\ ti_type ti = t_type topic /\
    ti_message_count ti
    = length (filter (fun m => m_topic_id m = t_id topic) (st_messages store)).
Proof.
  intros (topic & Hfind & Hid & Htype & Hcount)%get_topic_info_inv.
  exists topic. split; [by apply find_split|]. done.
Qed.

Lemma fetch_messages_in_order (store : BagStore) (topic_id : Z) :
  in_timestamp_order
    (filter (fun m => m_topic_id m = topic_id) (st_messages store))
    (fetch_messages store topic_id).
Proof.
  split; [apply merge_sort_Permutation | apply fetch_messages_sorted].
Qed.

Lemma foldr_min_least (x : Z) (r : list Z) : least (foldr Z.min x r) (x :: r).
Proof.
  induction r as [|y r [Hin Hall]]; cbn [foldr].
  - split; [by left | repeat constructor; lia].
  - apply Forall_cons in Hall as [Hx Hr]. split.
    + destruct (Z.min_spec y (foldr Z.min x r)) as [[_ ->]|[_ ->]].
      * right. by left.
      * apply list_elem_of_In. apply list_elem_of_In in Hin.
        destruct Hin as [<-|Hin]; [by left | right; by right].
    + constructor; [lia|]. constructor; [lia|].
      eapply Forall_impl; [exact Hr|]. cbn. lia.
Qed.

Lemma foldr_max_greatest (x : Z) (r : list Z) : greatest (foldr Z.max x r) (x :: r).
Proof.
  induction r as [|y r [Hin Hall]]; cbn [foldr].
  - split; [by left | repeat constructor; lia].
  - apply Forall_cons in Hall as [Hx Hr]. split.
    + destruct (Z.max_spec y (foldr Z.max x r)) as [[_ ->]|[_ ->]].
      * apply list_elem_of_In. apply list_elem_of_In in Hin.
        destruct Hin as [<-|Hin]; [by left | right; by right].
      * right. by left.
    + constructor; [lia|]. constructor; [lia|].
      eapply Forall_impl; [exact Hr|]. cbn. lia.
Qed.

(** [MIN(timestamp)] and [MAX(timestamp)] are the smallest and the largest
    timestamp of the rows. *)
Lemma sql_min_least (l : list Z) (lo : Z) : least lo l -> sql_min l = Some lo.
Proof.
  intros [Hin Hlow]. destruct l as [|x r]; [by apply elem_of_nil in Hin|].
  cbn [sql_min]. f_equal.
  destruct (foldr_min_least x r) as [Hin' Hlow'].
  rewrite Forall_forall in Hlow, Hlow'.
  specialize (Hlow _ Hin'). specialize (Hlow' _ Hin). lia.
Qed.

Lemma sql_max_greatest (l : list Z) (hi : Z) : greatest hi l -> sql_max l = Some hi.
Proof.
  intros [Hin Hup]. destruct l as [|x r]; [by apply elem_of_nil in Hin|].
  cbn [sql_max]. f_equal.
  destruct (foldr_max_greatest x r) as [Hin' Hup'].
  rewrite Forall_forall in Hup, Hup'.
  specialize (Hup _ Hin'). specialize (Hup' _ Hin). lia.
Qed.

Lemma bulk_insert_frames_tables (frames : list FrameData) (g : Gateway) :
  g_bags (bulk_insert_frames frames g) = g_bags g /\
  g_next_topic_id (bulk_insert_frames frames g) = g_next_topic_id g /\
  g_pose_data (bulk_insert_frames frames g) = g_pose_data g /\
  g_imu_data (bulk_insert_frames frames g) = g_imu_data g.
Proof. by destruct frames. Qed.

Lemma bulk_insert_pose_tables (rows : list PoseRow) (g : Gateway) :
  g_bags (bulk_insert_pose_data rows g) = g_bags g /\
  g_next_topic_id (bulk_insert_pose_data rows g) = g_next_topic_id g /\
  g_frames (bulk_insert_pose_data rows g) = g_frames g /\
  g_imu_data (bulk_insert_pose_data rows g) = g_imu_data g.
Proof. by destruct rows. Qed.

Lemma bulk_insert_imu_tables (rows : list ImuRow) (g : Gateway) :
  g_bags (bulk_insert_imu_data rows g) = g_bags g /\
  g_next_topic_id (bulk_insert_imu_data rows g) = g_next_topic_id g /\
  g_frames (bulk_insert_imu_data rows g) = g_frames g /\
  g_pose_data (bulk_insert_imu_data rows g) = g_pose_data g.
Proof. by destruct rows. Qed.

Lemma pose_rows_omap (bag_id : Z) (messages : list MessageRow) :
  pose_rows bag_id messages
  = omap (fun row => mkPoseRow bag_id (ns_to_s (m_timestamp row))
                       <$> deserialize_pose_message (m_data row)) messages.
Proof.
  unfold pose_rows. induction messages as [|row rest IH]; [done|].
  cbn [omap list_omap]. rewrite IH.
  by destruct (deserialize_pose_message (m_data row)).
Qed.

Lemma imu_rows_omap (bag_id : Z) (messages : list MessageRow) :
  imu_rows bag_id messages
  = omap (fun row => mkImuRow bag_id (ns_to_s (m_timestamp row))
                       <$> deserialize_imu_message (m_data row)) messages.
Proof.
  unfold imu_rows. induction messages as [|row rest IH]; [done|].
  cbn [omap list_omap]. rewrite IH.
  by destruct (deserialize_imu_message (m_data row)).
Qed.

(** ** Store queries *)

(** X5. [get_topic_info] returns [None] when no row of the topics table has
    the name. Otherwise it reports on the first row of that name: it raises
    [TypeError] when no message row carries that topic's id, and else
    returns the topic's id, name and type, the number of message rows that
    carry the id, and as frequency the integer 0 when the earliest and the
    latest of their timestamps coincide, that number divided by the seconds
    between the two otherwise. *)
Theorem get_topic_info_outcomes (store : BagStore) (topic_name : string) :
  (Forall (fun t => t_name t <> topic_name) (st_topics store) ->
   get_topic_info store topic_name = Ok None) /\
  (forall topic,
     first_topic_named store topic_name topic ->
     let rows := filter (fun m => m_topic_id m = t_id topic) (st_messages store) in
     (rows = [] -> get_topic_info store topic_name = Raise TypeError) /\
     (forall first_time last_time,
        least first_time (map m_timestamp rows) ->
        greatest last_time (map m_timestamp rows) ->
        get_topic_info store topic_name
        = Ok (Some (mkTopicInfo (t_id topic) topic_name (t_type topic) (length rows)
                      (if (first_time <? last_time)%Z
                       then PyFloat (truediv (inject_Z (Z.of_nat (length rows)))
                                             (ns_to_s (last_time - first_time)))
                       else PyInt 0))))).
Proof.
  split.
  - intros Hnone. unfold get_topic_info. by rewrite find_none_named.
  - intros topic Hfirst. pose proof Hfirst as (_ & _ & _ & _ & Hname).
    apply find_split in Hfirst. cbn zeta. split.
    + intros Hrows. unfold get_topic_info, rows_of_topic. by rewrite Hfirst, Hrows.
    + intros first_time last_time Hmin%sql_min_least Hmax%sql_max_greatest.
      unfold get_topic_info, rows_of_topic. rewrite Hfirst, Hmin, Hmax.
      cbn [sub_optional]. step_ok. rewrite Qpos_b_ns_to_s, Hname.
      do 3 f_equal.
      destruct (Z.ltb_spec 0 (last_time - first_time)),
               (Z.ltb_spec first_time last_time); try done; lia.
Qed.

Lemma get_topic_info_outcomes_witness :
  get_topic_info bag_five color_topic
  = Ok (Some (mkTopicInfo 1 color_topic image_type 5 (PyFloat (5 # 4)%Q))).
Proof.
  assert (Hfirst : first_topic_named bag_five color_topic color_row).
  { exists [], []. repeat split. constructor. }
  destruct (proj2 (get_topic_info_outcomes bag_five color_topic) color_row Hfirst)
    as [_ Hsome].
  apply (Hsome (second 1) (second 5)).
  - split; [by left | repeat constructor; by vm_compute].
  - split; [do 4 right; by left | repeat constructor; by vm_compute].
Defined.

(** X6. The metadata of a store counts all its message rows and lists its
    topic rows. Its start and end times are the earliest and the latest
    timestamp in seconds, and its duration is their difference in
    nanoseconds, in seconds; all three are 0 for a store without
    messages. The start time is never after the end time and the duration
    is never negative. *)
Theorem get_metadata_duration (store : BagStore) :
  let md := get_metadata store in
  let stamps := map m_timestamp (st_messages store) in
  md_message_count md = length (st_messages store) /\
  md_topics md = st_topics store /\
  (md_start_time md <= md_end_time md)%Q /\
  (0 <= md_duration md)%Q /\
  (st_messages store = [] ->
   md_start_time md = 0%Q /\ md_end_time md = 0%Q /\ md_duration md = 0%Q) /\
  (forall first_time last_time,
     least first_time stamps -> greatest last_time stamps ->
     md_start_time md = ns_to_s first_time /\
     md_end_time md = ns_to_s last_time /\
     md_duration md = ns_to_s (last_time - first_time)).
Proof.
  cbn zeta. unfold get_metadata.
  cbn [md_message_count md_topics md_start_time md_end_time md_duration].
  set (stamps := map m_timestamp (st_messages store)).
  assert (Hle : (or_zero (sql_min stamps) <= or_zero (sql_max stamps))%Z).
  { destruct (sql_min stamps) as [lo|] eqn:Hmin, (sql_max stamps) as [hi|] eqn:Hmax;
      cbn; try lia.
    - by eapply sql_min_le_max.
    - by destruct stamps.
    - by destruct stamps. }
  split; [done|]. split; [done|]. split; [by apply ns_to_s_mono|]. split; [|split].
  - change 0%Q with (ns_to_s 0). apply ns_to_s_mono. lia.
  - intros Hempty. subst stamps. rewrite Hempty. by vm_compute.
  - intros first_time last_time Hmin%sql_min_least Hmax%sql_max_greatest.
    by rewrite Hmin, Hmax.
Qed.

Lemma get_metadata_duration_witness :
  let md := get_metadata bag_five in
  md_start_time md = inject_Z 1 /\ md_end_time md = inject_Z 5 /\
  md_duration md = inject_Z 4.
Proof.
  apply (proj2 (proj2 (proj2 (proj2 (proj2 (get_metadata_duration bag_five)))))
           (second 1) (second 5)).
  - split; [by left | repeat constructor; by vm_compute].
  - split; [do 4 right; by left | repeat constructor; by vm_compute].
Defined.

(** ** Topic records and sample rows *)

Section Tables.
Context `{Externals}.



(** C10. [process_camera_topic] touches the gateway only after its loop has
    gone through every message. If it raises, the gateway is as it was; if
    the topic is absent nothing changes. Otherwise one record is appended
    to the topics table, with the cover the loop chose, and the frame rows
    of all messages that decoded are appended to the frames table, each
    with the id of that record; the other tables are as they were. At a
    topic whose second raster cannot be written, the run raises with one
    image file written and nothing persisted. *)
Theorem camera_topic_persists_after_loop (store : BagStore) (bag_id : Z)
    (topic_name : string) (cb : option Callback) (w : World) :
  match process_camera_topic store bag_id topic_name cb w with
  | (Raise _, w') => w_gateway w' = w_gateway w
  | (Ok None, w') => w' = w
  | (Ok (Some tid), w') =>
      exists ti,
        get_topic_info store topic_name = Ok (Some ti) /\
        tid = g_next_topic_id (w_gateway w) /\
        let messages := fetch_messages store (ti_topic_id ti) in
        let frames := frames_from bag_id topic_name (ti_type ti) 0 messages in
        let cover := cover_from bag_id topic_name (ti_type ti) 0 messages None in
        g_topics (w_gateway w')
        = g_topics (w_gateway w)
          ++ [mkTopicRecord tid bag_id topic_name (ti_type ti) (ti_message_count ti)
                (ti_frequency ti) cover] /\
        g_frames (w_gateway w')
        = g_frames (w_gateway w) ++ map (set_topic_id tid) frames /\
        g_pose_data (w_gateway w') = g_pose_data (w_gateway w) /\
        g_imu_data (w_gateway w') = g_imu_data (w_gateway w) /\
        g_bags (w_gateway w') = g_bags (w_gateway w)
  end
  /\ let run :=
       process_camera_topic (H:=test_externals) bag_write_error 7 color_topic None
         (fresh_world 7) in
     run.1 = Raise Cv2Error /\
     w_gateway run.2 = empty_gateway 7 /\
     map fst (w_files run.2)
       = ["/home/luukas/bagtest/7/frames/_camera_camera_color_image_raw/1.000000.jpg"].
Proof.
  split.
  - pose proof (process_camera_topic_inv store bag_id topic_name cb w) as Hinv.
    destruct (process_camera_topic store bag_id topic_name cb w) as [[[tid|]|e] w'].
    + destruct Hinv as (ti & Hinfo & Hid & Hgw). exists ti.
      split; [done|]. split; [done|]. cbn zeta in *. rewrite Hgw.
      rewrite g_topics_bulk_insert_frames, g_frames_bulk_insert.
      destruct (bulk_insert_frames_tables
                  (map (set_topic_id tid)
                     (frames_from bag_id topic_name (ti_type ti) 0
                        (fetch_messages store (ti_topic_id ti))))
                  (create_topic bag_id topic_name (ti_type ti) (ti_message_count ti)
                     (ti_frequency ti)
                     (cover_from bag_id topic_name (ti_type ti) 0
                        (fetch_messages store (ti_topic_id ti)) None)
                     (w_gateway w)).2) as (-> & _ & -> & ->).
      cbn [create_topic snd g_topics g_frames g_pose_data g_imu_data g_bags].
      by rewrite Hid.
    + done.
    + apply Hinv.
  - vm_compute. repeat split.
Qed.

End Tables.


(** X9. A processed pose topic appends one record, without cover, to the
    topics table, and to the pose table one row for each message row of the
    topic whose payload decodes, by non-decreasing timestamp: the row holds
    the bag id, the message's timestamp in seconds and the decoded pose.
    The rows are at most as many as the record's message count, and no
    other table changes. *)
Theorem pose_topic_rows (store : BagStore) (bag_id : Z) (topic_name : string)
    (w w' : World) (tid : Z) :
  process_pose_topic store bag_id topic_name w = (Ok (Some tid), w') ->
  exists topic messages record rows,
    first_topic_named store topic_name topic /\
    in_timestamp_order
      (filter (fun m => m_topic_id m = t_id topic) (st_messages store)) messages /\
    rows = omap (fun row => mkPoseRow bag_id (ns_to_s (m_timestamp row))
                              <$> deserialize_pose_message (m_data row)) messages /\
    g_topics (w_gateway w') = g_topics (w_gateway w) ++ [record] /\
    tr_id record = tid /\
    tr_bag_id record = bag_id /\
    tr_name record = topic_name /\
    tr_cover_image_path record = None /\
    g_pose_data (w_gateway w') = g_pose_data (w_gateway w) ++ rows /\
    g_frames (w_gateway w') = g_frames (w_gateway w) /\
    g_imu_data (w_gateway w') = g_imu_data (w_gateway w) /\
    Forall (fun r => pr_bag_id r = bag_id) rows /\
    StronglySorted Qle (map pr_timestamp rows) /\
    (length rows <= tr_message_count record)%nat.
Proof.
  intros Hrun.
  assert (Hid : tid = g_next_topic_id (w_gateway w)).
  { unfold process_pose_topic in Hrun.
    apply M_bind_inv in Hrun as [(oti & w1 & Hi & Hrun)|(e & _ & [=])].
    unfold lift in Hi. inversion Hi; subst. destruct oti; [|done].
    cbn in Hrun. inversion Hrun. by destruct (pose_rows _ _). }
  apply process_sample_topic_inv in Hrun as (ti & Hinfo & Hgw).
  apply get_topic_info_first in Hinfo as (topic & Hfirst & Htid & _ & Hcount).
  rewrite Htid in Hgw.
  exists topic, (fetch_messages store (t_id topic)). eexists. eexists.
  split; [done|]. split; [apply fetch_messages_in_order|]. split; [reflexivity|].
  rewrite Hgw. cbn [create_topic snd g_topics g_pose_data g_frames g_imu_data].
  rewrite g_topics_bulk_insert_pose, g_pose_data_bulk_insert.
  destruct (bulk_insert_pose_tables
              (pose_rows bag_id (fetch_messages store (t_id topic))) (w_gateway w))
    as (_ & -> & -> & ->).
  rewrite <- pose_rows_omap.
  split; [done|]. cbn [tr_id tr_bag_id tr_name tr_cover_image_path tr_message_count].
  split; [done|]. split; [done|]. split; [done|]. split; [done|].
  split; [done|]. split; [done|]. split; [done|].
  unfold pose_rows. split; [|split].
  - apply Forall_forall. intros r Hr.
    apply list_elem_of_omap in Hr as (row & _ & Hrow).
    destruct (deserialize_pose_message (m_data row)); [|done].
    cbn in Hrow. by inversion Hrow.
  - apply omap_sorted; [|apply fetch_messages_sorted].
    intros row r Hrow.
    destruct (deserialize_pose_message (m_data row)); [|done].
    cbn in Hrow. by inversion Hrow.
  - pose proof (length_fetch_messages store (t_id topic)) as Hlen.
    unfold rows_of_topic in Hlen. rewrite Hcount, <- Hlen.
    apply length_omap_le.
Qed.

Lemma pose_topic_rows_witness :
  exists topic messages record rows,
    first_topic_named bag_camera_pose "/camera/pose" topic /\
    in_timestamp_order
      (filter (fun m => m_topic_id m = t_id topic) (st_messages bag_camera_pose))
      messages /\
    rows = omap (fun row => mkPoseRow 7 (ns_to_s (m_timestamp row))
                              <$> deserialize_pose_message (m_data row)) messages /\
    g_topics (w_gateway
      (process_pose_topic bag_camera_pose 7 "/camera/pose" (fresh_world 7)).2)
      = [] ++ [record] /\
    tr_id record = 1%Z /\
    tr_bag_id record = 7%Z /\
    tr_name record = "/camera/pose" /\
    tr_cover_image_path record = None /\
    g_pose_data (w_gateway
      (process_pose_topic bag_camera_pose 7 "/camera/pose" (fresh_world 7)).2)
      = [] ++ rows /\
    g_frames (w_gateway
      (process_pose_topic bag_camera_pose 7 "/camera/pose" (fresh_world 7)).2) = [] /\
    g_imu_data (w_gateway
      (process_pose_topic bag_camera_pose 7 "/camera/pose" (fresh_world 7)).2) = [] /\
    Forall (fun r => pr_bag_id r = 7%Z) rows /\
    StronglySorted Qle (map pr_timestamp rows) /\
    (length rows <= tr_message_count record)%nat.
Proof.
  apply (pose_topic_rows bag_camera_pose 7 "/camera/pose" (fresh_world 7)).
  vm_compute. reflexivity.
Defined.

(** X10. A processed inertial topic appends one record, without cover, to
    the topics table, and to the inertial table one row for each message
    row of the topic whose payload decodes, by non-decreasing timestamp: the
    row holds the bag id, the message's timestamp in seconds and the
    decoded angular velocity and linear acceleration. The rows are at most
    as many as the record's message count, and no other table changes. *)
Theorem imu_topic_rows (store : BagStore) (bag_id : Z) (topic_name : string)
    (w w' : World) (tid : Z) :
  process_imu_topic store bag_id topic_name w = (Ok (Some tid), w') ->
  exists topic messages record rows,
    first_topic_named store topic_name topic /\
    in_timestamp_order
      (filter (fun m => m_topic_id m = t_id topic) (st_messages store)) messages /\
    rows = omap (fun row => mkImuRow bag_id (ns_to_s (m_timestamp row))
                              <$> deserialize_imu_message (m_data row)) messages /\
    g_topics (w_gateway w') = g_topics (w_gateway w) ++ [record] /\
    tr_id record = tid /\
    tr_bag_id record = bag_id /\
    tr_name record = topic_name /\
    tr_cover_image_path record = None /\
    g_imu_data (w_gateway w') = g_imu_data (w_gateway w) ++ rows /\
    g_frames (w_gateway w') = g_frames (w_gateway w) /\
    g_pose_data (w_gateway w') = g_pose_data (w_gateway w) /\
    Forall (fun r => ir_bag_id r = bag_id) rows /\
    StronglySorted Qle (map ir_timestamp rows) /\
    (length rows <= tr_message_count record)%nat.
Proof.
  intros Hrun.
  assert (Hid : tid = g_next_topic_id (w_gateway w)).
  { unfold process_imu_topic in Hrun.
    apply M_bind_inv in Hrun as [(oti & w1 & Hi & Hrun)|(e & _ & [=])].
    unfold lift in Hi. inversion Hi; subst. destruct oti; [|done].
    cbn in Hrun. inversion Hrun. by destruct (imu_rows _ _). }
  apply process_sample_topic_inv in Hrun as (ti & Hinfo & Hgw).
  apply get_topic_info_first in Hinfo as (topic & Hfirst & Htid & _ & Hcount).
  rewrite Htid in Hgw.
  exists topic, (fetch_messages store (t_id topic)). eexists. eexists.
  split; [done|]. split; [apply fetch_messages_in_order|]. split; [reflexivity|].
  rewrite Hgw. cbn [create_topic snd g_topics g_pose_data g_frames g_imu_data].
  rewrite g_topics_bulk_insert_imu, g_imu_data_bulk_insert.
  destruct (bulk_insert_imu_tables
              (imu_rows bag_id (fetch_messages store (t_id topic))) (w_gateway w))
    as (_ & -> & -> & ->).
  rewrite <- imu_rows_omap.
  split; [done|]. cbn [tr_id tr_bag_id tr_name tr_cover_image_path tr_message_count].
  split; [done|]. split; [done|]. split; [done|]. split; [done|].
  split; [done|]. split; [done|]. split; [done|].
  unfold imu_rows. split; [|split].
  - apply Forall_forall. intros r Hr.
    apply list_elem_of_omap in Hr as (row & _ & Hrow).
    destruct (deserialize_imu_message (m_data row)); [|done].
    cbn in Hrow. by inversion Hrow.
  - apply omap_sorted; [|apply fetch_messages_sorted].
    intros row r Hrow.
    destruct (deserialize_imu_message (m_data row)); [|done].
    cbn in Hrow. by inversion Hrow.
  - pose proof (length_fetch_messages store (t_id topic)) as Hlen.
    unfold rows_of_topic in Hlen. rewrite Hcount, <- Hlen.
    apply length_omap_le.
Qed.

Lemma imu_topic_rows_witness :
  exists topic messages record rows,
    first_topic_named bag_full "/camera/camera/imu" topic /\
    in_timestamp_order
      (filter (fun m => m_topic_id m = t_id topic) (st_messages bag_full)) messages /\
    rows = omap (fun row => mkImuRow 7 (ns_to_s (m_timestamp row))
                              <$> deserialize_imu_message (m_data row)) messages /\
    g_topics (w_gateway
      (process_imu_topic bag_full 7 "/camera/camera/imu" (fresh_world 7)).2)
      = [] ++ [record] /\
    tr_id record = 1%Z /\
    tr_bag_id record = 7%Z /\
    tr_name record = "/camera/camera/imu" /\
    tr_cover_image_path record = None /\
    g_imu_data (w_gateway
      (process_imu_topic bag_full 7 "/camera/camera/imu" (fresh_world 7)).2)
      = [] ++ rows /\
    g_frames (w_gateway
      (process_imu_topic bag_full 7 "/camera/camera/imu" (fresh_world 7)).2) = [] /\
    g_pose_data (w_gateway
      (process_imu_topic bag_full 7 "/camera/camera/imu" (fresh_world 7)).2) = [] /\
    Forall (fun r => ir_bag_id r = 7%Z) rows /\
    StronglySorted Qle (map ir_timestamp rows) /\
    (length rows <= tr_message_count record)%nat.
Proof.
  apply (imu_topic_rows bag_full 7 "/camera/camera/imu" (fresh_world 7)).
  vm_compute. reflexivity.
Defined.


(** * Further properties of the pipeline *)

Lemma rows_grow_refl (g : Gateway) : rows_grow g g.
Proof. by repeat split. Qed.

Lemma rows_grow_trans (g1 g2 g3 : Gateway) :
  rows_grow g1 g2 -> rows_grow g2 g3 -> rows_grow g1 g3.
Proof.
  intros (? & ? & ? & ?) (? & ? & ? & ?).
  repeat split; by etrans.
Qed.

Lemma rows_grow_create_topic (bag_id : Z) (name message_type : string) (count : nat)
    (frequency : pynum) (cover : option string) (g : Gateway) :
  rows_grow g (create_topic bag_id name message_type count frequency cover g).2.
Proof. repeat split; cbn; [by apply prefix_app_r | done..]. Qed.

Lemma rows_grow_bulk_insert_frames (frames : list FrameData) (g : Gateway) :
  rows_grow g (bulk_insert_frames frames g).
Proof.
  destruct frames; [apply rows_grow_refl|].
  repeat split; cbn; [done | by apply prefix_app_r | done..].
Qed.

Lemma rows_grow_bulk_insert_pose (rows : list PoseRow) (g : Gateway) :
  rows_grow g (bulk_insert_pose_data rows g).
Proof.
  destruct rows; [apply rows_grow_refl|].
  repeat split; cbn; [done | done | by apply prefix_app_r | done].
Qed.

Lemma rows_grow_bulk_insert_imu (rows : list ImuRow) (g : Gateway) :
  rows_grow g (bulk_insert_imu_data rows g).
Proof.
  destruct rows; [apply rows_grow_refl|].
  repeat split; cbn; [done | done | done | by apply prefix_app_r].
Qed.

Lemma name_present_find (topic_name : string) (topics : list TopicRow) :
  topic_name ∈ map t_name topics ->
  is_Some (find (fun t => String.eqb (t_name t) topic_name) topics).
Proof.
  intros Hin. apply list_elem_of_fmap in Hin as (row & -> & Hrow).
  induction Hrow as [row rest|row other rest _ IH]; cbn [find].
  - by rewrite String.eqb_refl.
  - destruct (String.eqb (t_name other) (t_name row)); [done | exact IH].
Qed.

Lemma get_topic_info_present (store : BagStore) (topic_name : string) :
  topic_name ∈ map t_name (st_topics store) ->
  get_topic_info store topic_name <> Ok None.
Proof.
  intros [topic Hfind]%name_present_find. unfold get_topic_info. rewrite Hfind.
  by destruct (sub_optional _ _).
Qed.

Section Outcomes.
Context `{Externals}.

(** One topic, whatever its outcome: rows are only added, and the bags
    table is not touched. *)
Lemma process_topic_grows (kind : topic_kind) (store : BagStore) (bag_id : Z)
    (cb : option Callback) (topic_name : string) (w w' : World) (r : result (option Z)) :
  process_topic kind store bag_id cb topic_name w = (r, w') ->
  rows_grow (w_gateway w) (w_gateway w') /\
  g_bags (w_gateway w') = g_bags (w_gateway w).
Proof.
  intros Hrun. destruct kind; cbn [process_topic] in Hrun.
  - pose proof (process_camera_topic_inv store bag_id topic_name cb w) as Hinv.
    rewrite Hrun in Hinv. destruct r as [[tid|]|e].
    + destruct Hinv as (ti & _ & _ & ->). split.
      * eapply rows_grow_trans;
          [apply rows_grow_create_topic | apply rows_grow_bulk_insert_frames].
      * by destruct (map _ _).
    + subst w'. split; [apply rows_grow_refl | done].
    + destruct Hinv as [-> _]. split; [apply rows_grow_refl | done].
  - unfold process_pose_topic in Hrun.
    apply M_bind_inv in Hrun as [(oti & w1 & Hi & Hrun)|(e & Hi & ->)].
    2:{ unfold lift in Hi. inversion Hi; subst. split; [apply rows_grow_refl | done]. }
    unfold lift in Hi. inversion Hi; subst w1. clear Hi.
    destruct oti as [ti|]; cbn in Hrun; inversion Hrun; subst;
      [|split; [apply rows_grow_refl | done]].
    cbn. split.
    + eapply rows_grow_trans;
        [apply rows_grow_bulk_insert_pose | apply rows_grow_create_topic].
    + by destruct (pose_rows _ _).
  - unfold process_imu_topic in Hrun.
    apply M_bind_inv in Hrun as [(oti & w1 & Hi & Hrun)|(e & Hi & ->)].
    2:{ unfold lift in Hi. inversion Hi; subst. split; [apply rows_grow_refl | done]. }
    unfold lift in Hi. inversion Hi; subst w1. clear Hi.
    destruct oti as [ti|]; cbn in Hrun; inversion Hrun; subst;
      [|split; [apply rows_grow_refl | done]].
    cbn. split.
    + eapply rows_grow_trans;
        [apply rows_grow_bulk_insert_imu | apply rows_grow_create_topic].
    + by destruct (imu_rows _ _).
Qed.

(** A topic of the store that was processed without an exception: one
    record was added, with the topic's name and the bag's id. *)
Lemma process_topic_present (kind : topic_kind) (store : BagStore) (bag_id : Z)
    (cb : option Callback) (topic_name : string) (w w' : World) (r : option Z) :
  topic_name ∈ map t_name (st_topics store) ->
  process_topic kind store bag_id cb topic_name w = (Ok r, w') ->
  exists record,
    g_topics (w_gateway w') = g_topics (w_gateway w) ++ [record] /\
    tr_name record = topic_name /\ tr_bag_id record = bag_id.
Proof.
  intros Hpresent%get_topic_info_present Hrun.
  assert (Hsome : exists tid, r = Some tid).
  { destruct r as [tid|]; [eauto|]. exfalso. apply Hpresent.
    destruct kind; cbn [process_topic] in Hrun.
    - unfold process_camera_topic in Hrun.
      apply M_bind_inv in Hrun as [(oti & w1 & Hi & Hrun)|(e & _ & [=])].
      unfold lift in Hi. inversion Hi; subst. destruct oti as [ti|]; [|done].
      apply M_bind_inv in Hrun as [([fs c] & w2 & _ & Hrun)|(e & _ & [=])].
      cbn in Hrun. by inversion Hrun.
    - unfold process_pose_topic in Hrun.
      apply M_bind_inv in Hrun as [(oti & w1 & Hi & Hrun)|(e & _ & [=])].
      unfold lift in Hi. inversion Hi; subst. destruct oti as [ti|]; [|done].
      cbn in Hrun. by inversion Hrun.
    - unfold process_imu_topic in Hrun.
      apply M_bind_inv in Hrun as [(oti & w1 & Hi & Hrun)|(e & _ & [=])].
      unfold lift in Hi. inversion Hi; subst. destruct oti as [ti|]; [|done].
      cbn in Hrun. by inversion Hrun. }
  destruct Hsome as [tid ->].
  destruct kind; cbn [process_topic] in Hrun.
  - pose proof (process_camera_topic_inv store bag_id topic_name cb w) as Hinv.
    rewrite Hrun in Hinv. destruct Hinv as (ti & _ & _ & ->).
    eexists. by rewrite g_topics_bulk_insert_frames.
  - apply process_sample_topic_inv in Hrun as (ti & _ & ->).
    eexists. cbn. by rewrite g_topics_bulk_insert_pose.
  - apply process_sample_topic_inv in Hrun as (ti & _ & ->).
    eexists. cbn. by rewrite g_topics_bulk_insert_imu.
Qed.

Lemma topic_loop_grows (kind : topic_kind) (store : BagStore) (bag_id : Z)
    (cb : option Callback) (others : Interference) (present topics : list string) :
  forall (processed : nat) (w w' : World) (r : result nat),
    topic_loop kind store bag_id cb others present topics processed w = (r, w') ->
    rows_grow (w_gateway w) (w_gateway w') /\
    g_bags (w_gateway w') = g_bags (w_gateway w).
Proof.
  induction topics as [|topic rest IH]; intros processed w w' r Hrun.
  - cbn in Hrun. inversion Hrun; subst. split; [apply rows_grow_refl | done].
  - cbn [topic_loop] in Hrun. destruct (bool_decide (topic ∈ present)); [|by eapply IH].
    apply M_bind_inv in Hrun as [(tid & w1 & Htopic & Hrun)|(e & Htopic & ->)].
    2:{ by eapply process_topic_grows. }
    apply process_topic_grows in Htopic as [Hgrow1 Hbags1].
    apply M_bind_inv in Hrun as [([] & w2 & Hrep & Hrun)|(e & Hrep & ->)].
    2:{ by apply report_inv in Hrep as ([=] & _). }
    apply report_inv in Hrep as (_ & [Hgw2 _] & _).
    apply M_bind_inv in Hrun as [([] & w3 & Hoth & Hrun)|(e & [=] & _)].
    unfold modify in Hoth. inversion Hoth; subst w3. clear Hoth.
    apply IH in Hrun as [Hgrow3 Hbags3].
    cbn [with_jobs w_gateway] in Hgrow3, Hbags3.
    rewrite Hgw2 in Hgrow3, Hbags3. split.
    + by eapply rows_grow_trans.
    + by rewrite Hbags3.
Qed.

(** A topic loop that ended without an exception added one record for each
    of its topics that the store has, in the loop's order. *)
Lemma topic_loop_ok (kind : topic_kind) (store : BagStore) (bag_id : Z)
    (cb : option Callback) (others : Interference) (topics : list string) :
  let present := map t_name (st_topics store) in
  forall (processed n : nat) (w w' : World),
    topic_loop kind store bag_id cb others present topics processed w = (Ok n, w') ->
    exists records,
      g_topics (w_gateway w') = g_topics (w_gateway w) ++ records /\
      map tr_name records = filter (fun t => t ∈ present) topics /\
      Forall (fun r => tr_bag_id r = bag_id) records /\
      n = (processed + length records)%nat.
Proof.
  cbn zeta. induction topics as [|topic rest IH]; intros processed n w w' Hrun.
  - cbn in Hrun. inversion Hrun; subst. exists []. rewrite app_nil_r.
    repeat split; [done | cbn; lia].
  - cbn [topic_loop] in Hrun. case_bool_decide as Hin.
    2:{ apply IH in Hrun as (records & Hgt & Hnames & Hbag & Hn).
        exists records. by rewrite filter_cons_False. }
    apply M_bind_inv in Hrun as [(tid & w1 & Htopic & Hrun)|(e & _ & [=])].
    apply process_topic_present in Htopic as (record & Hgt1 & Hname & Hbag1); [|done].
    apply M_bind_inv in Hrun as [([] & w2 & Hrep & Hrun)|(e & _ & [=])].
    apply report_inv in Hrep as (_ & [Hgw2 _] & _).
    apply M_bind_inv in Hrun as [([] & w3 & Hoth & Hrun)|(e & [=] & _)].
    unfold modify in Hoth. inversion Hoth; subst w3. clear Hoth.
    apply IH in Hrun as (records & Hgt3 & Hnames & Hbag3 & Hn).
    cbn [with_jobs w_gateway] in Hgt3. rewrite Hgw2, Hgt1 in Hgt3.
    exists (record :: records). rewrite filter_cons_True by done.
    split; [by rewrite Hgt3, <- app_assoc|].
    split; [cbn [map]; by rewrite Hname, Hnames|].
    split; [by constructor|]. cbn [length]. lia.
Qed.

End Outcomes.

Section Runs.
Context `{Externals}.

(** A run of [process_all], whatever its outcome: rows are only added; the
    bag's processed flag is set exactly when the run ends normally. *)
Lemma process_all_outcome (parser : ROS2BagParser) (cb : option Callback)
    (others : Interference) (w w' : World) (r : result unit) :
  process_all parser cb others w = (r, w') ->
  rows_grow (w_gateway w) (w_gateway w') /\
  g_bags (w_gateway w') =
    match r with
    | Ok _ => alter (fun _ => true) (bag_id parser) (g_bags (w_gateway w))
    | Raise _ => g_bags (w_gateway w)
    end.
Proof.
  unfold process_all, connect.
  destruct (bag_store parser) as [store|].
  2:{ cbn. intros [= <- <-]. split; [apply rows_grow_refl | done]. }
  unfold mbind at 1, M_bind at 1. unfold try_finally.
  set (w0 := with_conn true w).
  match goal with
  | |- context [let '(r, w') := ?body w0 in _] =>
      destruct (body w0) as [r3 w3] eqn:Hbody
  end.
  intros [= <- <-]. cbn [close with_conn w_gateway].
  change (w_gateway w) with (w_gateway w0).
  apply M_bind_inv in Hbody as [(n1 & w1 & Hcam & Hbody)|(e & Hcam & ->)].
  2:{ by apply topic_loop_grows in Hcam. }
  apply topic_loop_grows in Hcam as [Hg1 Hb1].
  apply M_bind_inv in Hbody as [(n2 & w2 & Hpose & Hbody)|(e & Hpose & ->)].
  2:{ apply topic_loop_grows in Hpose as [Hg2 Hb2].
      split; [by eapply rows_grow_trans | by rewrite Hb2, Hb1]. }
  apply topic_loop_grows in Hpose as [Hg2 Hb2].
  apply M_bind_inv in Hbody as [(n3 & w4 & Himu & Hbody)|(e & Himu & ->)].
  2:{ apply topic_loop_grows in Himu as [Hg3 Hb3].
      split; [eauto using rows_grow_trans | by rewrite Hb3, Hb2, Hb1]. }
  apply topic_loop_grows in Himu as [Hg3 Hb3].
  unfold modify in Hbody. inversion Hbody; subst. cbn. split.
  - destruct Hg1 as (? & ? & ? & ?), Hg2 as (? & ? & ? & ?), Hg3 as (? & ? & ? & ?).
    repeat split; cbn; by repeat (etrans; [eassumption|]).
  - by rewrite Hb3, Hb2, Hb1.
Qed.

(** X11. [process_all] on a bag directory without a store file raises
    [FileNotFoundError] and changes nothing; with a store file it leaves the
    store connection closed, whether it ends normally or raises. *)
Theorem process_all_releases_store (parser : ROS2BagParser) (cb : option Callback)
    (others : Interference) (w : World) :
  match bag_store parser with
  | None => process_all parser cb others w = (Raise FileNotFoundError, w)
  | Some _ => w_conn_open (process_all parser cb others w).2 = false
  end.
Proof.
  unfold process_all, connect.
  destruct (bag_store parser) as [store|]; [|done].
  unfold mbind at 1, M_bind at 1. unfold try_finally.
  match goal with
  | |- context [let '(r, w') := ?body ?w0 in _] => by destruct (body w0)
  end.
Qed.

(** X12. A run of [process_all] that ends normally has added one topic
    record for each catalog topic the store has, in catalog order and
    nothing else (camera topics, then pose, then inertial), each with the
    bag's id, and has set the bag's processed flag; the values it reported
    after the topics are 1/6, 2/6, ... up to the number of these topics
    over 6. *)
Theorem process_all_success (parser : ROS2BagParser) (cb : option Callback)
    (others : Interference) (w w' : World) (store : BagStore) :
  bag_store parser = Some store ->
  process_all parser cb others w = (Ok tt, w') ->
  exists records new,
    g_topics (w_gateway w') = g_topics (w_gateway w) ++ records /\
    map tr_name records
      = filter (fun t => t ∈ map t_name (st_topics store)) catalog /\
    Forall (fun r => tr_bag_id r = bag_id parser) records /\
    g_bags (w_gateway w')
      = alter (fun _ => true) (bag_id parser) (g_bags (w_gateway w)) /\
    w_reports w' = w_reports w ++ new /\
    completions new = match cb with
                      | Some _ => map fraction (seq 1 (length records))
                      | None => []
                      end.
Proof.
  intros Hstore Hrun.
  pose proof (process_all_outcome _ _ _ _ _ _ Hrun) as [_ Hbags].
  unfold process_all, connect in Hrun. rewrite Hstore in Hrun.
  unfold mbind at 1, M_bind at 1 in Hrun. unfold try_finally in Hrun.
  set (w0 := with_conn true w) in Hrun.
  match type of Hrun with
  | context [let '(r, w') := ?body w0 in _] =>
      destruct (body w0) as [r3 w3] eqn:Hbody
  end.
  inversion Hrun; subst r3 w'. clear Hrun.
  cbn [close with_conn w_gateway w_reports].
  change (w_gateway w) with (w_gateway w0).
  change (w_reports w) with (w_reports w0).
  apply M_bind_inv in Hbody as [(n1 & w1 & Hcam & Hbody)|(e & _ & [=])].
  apply M_bind_inv in Hbody as [(n2 & w2 & Hpose & Hbody)|(e & _ & [=])].
  apply M_bind_inv in Hbody as [(n3 & w4 & Himu & Hbody)|(e & _ & [=])].
  unfold modify in Hbody. inversion Hbody; subst w3. clear Hbody.
  cbn [with_gateway w_gateway w_reports update_bag_processed g_topics] in *.
  pose proof (topic_loop_reports _ _ _ _ _ _ _ _ _ _ _ Hcam)
    as (new1 & c1 & Hnew1 & _ & Hok1 & Hc1).
  pose proof (topic_loop_reports _ _ _ _ _ _ _ _ _ _ _ Hpose)
    as (new2 & c2 & Hnew2 & _ & Hok2 & Hc2).
  pose proof (topic_loop_reports _ _ _ _ _ _ _ _ _ _ _ Himu)
    as (new3 & c3 & Hnew3 & _ & Hok3 & Hc3).
  apply topic_loop_ok in Hcam as (rec1 & Hgt1 & Hnames1 & Hbag1 & Hn1).
  apply topic_loop_ok in Hpose as (rec2 & Hgt2 & Hnames2 & Hbag2 & Hn2).
  apply topic_loop_ok in Himu as (rec3 & Hgt3 & Hnames3 & Hbag3 & Hn3).
  specialize (Hc1 n1 eq_refl). specialize (Hc2 n2 eq_refl). specialize (Hc3 n3 eq_refl).
  assert (c1 = length rec1) by lia. assert (c2 = length rec2) by lia.
  assert (c3 = length rec3) by lia. subst c1 c2 c3. cbn in Hn1. subst n1 n2.
  exists (rec1 ++ rec2 ++ rec3), (new1 ++ new2 ++ new3).
  split; [by rewrite Hgt3, Hgt2, Hgt1, <- !app_assoc|].
  split; [unfold catalog; by rewrite !map_app, !filter_app, Hnames1, Hnames2, Hnames3|].
  split; [by rewrite !Forall_app|].
  split; [done|].
  split; [by rewrite Hnew3, Hnew2, Hnew1, <- !app_assoc|].
  pose proof (loop_reports_ok_app _ _ _ _ _ _ Hok1 Hok2) as Hok12.
  pose proof (loop_reports_ok_app _ _ _ _ _ _ Hok12 Hok3) as [Hcompl _].
  rewrite <- app_assoc in Hcompl. rewrite Hcompl.
  destruct cb; [|done]. by rewrite !length_app, Nat.add_assoc.
Qed.

(** X13. [process_bag_background] never removes or rewrites a persisted
    row: whatever its outcome, every table of rows afterwards starts with
    the rows it held before. *)
Theorem background_keeps_rows (bag_id : Z) (bag : option BagStore)
    (others : Interference) (w : World) :
  rows_grow (w_gateway w) (w_gateway (process_bag_background bag_id bag others w)).
Proof.
  unfold process_bag_background.
  destruct (process_all _ _ _ _) as [r w'] eqn:Hrun.
  apply process_all_outcome in Hrun as [Hgrow _].
  by destruct r.
Qed.

(** X14. After [process_bag_background] the job of the bag is completed
    and the bag's processed flag is set (if the bag has a row), or the job
    is failed and the bags table is as it was. *)
Theorem background_sets_processed_flag (bag_id : Z) (bag : option BagStore)
    (others : Interference) (w : World) :
  let w' := process_bag_background bag_id bag others w in
  (w_jobs w' !! bag_id = Some (status_completed bag_id) /\
   g_bags (w_gateway w') = alter (fun _ => true) bag_id (g_bags (w_gateway w)))
  \/
  (exists e, w_jobs w' !! bag_id = Some (status_failed bag_id e) /\
             g_bags (w_gateway w') = g_bags (w_gateway w)).
Proof.
  cbn zeta. unfold process_bag_background.
  destruct (process_all _ _ _ _) as [r w'] eqn:Hrun.
  apply process_all_outcome in Hrun as [_ Hbags].
  destruct r as [[]|e]; [left | right; exists e];
    (split; [apply lookup_insert_eq | done]).
Qed.

(** X15. The status endpoint after [process_bag_background]: 404 when the
    bag has no row, even though its job is in the table; otherwise the
    completed or the failed status, never pending or processing. *)
Theorem status_after_background (bag_id : Z) (bag : option BagStore)
    (others : Interference) (w : World) :
  let w' := process_bag_background bag_id bag others w in
  match g_bags (w_gateway w) !! bag_id with
  | None => get_processing_status bag_id w' = Raise (HTTPException 404)
  | Some _ =>
      get_processing_status bag_id w' = Ok (status_completed bag_id) \/
      exists e, get_processing_status bag_id w' = Ok (status_failed bag_id e)
  end.
Proof.
  cbn zeta.
  destruct (background_final_status bag_id bag others w) as [Hst|[e Hst]];
    cbn zeta in Hst.
  all: unfold get_processing_status, get_bag.
  all: assert (Hbags : g_bags (w_gateway (process_bag_background bag_id bag others w))
                         !! bag_id
                       = (fun _ => true) <$> g_bags (w_gateway w) !! bag_id \/
                       g_bags (w_gateway (process_bag_background bag_id bag others w))
                         !! bag_id
                       = g_bags (w_gateway w) !! bag_id).
  1,3: unfold process_bag_background;
       destruct (process_all _ _ _ _) as [r w'] eqn:Hrun;
       apply process_all_outcome in Hrun as [_ Hb];
       destruct r; cbn; rewrite Hb; [left; apply lookup_alter_eq | by right..].
  all: destruct (g_bags (w_gateway w) !! bag_id) as [flag|] eqn:Hrow;
       destruct Hbags as [-> | ->]; cbn; rewrite ?Hst; eauto.
Qed.

End Runs.

Lemma process_all_success_witness :
  exists records new,
    g_topics (w_gateway
      (process_all (H:=test_externals) (mkParser (Some bag_full) 7)
         (Some (update_progress 7)) quiet (fresh_world 7)).2) = [] ++ records /\
    map tr_name records
      = filter (fun t => t ∈ map t_name (st_topics bag_full)) catalog /\
    Forall (fun r => tr_bag_id r = 7%Z) records /\
    g_bags (w_gateway
      (process_all (H:=test_externals) (mkParser (Some bag_full) 7)
         (Some (update_progress 7)) quiet (fresh_world 7)).2)
      = alter (fun _ => true) 7%Z {[ 7%Z := false ]} /\
    w_reports
      (process_all (H:=test_externals) (mkParser (Some bag_full) 7)
         (Some (update_progress 7)) quiet (fresh_world 7)).2 = [] ++ new /\
    completions new = map fraction (seq 1 (length records)).
Proof.
  apply (process_all_success (H:=test_externals) (mkParser (Some bag_full) 7)
           (Some (update_progress 7)) quiet (fresh_world 7) _ bag_full).
  - reflexivity.
  - vm_compute. reflexivity.
Defined.

(** * Further properties of the job table *)

Lemma update_progress_lookup (bag_id b : Z) (v : Q) (jobs : Jobs) :
  update_progress bag_id v jobs !! b
  = if decide (b = bag_id)
    then (fun st => mkStatus (ps_bag_id st) (ps_status st)
                             (Qred (v * inject_Z 100)) (ps_message st))
           <$> jobs !! bag_id
    else jobs !! b.
Proof.
  unfold update_progress. case_decide as Hb.
  - subst b. destruct (jobs !! bag_id) as [st|] eqn:Hst; cbn.
    + by rewrite lookup_insert_eq.
    + by rewrite Hst.
  - destruct (jobs !! bag_id); [by rewrite lookup_insert_ne | done].
Qed.

(** X16. Progress updates for a bag never add or remove a job, never change
    the status, the bag id or the message of any job, and leave the jobs of
    other bags as they were: a job that was cancelled or has failed stays so
    under later updates; only its progress moves. *)
Theorem progress_updates_keep_status (bag_id : Z) (values : list Q) (jobs : Jobs) (b : Z) :
  (is_Some (after_updates bag_id values jobs !! b) <-> is_Some (jobs !! b)) /\
  ps_status <$> after_updates bag_id values jobs !! b = ps_status <$> jobs !! b /\
  ps_message <$> after_updates bag_id values jobs !! b = ps_message <$> jobs !! b /\
  ps_bag_id <$> after_updates bag_id values jobs !! b = ps_bag_id <$> jobs !! b /\
  (b <> bag_id -> after_updates bag_id values jobs !! b = jobs !! b).
Proof.
  unfold after_updates. revert jobs.
  induction values as [|v values IH]; intros jobs; [done|].
  cbn [foldl]. destruct (IH (update_progress bag_id v jobs)) as (Hdom & Hst & Hmsg & Hid & Hne).
  rewrite Hdom, Hst, Hmsg, Hid. rewrite update_progress_lookup.
  case_decide as Hb.
  - subst b. destruct (jobs !! bag_id) as [st|]; cbn; repeat split; try done.
    all: by rewrite ?is_Some_alt.
  - repeat split; try done. intros _. rewrite (Hne Hb), update_progress_lookup.
    by case_decide.
Qed.

(** X17. A cancel request for a bag without a job is answered 404 and
    changes nothing; for a bag with a job, whatever its state, it leaves the
    cancelled status. It never touches the job of another bag, and a second
    cancel changes nothing more. *)
Theorem cancel_processing_outcomes (bag_id : Z) (jobs : Jobs) :
  match jobs !! bag_id with
  | None => cancel_processing bag_id jobs = (Raise (HTTPException 404), jobs)
  | Some _ =>
      (cancel_processing bag_id jobs).1 = Ok "Processing cancelled" /\
      (cancel_processing bag_id jobs).2 !! bag_id = Some (status_cancelled bag_id)
  end /\
  (forall b, b <> bag_id -> (cancel_processing bag_id jobs).2 !! b = jobs !! b) /\
  (cancel_processing bag_id (cancel_processing bag_id jobs).2).2
  = (cancel_processing bag_id jobs).2.
Proof.
  unfold cancel_processing.
  destruct (jobs !! bag_id) as [st|] eqn:Hst; cbn [fst snd].
  - rewrite lookup_insert_eq. cbn [snd].
    split; [done|].
    split; [|apply insert_insert_eq].
    intros b Hb. by apply lookup_insert_ne.
  - rewrite Hst. cbn [snd]. done.
Qed.

(** * Further properties of the frame files *)

(** X18. The directory name of a topic has as many characters as the topic
    name and no path separator, so the frames of a topic are written in one
    directory right under [frames/]. *)
Theorem replace_slash_no_separator (topic_name : string) :
  String.length (replace_slash topic_name) = String.length topic_name /\
  contains "/" (replace_slash topic_name) = false.
Proof.
  induction topic_name as [|c t [IHlen IHsep]]; [done|].
  cbn [replace_slash String.length contains String.prefix]. split; [by rewrite IHlen|].
  rewrite IHsep, orb_false_r.
  destruct (Ascii.eqb_spec c "/") as [->|Hc]; [done|].
  destruct (Ascii.ascii_dec "/" c) as [Heq|Hne]; [by subst c | done].
Qed.

Section Files.
Context `{Externals}.

Lemma report_sub_progress_files (cb : option Callback) (idx total : nat)
    (w w' : World) (r : result unit) :
  report_sub_progress cb idx total w = (r, w') -> w_files w' = w_files w.
Proof.
  unfold report_sub_progress.
  destruct (bool_decide (is_Some cb) && (idx mod 10 =? 0)%nat).
  - unfold mbind, M_bind, lift, report, modify.
    destruct (int_truediv _ _); [|by intros [= <- <-]].
    destruct cb; by intros [= <- <-].
  - by intros [= <- <-].
Qed.

Lemma camera_loop_files (bag_id : Z) (topic_name message_type : string)
    (cb : option Callback) (total : nat) (messages : list MessageRow) :
  (forall path img, cv2_imwrite path img <> Ok false) ->
  forall (idx : nat) (frames : list FrameData) (cover : option string)
         (w w' : World) (frames' : list FrameData) (cover' : option string),
    camera_loop bag_id topic_name message_type cb total idx messages frames cover w
      = (Ok (frames', cover'), w') ->
    exists files,
      w_files w' = w_files w ++ files /\
      map fst files
      = map (fun f => abs_path (fd_file_path f))
            (frames_from bag_id topic_name message_type idx messages).
Proof.
  intros Hwrite.
  induction messages as [|row rest IH]; intros idx frames cover w w' frames' cover' Hrun.
  - cbn in Hrun. inversion Hrun; subst. exists []. by rewrite app_nil_r.
  - cbn [camera_loop frames_from] in *.
    destruct (deserialize_image_message (m_data row) message_type)
      as [[[img width] height]|]; [|by eapply IH].
    apply M_bind_inv in Hrun as [([] & w1 & Hw & Hrun)|(e & _ & [=])].
    apply M_bind_inv in Hrun as [([] & w2 & Hrep & Hrun)|(e & _ & [=])].
    apply report_sub_progress_files in Hrep.
    apply IH in Hrun as (files & Hfiles & Hpaths).
    unfold imwrite in Hw.
    destruct (cv2_imwrite _ img) as [[|]|e] eqn:Hcv; [|by apply Hwrite in Hcv|done].
    inversion Hw; subst w1. cbn [with_files w_files] in Hrep.
    eexists (_ :: files). rewrite Hfiles, Hrep, <- app_assoc.
    split; [done|]. cbn [map fst fd_file_path]. by rewrite Hpaths.
Qed.

Lemma files_on_disk_app (log : list (string * ndarray)) (entry : string * ndarray) :
  files_on_disk (log ++ [entry]) = <[entry.1 := entry.2]> (files_on_disk log).
Proof. unfold files_on_disk. by rewrite foldl_app. Qed.

(** A path that was written to holds a file. *)
Lemma files_on_disk_written (log : list (string * ndarray)) (path : string) :
  In path (map fst log) -> is_Some (files_on_disk log !! path).
Proof.
  induction log as [|entry log IH] using rev_ind; [done|].
  rewrite map_app, files_on_disk_app. cbn [map]. intros Hin.
  destruct (decide (entry.1 = path)) as [<-|Hne].
  - rewrite lookup_insert_eq. eauto.
  - rewrite lookup_insert_ne by done. apply IH.
    apply in_app_or in Hin as [Hin|[Hin|[]]]; [done | congruence].
Qed.

(** X19. When the image writer never reports a failed write, a camera topic
    that was processed has made one successful write for each frame row it
    persisted, in the same order, to the row's path under the upload
    directory; so after the run a file is on disk at the path of every
    persisted row. The files are not one per row: two messages stamped
    within the same microsecond get the same path, the second write
    replaces the first, and two rows share the one file. *)
Theorem frame_files_written (store : BagStore) (bag_id : Z) (topic_name : string)
    (cb : option Callback) (w w' : World) (tid : Z) :
  ((forall path img, cv2_imwrite path img <> Ok false) ->
   process_camera_topic store bag_id topic_name cb w = (Ok (Some tid), w') ->
   exists rows writes,
     g_frames (w_gateway w') = g_frames (w_gateway w) ++ rows /\
     w_files w' = w_files w ++ writes /\
     map fst writes = map (fun f => abs_path (fd_file_path f)) rows /\
     Forall (fun f => is_Some (files_on_disk (w_files w') !! abs_path (fd_file_path f)))
            rows)
  /\ (let run :=
        process_camera_topic (H:=test_externals) bag_same_microsecond 7 color_topic
          None (fresh_world 7) in
      let rel := "7/frames/_camera_camera_color_image_raw/1.000000.jpg" in
      map fd_file_path (g_frames (w_gateway run.2)) = [rel; rel] /\
      map fst (w_files run.2) = [abs_path rel; abs_path rel] /\
      map_to_list (files_on_disk (w_files run.2))
      = [(abs_path rel, mkArray [1; 1] [7])]).
Proof.
  split; [|by vm_compute].
  intros Hwrite Hrun.
  pose proof (process_camera_topic_inv store bag_id topic_name cb w) as Hinv.
  rewrite Hrun in Hinv. destruct Hinv as (ti & Hinfo & _ & Hgw).
  unfold process_camera_topic in Hrun.
  apply M_bind_inv in Hrun as [(oti & w1 & Hi & Hrun)|(e & _ & [=])].
  unfold lift in Hi. rewrite Hinfo in Hi. inversion Hi; subst oti w1. clear Hi.
  apply M_bind_inv in Hrun as [([fs c] & w1 & Hloop & Hrun)|(e & _ & [=])].
  apply camera_loop_files in Hloop as (files & Hfiles & Hpaths); [|done].
  cbn in Hrun. inversion Hrun; subst w'. cbn [with_gateway w_files].
  eexists. exists files. split; [by rewrite Hgw, g_frames_bulk_insert|].
  split; [done|].
  assert (Hmap : map fst files
                 = map (fun f => abs_path (fd_file_path f))
                     (map (set_topic_id tid)
                        (frames_from bag_id topic_name (ti_type ti) 0
                           (fetch_messages store (ti_topic_id ti))))).
  { rewrite Hpaths, map_map. by apply map_ext. }
  split; [exact Hmap|].
  apply Forall_forall. intros f Hf. apply files_on_disk_written.
  rewrite Hfiles, map_app, Hmap. apply in_or_app. right.
  apply list_elem_of_In in Hf.
  by apply (in_map (fun f => abs_path (fd_file_path f))).
Qed.

End Files.

Lemma frame_files_written_witness :
  exists rows writes,
    g_frames (w_gateway
      (process_camera_topic (H:=blob_externals) bag_five 7 color_topic None
         (fresh_world 7)).2) = [] ++ rows /\
    w_files
      (process_camera_topic (H:=blob_externals) bag_five 7 color_topic None
         (fresh_world 7)).2 = [] ++ writes /\
    map fst writes = map (fun f => abs_path (fd_file_path f)) rows /\
    Forall (fun f =>
              is_Some (files_on_disk
                         (w_files
                            (process_camera_topic (H:=blob_externals) bag_five 7
                               color_topic None (fresh_world 7)).2)
                       !! abs_path (fd_file_path f))) rows.
Proof.
  apply (proj1 (frame_files_written (H:=blob_externals) bag_five 7 color_topic None
                  (fresh_world 7) _ 1%Z)).
  - intros path img. discriminate.
  - vm_compute. reflexivity.
Defined.


(** * What a topic can raise *)

Lemma get_topic_info_raise (store : BagStore) (topic_name : string) (e : exn) :
  get_topic_info store topic_name = Raise e ->
  e = TypeError /\
  exists topic,
    find (fun t => String.eqb (t_name t) topic_name) (st_topics store) = Some topic /\
    rows_of_topic store (t_id topic) = [].
Proof.
  unfold get_topic_info.
  destruct (find _ (st_topics store)) as [topic|]; [|done].
  destruct (rows_of_topic store (t_id topic)) as [|row rows] eqn:Hrows.
  - cbn. intros [= <-]. eauto.
  - cbn [map sql_min sql_max sub_optional]. by step_ok.
Qed.

Section Raises.
Context `{Externals}.

Lemma camera_loop_raise (bag_id : Z) (topic_name message_type : string)
    (cb : option Callback) (total : nat) (messages : list MessageRow) :
  forall (idx : nat) (frames : list FrameData) (cover : option string)
         (w w' : World) (e : exn),
    (idx + length messages <= total)%nat ->
    camera_loop bag_id topic_name message_type cb total idx messages frames cover w
      = (Raise e, w') ->
    exists path img, cv2_imwrite path img = Raise e.
Proof.
  induction messages as [|row rest IH]; intros idx frames cover w w' e Hbound Hrun.
  - cbn in Hrun. by inversion Hrun.
  - cbn [camera_loop] in Hrun. cbn [length] in Hbound.
    destruct (deserialize_image_message (m_data row) message_type)
      as [[[img width] height]|].
    2:{ eapply IH; [|exact Hrun]. lia. }
    apply M_bind_inv in Hrun as [([] & w1 & Hw & Hrun)|(e' & Hw & [= <-])].
    2:{ unfold imwrite in Hw.
        destruct (cv2_imwrite _ img) as [[|]|e'] eqn:Hcv; [done..|].
        inversion Hw; subst. eauto. }
    apply M_bind_inv in Hrun as [([] & w2 & Hrep & Hrun)|(e' & Hrep & [= <-])].
    { eapply IH; [|exact Hrun]. lia. }
    exfalso. unfold report_sub_progress in Hrep.
    destruct (bool_decide (is_Some cb) && (idx mod 10 =? 0)%nat); [|done].
    unfold mbind, M_bind, lift, int_truediv in Hrep.
    destruct (Z.eqb_spec (Z.of_nat total) 0) as [Hzero|_]; [lia|].
    by apply report_inv in Hrep as ([=] & _).
Qed.

(** X20. No decode failure escapes a topic. A topic processor raises only
    [TypeError], exactly for a topic of the store that has no message row,
    or, for a camera topic, the exception the image writer raised. In
    particular the division by the number of messages never raises. *)
Theorem topic_exceptions (kind : topic_kind) (store : BagStore) (bag_id : Z)
    (cb : option Callback) (topic_name : string) (w w' : World) (e : exn) :
  process_topic kind store bag_id cb topic_name w = (Raise e, w') ->
  (e = TypeError /\
   exists topic,
     find (fun t => String.eqb (t_name t) topic_name) (st_topics store) = Some topic /\
     rows_of_topic store (t_id topic) = [])
  \/ (kind = Camera /\ exists path img, cv2_imwrite path img = Raise e).
Proof.
  intros Hrun. destruct kind; cbn [process_topic] in Hrun.
  - unfold process_camera_topic in Hrun.
    apply M_bind_inv in Hrun as [(oti & w1 & Hi & Hrun)|(e' & Hi & [= <-])].
    2:{ unfold lift in Hi. inversion Hi. left. by apply get_topic_info_raise. }
    destruct oti as [ti|]; [|done].
    apply M_bind_inv in Hrun as [([fs c] & w2 & Hloop & Hrun)|(e' & Hloop & [= <-])].
    { cbn in Hrun. by inversion Hrun. }
    right. split; [done|]. eapply camera_loop_raise; [|exact Hloop]. cbn. lia.
  - unfold process_pose_topic in Hrun.
    apply M_bind_inv in Hrun as [(oti & w1 & Hi & Hrun)|(e' & Hi & [= <-])].
    2:{ unfold lift in Hi. inversion Hi. left. by apply get_topic_info_raise. }
    destruct oti as [ti|]; cbn in Hrun; by inversion Hrun.
  - unfold process_imu_topic in Hrun.
    apply M_bind_inv in Hrun as [(oti & w1 & Hi & Hrun)|(e' & Hi & [= <-])].
    2:{ unfold lift in Hi. inversion Hi. left. by apply get_topic_info_raise. }
    destruct oti as [ti|]; cbn in Hrun; by inversion Hrun.
Qed.

End Raises.

Lemma topic_exceptions_witness :
  (Cv2Error = TypeError /\
   exists topic,
     find (fun t => String.eqb (t_name t) color_topic) (st_topics bag_write_error)
       = Some topic /\
     rows_of_topic bag_write_error (t_id topic) = [])
  \/ (Camera = Camera /\
      exists path img, cv2_imwrite (Externals:=test_externals) path img = Raise Cv2Error).
Proof.
  apply (topic_exceptions (H:=test_externals) Camera bag_write_error 7 None color_topic
           (fresh_world 7)
           (process_topic (H:=test_externals) Camera bag_write_error 7 None color_topic
              (fresh_world 7)).2).
  vm_compute. reflexivity.
Defined.
